(** * Unified Finance Tracker backend: classification and aggregation core

    A shallow embedding of the pure logic of the Flask backend
    ([routes/banking.py], [trading.py], [routes/blockchain.py],
    [routes/news.py]) together with the properties its specification
    states about it.

    Modelling conventions.
    - Python text is an ASCII [string]; [str.lower] maps [A]-[Z] to [a]-[z].
    - Python numbers ([int], [float], [bool] used as a number) are exact
      rationals [Q]; [abs], [+], [*], [/] are the field operations, [/]
      raising [ZeroDivisionError] on a zero divisor, and [round(x, n)]
      rounds half to even, as Python does.  Binary floating-point rounding
      error is outside the model.
    - A JSON object is a [gmap string value]; [d.get(k, default)] is
      [default (d !! k)] and [d[k]] raises [KeyError] on a missing key.
    - A Python [dict] whose iteration order is observable (the category
      breakdown, the allocation, the token table) is an insertion-ordered
      association list.
    - Raised exceptions are explicit: a computation returns [result A].
    - The host clock is a parameter of the news feed: a naive [datetime]
      counts microseconds, [datetime.fromtimestamp] is a function that may
      raise, and [datetime.now()] is read once per article built.  The
      query arguments of a request are a [gmap string string]. *)

From Stdlib Require Import QArith Qround Qabs Qpower Lqa ZArith Lia String Ascii.
From Stdlib Require Import Sorting.Sorted Permutation.
From stdpp Require Import gmap strings list pretty.

Local Open Scope Z_scope.

(* ===================================================================== *)
(** * The Python runtime fragment the code relies on *)
(* ===================================================================== *)

Module Py.

(** Exceptions the modelled code can raise. *)
Inductive exn : Type :=
| ZeroDivisionError
| TypeError
| KeyError
| AttributeError
| ValueError
| OverflowError
| RequestError.  (* what [requests.get] or [response.json()] may raise *)

Inductive result (A : Type) : Type :=
| Ok (a : A)
| Raise (e : exn).
Arguments Ok {A} a.
Arguments Raise {A} e.

Definition bind {A B : Type} (m : result A) (k : A -> result B) : result B :=
  match m with
  | Ok a => k a
  | Raise e => Raise e
  end.

#[export] Instance result_ret : MRet result := fun A a => Ok a.
#[export] Instance result_bind : MBind result := fun A B k m => bind m k.

(** JSON scalars, the field values of the records handled by the core. *)
Inductive value : Type :=
| VNone
| VBool (b : bool)
| VNum (q : Q)
| VStr (s : string).

(** ** Text *)

Definition lower_ascii (c : ascii) : ascii :=
  let n := N_of_ascii c in
  if (65 <=? n)%N && (n <=? 90)%N then ascii_of_N (n + 32) else c.

(** [s.lower()] *)
Fixpoint lower (s : string) : string :=
  match s with
  | EmptyString => EmptyString
  | String c t => String (lower_ascii c) (lower t)
  end.

(** [s.startswith(p)] *)
Fixpoint startswith (s p : string) {struct p} : bool :=
  match p, s with
  | EmptyString, _ => true
  | String _ _, EmptyString => false
  | String a p', String b s' => if Ascii.eqb a b then startswith s' p' else false
  end.

(** [needle in hay] *)
Fixpoint contains (needle hay : string) : bool :=
  startswith hay needle ||
  match hay with
  | EmptyString => false
  | String _ t => contains needle t
  end.

(** [len(s)] *)
Definition len (s : string) : nat := String.length s.

(** The mathematical reading of [needle in hay]. *)
Definition substring_of (needle hay : string) : Prop :=
  exists pre post, hay = pre +:+ needle +:+ post.

(** [v.lower()] on a field value: only text has the method. *)
Definition str_lower (v : value) : result string :=
  match v with
  | VStr s => Ok (lower s)
  | _ => Raise AttributeError
  end.

(** ** Numbers *)

(** The numeric reading of a value ([bool] is a subtype of [int]). *)
Definition num_of (v : value) : option Q :=
  match v with
  | VNum q => Some q
  | VBool b => Some (if b then 1%Q else 0%Q)
  | _ => None
  end.

(** A numeric operand, [TypeError] otherwise. *)
Definition as_num (v : value) : result Q :=
  match num_of v with
  | Some q => Ok q
  | None => Raise TypeError
  end.

(** [abs(v)] *)
Definition py_abs (v : value) : result Q :=
  match as_num v with
  | Ok q => Ok (Qabs q)
  | Raise e => Raise e
  end.

(** [a > b] on numbers *)
Definition gtb (a b : Q) : bool :=
  match (b ?= a)%Q with
  | Lt => true
  | _ => false
  end.

(** [a / b] *)
Definition py_div (a b : Q) : result Q :=
  if Qeq_bool b 0 then Raise ZeroDivisionError else Ok (a / b)%Q.

(** Nearest integer, ties to the even neighbour. *)
Definition round_half_even (q : Q) : Z :=
  let f := Qfloor q in
  match (q - inject_Z f ?= 1 # 2)%Q with
  | Lt => f
  | Gt => f + 1
  | Eq => if Z.even f then f else f + 1
  end.

Definition pow10 (n : nat) : Q := inject_Z (10 ^ Z.of_nat n).

(** [round(q, ndigits)] *)
Definition round (q : Q) (ndigits : nat) : Q :=
  (inject_Z (round_half_even (q * pow10 ndigits)) / pow10 ndigits)%Q.

Definition Qsum (l : list Q) : Q := foldr Qplus 0%Q l.

(** [int(x)] on a number: truncation towards zero. *)
Definition trunc (q : Q) : Z := Z.quot (Qnum q) (Z.pos (Qden q)).

(** [int(s)] on text: surrounding whitespace, an optional sign, then decimal
    digits that single underscores may separate.  The whitespace [int]
    skips is the blank and the five controls tab, line feed, vertical tab,
    form feed and carriage return; the separators 0x1c to 0x1f, which
    [str.strip] would remove, are refused. *)
Definition is_space (c : ascii) : bool :=
  let n := N_of_ascii c in
  ((9 <=? n)%N && (n <=? 13)%N) || (n =? 32)%N.

Fixpoint lstrip (s : string) : string :=
  match s with
  | String c t => if is_space c then lstrip t else s
  | EmptyString => EmptyString
  end.

Definition strip (s : string) : string :=
  String.rev (lstrip (String.rev (lstrip s))).

Definition digit_of (c : ascii) : option Z :=
  let n := N_of_ascii c in
  if (48 <=? n)%N && (n <=? 57)%N then Some (Z.of_N (n - 48)) else None.

Fixpoint parse_digits (s : string) (acc : Z) (after_digit : bool) : option Z :=
  match s with
  | EmptyString => if after_digit then Some acc else None
  | String c t =>
      match digit_of c with
      | Some d => parse_digits t (acc * 10 + d) true
      | None =>
          if Ascii.eqb c "_"%char && after_digit then parse_digits t acc false
          else None
      end
  end.

(** Number of decimal digits in a text. *)
Fixpoint count_digits (s : string) : nat :=
  match s with
  | EmptyString => 0
  | String c t =>
      match digit_of c with
      | Some _ => S (count_digits t)
      | None => count_digits t
      end
  end.

(** The most digits [int] converts ([sys.int_max_str_digits]). *)
Definition int_max_str_digits : nat := 4300.

Definition parse_int (s : string) : option Z :=
  if (int_max_str_digits <? count_digits s)%nat then None
  else
    match strip s with
    | String "-"%char t => Z.opp <$> parse_digits t 0 false
    | String "+"%char t => parse_digits t 0 false
    | t => parse_digits t 0 false
    end.

(** [int(v)] *)
Definition py_int (v : value) : result Z :=
  match v with
  | VNone => Raise TypeError
  | VBool b => Ok (if b then 1 else 0)
  | VNum q => Ok (trunc q)
  | VStr s =>
      match parse_int s with
      | Some z => Ok z
      | None => Raise ValueError
      end
  end.

(** Truth value of an object used as a condition. *)
Definition truthy (v : value) : bool :=
  match v with
  | VNone => false
  | VBool b => b
  | VNum q => negb (Qeq_bool q 0)
  | VStr s => negb (String.eqb s "")
  end.

(** [a == b], which is also the equality of dictionary keys. *)
Definition py_eqb (a b : value) : bool :=
  match a, b with
  | VNone, VNone => true
  | VStr s, VStr t => String.eqb s t
  | VStr _, _ | _, VStr _ | VNone, _ | _, VNone => false
  | _, _ =>
      match num_of a, num_of b with
      | Some x, Some y => Qeq_bool x y
      | _, _ => false
      end
  end.

(** ** Insertion-ordered dictionaries keyed by values *)

Definition dict (A : Type) : Type := list (value * A).

(** [d.get(k)] *)
Fixpoint dict_get {A : Type} (k : value) (d : dict A) : option A :=
  match d with
  | [] => None
  | (k', a) :: rest => if py_eqb k' k then Some a else dict_get k rest
  end.

(** [k in d] *)
Definition dict_mem {A : Type} (k : value) (d : dict A) : bool :=
  match dict_get k d with
  | Some _ => true
  | None => false
  end.

(** [d[k] = a]: an existing key keeps its position (and its stored key),
    a new key goes last. *)
Fixpoint dict_set {A : Type} (k : value) (a : A) (d : dict A) : dict A :=
  match d with
  | [] => [(k, a)]
  | (k', a') :: rest =>
      if py_eqb k' k then (k', a) :: rest else (k', a') :: dict_set k a rest
  end.

(** [d[k]] *)
Definition dict_item {A : Type} (k : value) (d : dict A) : result A :=
  match dict_get k d with
  | Some a => Ok a
  | None => Raise KeyError
  end.

(** [{k: f(v) for k, v in items}] *)
Definition dict_comp {A B : Type} (f : A -> result B) (items : list (value * A))
  : result (dict B) :=
  foldl (fun acc kv => d ← acc; b ← f kv.2; mret (dict_set kv.1 b d))
        (Ok []) items.

(** [rec[k]] on a JSON object *)
Definition item (rec : gmap string value) (k : string) : result value :=
  match rec !! k with
  | Some v => Ok v
  | None => Raise KeyError
  end.

(** [rec.get(k, dflt)] on a JSON object *)
Definition get (rec : gmap string value) (k : string) (dflt : value) : value :=
  default dflt (rec !! k).

(** ** Vocabulary for statements about keys and rounding *)

(** [z] is a nearest integer of [q], the even one at a tie. *)
Definition nearest_even (q : Q) (z : Z) : Prop :=
  (-(1 # 2) < inject_Z z - q /\ inject_Z z - q < 1 # 2)%Q \/
  ((inject_Z z - q == 1 # 2 \/ inject_Z z - q == -(1 # 2))%Q /\
   Z.even z = true).

(** Some key of [ks] equals [k]. *)
Definition key_in (k : value) (ks : list value) : bool :=
  existsb (fun k' => py_eqb k' k) ks.

(** No key of [ks] equals a later one. *)
Fixpoint distinct_keys (ks : list value) : Prop :=
  match ks with
  | [] => True
  | k :: rest => key_in k rest = false /\ distinct_keys rest
  end.

(** The keys of [cs] not already in [seen], each at its first occurrence. *)
Fixpoint new_keys (cs seen : list value) : list value :=
  match cs with
  | [] => []
  | c :: rest =>
      if key_in c seen then new_keys rest seen
      else c :: new_keys rest (seen ++ [c])
  end.

(** Position of the first key of [cs] equal to [k]. *)
Definition first_index (k : value) (cs : list value) : option nat :=
  fst <$> list_find (fun c => py_eqb c k = true) cs.

(** [a] is first met before [b] in [cs]. *)
Definition met_before (cs : list value) (a b : value) : Prop :=
  exists i j, first_index a cs = Some i /\ first_index b cs = Some j /\
              (i < j)%nat.

(** [if k not in d: d[k] = 0] followed by [d[k] += a], as one update. *)
Definition dict_add (k : value) (a : Q) (d : dict Q) : dict Q :=
  let d' := if dict_mem k d then d else dict_set k 0%Q d in
  dict_set k (default 0%Q (dict_get k d') + a)%Q d'.

(** Grouping keyed amounts into a dictionary, one update per item. *)
Definition group (items : list (value * Q)) (d : dict Q) : dict Q :=
  foldl (fun d kv => dict_add kv.1 kv.2 d) d items.

(** Sum of the amounts filed under a key equal to [k]. *)
Definition key_sum (k : value) (items : list (value * Q)) : Q :=
  Qsum (snd <$> filter (fun kv => py_eqb kv.1 k = true) items).

(** ** [sorted(items, key=lambda x: x[1], reverse=True)]

    The builtin is a stable sort; with [reverse=True] equal keys still keep
    their original order.  Insertion from the right realises that contract. *)
Fixpoint insert_desc {K : Type} (x : K * Q) (l : list (K * Q)) : list (K * Q) :=
  match l with
  | [] => [x]
  | y :: rest => if gtb y.2 x.2 then y :: insert_desc x rest else x :: y :: rest
  end.

Definition sorted_by_value_desc {K : Type} (items : list (K * Q)) : list (K * Q) :=
  foldr insert_desc [] items.


(** ** Slices and integer text *)

(** [l[:n]]: a negative bound counts from the end. *)
Definition slice_to {A : Type} (n : Z) (l : list A) : list A :=
  if 0 <=? n then take (Z.to_nat n) l
  else take (length l - Z.to_nat (- n)) l.

(** [s[:n]] on text, for a bound that is not negative. *)
Definition str_take (n : nat) (s : string) : string := String.substring 0 n s.

(** [str(n)] on an integer, as an f-string renders it. *)
Definition str_int (n : Z) : string := pretty n.


End Py.

Import Py.

(* ===================================================================== *)
(** * Binary floating point and Python's numbers *)
(* ===================================================================== *)

(** IEEE 754 binary64 as Python's [float] has it.  A finite float is kept
    as the rational it denotes; every operation returns the exact result
    rounded to the nearest float, ties to the even significand, which is
    how the standard defines it.  The two zeros, which compare equal, are
    not told apart. *)
Module Binary64.

Inductive float : Type :=
| Finite (q : Q)
| Infinity (negative : bool)
| NaN.

Definition pow2 (e : Z) : Q := (2 ^ e)%Q.

(** The largest [e] with [2 ^ e <= |q|], for [q] other than 0. *)
Definition ilog2 (q : Q) : Z :=
  let e := Z.log2 (Z.abs (Qnum q)) - Z.log2 (Z.pos (Qden q)) in
  if Qle_bool (pow2 e) (Qabs q) then e else e - 1.

(** The exponent of the last place of the floats near [q]: 53 significant
    bits, and no place below [2 ^ -1074]. *)
Definition exponent (q : Q) : Z := Z.max (ilog2 q - 52) (-1074).

(** The float nearest to [q]. *)
Definition round_nearest (q : Q) : float :=
  if Qeq_bool q 0 then Finite 0
  else
    let e := exponent q in
    let r := Qred (inject_Z (round_half_even (q / pow2 e)) * pow2 e) in
    if Qle_bool (pow2 1024) (Qabs r) then Infinity (negb (Qle_bool 0 q))
    else Finite r.

Definition fabs (x : float) : float :=
  match x with
  | Finite q => Finite (Qabs q)
  | Infinity _ => Infinity false
  | NaN => NaN
  end.

Definition fadd (x y : float) : float :=
  match x, y with
  | NaN, _ | _, NaN => NaN
  | Infinity a, Infinity b => if Bool.eqb a b then Infinity a else NaN
  | Infinity a, Finite _ | Finite _, Infinity a => Infinity a
  | Finite a, Finite b => round_nearest (a + b)
  end.

Definition negative (q : Q) : bool := negb (Qle_bool 0 q).

Definition fmul (x y : float) : float :=
  match x, y with
  | NaN, _ | _, NaN => NaN
  | Infinity a, Infinity b => Infinity (xorb a b)
  | Infinity a, Finite q | Finite q, Infinity a =>
      if Qeq_bool q 0 then NaN else Infinity (xorb a (negative q))
  | Finite a, Finite b => round_nearest (a * b)
  end.

(** [x / y] for a divisor that is not zero. *)
Definition fdiv (x y : float) : float :=
  match x, y with
  | NaN, _ | _, NaN => NaN
  | Infinity _, Infinity _ => NaN
  | Infinity a, Finite q => Infinity (xorb a (negative q))
  | Finite _, Infinity _ => Finite 0
  | Finite a, Finite b => round_nearest (a / b)
  end.

Definition is_zero (x : float) : bool :=
  match x with
  | Finite q => Qeq_bool q 0
  | _ => false
  end.

(** [x < y] *)
Definition flt (x y : float) : bool :=
  match x, y with
  | NaN, _ | _, NaN => false
  | Finite a, Finite b => negb (Qle_bool b a)
  | Finite _, Infinity b => negb b
  | Infinity a, Finite _ => a
  | Infinity a, Infinity b => a && negb b
  end.

(** [x == y] *)
Definition feq (x y : float) : bool :=
  match x, y with
  | Finite a, Finite b => Qeq_bool a b
  | Infinity a, Infinity b => Bool.eqb a b
  | _, _ => false
  end.

(** [round(x, ndigits)] for [ndigits] that is not negative: the decimal
    with [ndigits] places nearest to the exact value of [x], ties to the
    even last digit, then the float nearest to that decimal. *)
Definition fround (x : float) (ndigits : nat) : float :=
  match x with
  | Finite q =>
      round_nearest (inject_Z (round_half_even (q * pow10 ndigits))
                     / pow10 ndigits)
  | _ => x
  end.

Definition eta : Q := pow2 (-1074).

End Binary64.

(** Python's numbers: integers of any size and floats. *)
Module Numbers.

Import Binary64.

Inductive number : Type :=
| Int (z : Z)
| Float (f : float).

(** [float(z)], which fails on an integer beyond the range of floats. *)
Definition to_float (z : Z) : result float :=
  match round_nearest (inject_Z z) with
  | Infinity _ => Raise OverflowError
  | f => Ok f
  end.

Definition as_float (x : number) : result float :=
  match x with
  | Int z => to_float z
  | Float f => Ok f
  end.

(** [abs(x)] *)
Definition abs (x : number) : number :=
  match x with
  | Int z => Int (Z.abs z)
  | Float f => Float (fabs f)
  end.

(** [x + y] *)
Definition add (x y : number) : result number :=
  match x, y with
  | Int a, Int b => Ok (Int (a + b))
  | _, _ => a ← as_float x; b ← as_float y; mret (Float (fadd a b))
  end.

(** [x * y] *)
Definition mul (x y : number) : result number :=
  match x, y with
  | Int a, Int b => Ok (Int (a * b))
  | _, _ => a ← as_float x; b ← as_float y; mret (Float (fmul a b))
  end.

(** [x / y]: the quotient of two integers is rounded once, from the exact
    quotient. *)
Definition truediv (x y : number) : result number :=
  match x, y with
  | Int a, Int b =>
      if (b =? 0)%Z then Raise ZeroDivisionError
      else
        match round_nearest (inject_Z a / inject_Z b) with
        | Infinity _ => Raise OverflowError
        | f => Ok (Float f)
        end
  | _, _ =>
      a ← as_float x; b ← as_float y;
      if is_zero b then Raise ZeroDivisionError else mret (Float (fdiv a b))
  end.

(** [x < y]; an integer and a float are compared by value. *)
Definition lt (x y : number) : bool :=
  match x, y with
  | Int a, Int b => (a <? b)%Z
  | Int a, Float f => flt (Finite (inject_Z a)) f
  | Float f, Int b => flt f (Finite (inject_Z b))
  | Float f, Float g => flt f g
  end.

(** [x > y] *)
Definition gt (x y : number) : bool := lt y x.

(** [x == y] *)
Definition eqb (x y : number) : bool :=
  match x, y with
  | Int a, Int b => (a =? b)%Z
  | Int a, Float f | Float f, Int a => feq (Finite (inject_Z a)) f
  | Float f, Float g => feq f g
  end.

(** [round(x, ndigits)] for [ndigits] that is not negative. *)
Definition round (x : number) (ndigits : nat) : number :=
  match x with
  | Int z => Int z
  | Float f => Float (fround f ndigits)
  end.

(** Truth value. *)
Definition nonzero (x : number) : bool :=
  match x with
  | Int z => negb (z =? 0)%Z
  | Float f => negb (is_zero f)
  end.

(** The float a decimal literal denotes. *)
Definition literal (q : Q) : number := Float (round_nearest q).

(** The exact value of a finite number. *)
Definition value_of (x : number) : option Q :=
  match x with
  | Int z => Some (inject_Z z)
  | Float (Finite q) => Some q
  | Float _ => None
  end.

End Numbers.


(* ===================================================================== *)
(** * routes/news.py: source credibility *)
(* ===================================================================== *)

Module News.

(** [CREDIBLE_SOURCES], one definition per tier. *)
Definition top_tier : list string :=
  ["Reuters"; "Bloomberg"; "Wall Street Journal"; "Financial Times";
   "Associated Press"; "CNBC"].
Definition secondary : list string :=
  ["MarketWatch"; "Seeking Alpha"; "Yahoo Finance"; "Investopedia"; "Barrons"].
Definition crypto : list string :=
  ["CoinDesk"; "The Block"; "Decrypt"; "Bitcoin Magazine"; "Cointelegraph"].

(** One [for src in tier: if src.lower() in source_lower: return ...] loop:
    [true] when the loop returns, [false] when it falls through. *)
Fixpoint tier_loop (tier : list string) (source_lower : string) : bool :=
  match tier with
  | [] => false
  | src :: rest =>
      if contains (lower src) source_lower then true
      else tier_loop rest source_lower
  end.

Definition get_source_credibility (source : string) : string :=
  let source_lower := lower source in
  if tier_loop top_tier source_lower then "high"
  else if tier_loop secondary source_lower then "medium"
  else if tier_loop crypto source_lower then "crypto"
  else "unknown".

(** A tier matches a source name when the lowered name contains the
    lowered form of one of the tier's outlets. *)
Definition tier_match (tier : list string) (source : string) : Prop :=
  exists src, In src tier /\ substring_of (lower src) (lower source).

End News.

(* ===================================================================== *)
(** * routes/news.py: timestamps and the article feed *)
(* ===================================================================== *)

Module NewsFeed.

Import News.

(** A naive local [datetime], counted in microseconds. *)
Definition datetime : Type := Z.

(** A [timedelta] as Python normalises it: [0 <= seconds < 86400] and
    [0 <= microseconds < 1000000], the sign carried by the days. *)
Record timedelta : Type := {
  td_days : Z;
  td_seconds : Z;
  td_microseconds : Z
}.

Definition day_us : Z := 86400000000.

(** [now - dt] *)
Definition datetime_sub (now dt : datetime) : timedelta :=
  let us := now - dt in
  {| td_days := us / day_us;
     td_seconds := (us mod day_us) / 1000000;
     td_microseconds := us mod 1000000 |}.

(** An article of the answer of [get_news]. *)
Record article : Type := {
  article_id : value;
  article_title : value;
  article_summary : string;
  article_source : string;
  article_credibility : string;
  article_url : value;
  article_image : value;
  article_published : string;
  article_timestamp : value;
  article_category : string;
  article_related : value
}.


(** An article of the built-in feed. *)
Record mock_article : Type := {
  mock_id : Z;
  mock_title : string;
  mock_summary : string;
  mock_source : string;
  mock_credibility : string;
  mock_url : string;
  mock_published : string;
  mock_category : string
}.

Definition mock_articles : list mock_article :=
  [ {| mock_id := 1;
       mock_title := "Federal Reserve Signals Potential Rate Cut in Q2 2025";
       mock_summary := "Fed officials indicate inflation has cooled enough to consider easing monetary policy in the coming months...";
       mock_source := "Reuters";
       mock_credibility := "high";
       mock_url := "#";
       mock_published := "2h ago";
       mock_category := "general" |};
    {| mock_id := 2;
       mock_title := "Tech Stocks Rally as AI Investments Continue to Surge";
       mock_summary := "Major tech companies see significant gains as artificial intelligence investments drive growth expectations...";
       mock_source := "Bloomberg";
       mock_credibility := "high";
       mock_url := "#";
       mock_published := "4h ago";
       mock_category := "general" |};
    {| mock_id := 3;
       mock_title := "Bitcoin Approaches New All-Time High Amid Institutional Buying";
       mock_summary := "Cryptocurrency markets surge as major institutions increase their Bitcoin holdings...";
       mock_source := "CoinDesk";
       mock_credibility := "crypto";
       mock_url := "#";
       mock_published := "1h ago";
       mock_category := "crypto" |};
    {| mock_id := 4;
       mock_title := "S&P 500 Closes at Record High for Third Consecutive Day";
       mock_summary := "Strong earnings reports and positive economic data push major indices to new records...";
       mock_source := "Wall Street Journal";
       mock_credibility := "high";
       mock_url := "#";
       mock_published := "6h ago";
       mock_category := "general" |};
    {| mock_id := 5;
       mock_title := "Oil Prices Stabilize After Middle East Tensions Ease";
       mock_summary := "Crude oil futures settle as diplomatic efforts reduce geopolitical concerns...";
       mock_source := "CNBC";
       mock_credibility := "high";
       mock_url := "#";
       mock_published := "3h ago";
       mock_category := "general" |} ].

(** [get_mock_news(category, limit)] *)
Definition get_mock_news (category : string) (limit : Z) : list mock_article :=
  let mock_articles :=
    if negb (String.eqb category "general")
    then filter (fun a => mock_category a = category) mock_articles
    else mock_articles in
  slice_to limit mock_articles.

(** [request.args.get(key, dflt, type=int)]: the default also stands in
    for a value that does not read as an integer. *)
Definition arg_int (args : gmap string string) (key : string) (dflt : Z) : Z :=
  match args !! key with
  | Some s => default dflt (parse_int s)
  | None => dflt
  end.

(** What [get_news] answers: the built-in feed, the compiled feed with its
    category and count, or the text of a caught exception with status 500. *)
Inductive news_response : Type :=
| MockNews (articles : list mock_article)
| LiveNews (category : string) (count : nat) (articles : list article)
| NewsError (e : exn).

(** The summary expression of [get_news]:
    [article.get('summary', '')[:200] + '...' if article.get('summary') else ''] *)
Definition summary_of (a : gmap string value) : result string :=
  if truthy (get a "summary" VNone) then
    match get a "summary" (VStr "") with
    | VStr s => Ok (str_take 200 s +:+ "...")
    | _ => Raise TypeError
    end
  else Ok "".

Section Clock.

(** The host's clock: [datetime.fromtimestamp], which raises on what is
    not a number and on a number out of range, and the reading of
    [datetime.now()] taken while the article at a given position of the
    answer is built. *)
Variable fromtimestamp : value -> result datetime.
Variable clock : nat -> datetime.

(** [format_timestamp(unix_ts)], with [now] the reading of the clock. *)
Definition format_timestamp (now : datetime) (unix_ts : value) : string :=
  match fromtimestamp unix_ts with
  | Ok dt =>
      let diff := datetime_sub now dt in
      if 0 <? td_days diff then str_int (td_days diff) +:+ "d ago"
      else if 3600 <? td_seconds diff
           then str_int (td_seconds diff / 3600) +:+ "h ago"
      else if 60 <? td_seconds diff
           then str_int (td_seconds diff / 60) +:+ "m ago"
      else "Just now"
  | Raise _ => "Unknown"
  end.

(** The loop of [get_news] over the scanned articles. *)
Fixpoint articles_loop (category : string) (limit : Z) (credible_only : bool)
    (data : list (gmap string value)) (articles : list article)
  : result (list article) :=
  match data with
  | [] => Ok articles
  | a :: rest =>
      match get a "source" (VStr "Unknown") with
      | VStr source =>
          let credibility := get_source_credibility source in
          if credible_only && String.eqb credibility "unknown"
          then articles_loop category limit credible_only rest articles
          else
            match summary_of a with
            | Ok summary =>
                let articles :=
                  articles ++
                  [ {| article_id := get a "id" VNone;
                       article_title := get a "headline" (VStr "No title");
                       article_summary := summary;
                       article_source := source;
                       article_credibility := credibility;
                       article_url := get a "url" (VStr "");
                       article_image := get a "image" (VStr "");
                       article_published :=
                         format_timestamp (clock (length articles))
                                          (get a "datetime" (VNum 0));
                       article_timestamp := get a "datetime" (VNum 0);
                       article_category := category;
                       article_related := get a "related" (VStr "") |} ] in
                if limit <=? Z.of_nat (length articles) then Ok articles
                else articles_loop category limit credible_only rest articles
            | Raise e => Raise e
            end
      | _ => Raise AttributeError
      end
  end.

(** [get_news()], from the configured key, the query arguments and what
    [requests.get(...).json()] gives or raises. *)
Definition get_news (FINNHUB_KEY : string) (args : gmap string string)
    (reply : result (list (gmap string value))) : news_response :=
  let category := default "general" (args !! "category") in
  let limit := Z.min (arg_int args "limit" 10) 50 in
  let credible_only :=
    String.eqb (lower (default "false" (args !! "credible_only"))) "true" in
  if String.eqb FINNHUB_KEY "" then
    MockNews (get_mock_news category limit)
  else
    match data ← reply;
          articles_loop category limit credible_only
                        (slice_to (limit * 2) data) [] with
    | Ok articles => LiveNews category (length articles) articles
    | Raise e => NewsError e
    end.



End Clock.

(** A host whose local time is UTC: whole seconds are exact, fractions are
    rounded to the microsecond, anything but a number is refused. *)
Definition utc_fromtimestamp (v : value) : result datetime :=
  match num_of v with
  | Some q => Ok (round_half_even (q * 1000000))
  | None => Raise TypeError
  end.

(** ** Vocabulary for statements about the feed *)

(** The article can be rendered: its source is text and its summary is
    text or counts as false. *)
Definition article_ok (a : gmap string value) : bool :=
  match get a "source" (VStr "Unknown") with
  | VStr _ => true
  | _ => false
  end &&
  match get a "summary" VNone with
  | VStr _ => true
  | v => negb (truthy v)
  end.

(** The article passes the credibility filter. *)
Definition kept (credible_only : bool) (a : gmap string value) : bool :=
  match get a "source" (VStr "Unknown") with
  | VStr source =>
      negb (credible_only &&
            String.eqb (get_source_credibility source) "unknown")
  | _ => false
  end.

(** Answer article [x] renders feed article [a]. *)
Definition renders (a : gmap string value) (x : article) : Prop :=
  VStr (article_source x) = get a "source" (VStr "Unknown") /\
  article_id x = get a "id" VNone /\
  article_title x = get a "headline" (VStr "No title") /\
  article_timestamp x = get a "datetime" (VNum 0) /\
  article_url x = get a "url" (VStr "") /\
  article_image x = get a "image" (VStr "") /\
  article_related x = get a "related" (VStr "").

(** The limit [get_news] works with. *)
Definition limit_of (args : gmap string string) : Z :=
  Z.min (arg_int args "limit" 10) 50.

Definition credible_only_of (args : gmap string string) : bool :=
  String.eqb (lower (default "false" (args !! "credible_only"))) "true".



(** What every article of an answer of [get_news] satisfies. *)
Definition well_tagged (category : string) (credible_only : bool)
    (x : article) : Prop :=
  article_category x = category /\
  article_credibility x = get_source_credibility (article_source x) /\
  (credible_only = true -> article_credibility x <> "unknown") /\
  (article_summary x = "" \/
   exists s, s <> "" /\ article_summary x = str_take 200 s +:+ "...") /\
  (String.length (article_summary x) <= 203)%nat.

(** A feed in which only the third of five articles has a known source. *)
Definition sample_feed : list (gmap string value) :=
  [ {[ "id" := VNum 1; "source" := VStr "Some Blog";
       "headline" := VStr "A"; "summary" := VStr "aaa";
       "datetime" := VNum 1700000000 ]};
    {[ "id" := VNum 2; "source" := VStr "Another Blog";
       "headline" := VStr "B"; "datetime" := VNum 1700000100 ]};
    {[ "id" := VNum 3; "source" := VStr "Reuters";
       "headline" := VStr "C"; "summary" := VStr "ccc";
       "datetime" := VNum 1700000200 ]};
    {[ "id" := VNum 4; "source" := VStr "Blog Four";
       "headline" := VStr "D"; "summary" := VStr "";
       "datetime" := VNum 1700000300 ]};
    {[ "id" := VNum 5; "source" := VStr "Bloomberg";
       "headline" := VStr "E"; "summary" := VNone;
       "datetime" := VNum 1700000400 ]} ].

End NewsFeed.

(* ===================================================================== *)
(** * routes/banking.py: transaction classifier and spending analyzer *)
(* ===================================================================== *)

Module Banking.

Definition ESSENTIAL_CATEGORIES : list string :=
  ["groceries"; "supermarket"; "grocery";
   "rent"; "mortgage"; "housing";
   "utilities"; "electric"; "gas"; "water"; "internet";
   "insurance"; "health insurance"; "car insurance";
   "healthcare"; "medical"; "pharmacy"; "doctor";
   "transportation"; "fuel"; "gas station"; "public transit";
   "childcare"; "education"].

(** Defined by the module, read by none of its functions. *)
Definition NON_ESSENTIAL_CATEGORIES : list string :=
  ["dining"; "restaurant"; "fast food"; "coffee";
   "entertainment"; "movies"; "streaming"; "gaming";
   "shopping"; "clothing"; "electronics"; "amazon";
   "subscriptions"; "netflix"; "spotify";
   "travel"; "vacation"; "hotel"; "airline";
   "personal care"; "salon"; "spa"].

(** The [for keyword in ESSENTIAL_CATEGORIES] loop with its [break]. *)
Fixpoint essential_loop (keywords : list string) (name category : string) : bool :=
  match keywords with
  | [] => false
  | keyword :: rest =>
      if contains keyword name || contains keyword category then true
      else essential_loop rest name category
  end.

Definition categorize_transaction (transaction : gmap string value)
  : result (gmap string value) :=
  name ← str_lower (get transaction "name" (VStr ""));
  category ← str_lower (get transaction "category" (VStr ""));
  let is_essential := essential_loop ESSENTIAL_CATEGORIES name category in
  let category_type := if is_essential then "essential" else "non-essential" in
  mret (<["category_type" := VStr category_type]>
          (<["is_essential" := VBool is_essential]> transaction)).

(** The local variables of [analyze_spending]. *)
Record accumulator : Type := {
  acc_total : Q;
  acc_essential : Q;
  acc_non_essential : Q;
  acc_breakdown : dict Q
}.

Definition acc_init : accumulator :=
  {| acc_total := 0; acc_essential := 0; acc_non_essential := 0;
     acc_breakdown := [] |}.

(** One iteration of [for tx in transactions]. *)
Definition analyze_step (acc : accumulator) (tx : gmap string value)
  : result accumulator :=
  amount ← py_abs (get tx "amount" (VNum 0));
  let essential := truthy (get tx "is_essential" (VBool false)) in
  let cat := get tx "category" (VStr "Other") in
  let breakdown :=
    if dict_mem cat (acc_breakdown acc) then acc_breakdown acc
    else dict_set cat 0%Q (acc_breakdown acc) in
  v ← dict_item cat breakdown;
  mret {| acc_total := acc_total acc + amount;
          acc_essential :=
            if essential then acc_essential acc + amount else acc_essential acc;
          acc_non_essential :=
            if essential then acc_non_essential acc
            else acc_non_essential acc + amount;
          acc_breakdown := dict_set cat (v + amount)%Q breakdown |}.

Fixpoint analyze_loop (transactions : list (gmap string value))
    (acc : accumulator) : result accumulator :=
  match transactions with
  | [] => Ok acc
  | tx :: rest => acc' ← analyze_step acc tx; analyze_loop rest acc'
  end.

(** The dictionary [analyze_spending] returns. *)
Record analysis : Type := {
  total_spent : Q;
  essential_spent : Q;
  non_essential_spent : Q;
  essential_percent : Q;
  non_essential_percent : Q;
  category_breakdown : dict Q
}.

(** [(part / total_spent * 100) if total_spent > 0 else 0] *)
Definition percent_of (part total : Q) : result Q :=
  if gtb total 0 then x ← py_div part total; mret (x * 100)%Q else mret 0%Q.

Definition analyze_spending (transactions : list (gmap string value))
  : result analysis :=
  acc ← analyze_loop transactions acc_init;
  ep ← percent_of (acc_essential acc) (acc_total acc);
  np ← percent_of (acc_non_essential acc) (acc_total acc);
  cb ← dict_comp (fun v => mret (round v 2))
         (sorted_by_value_desc (acc_breakdown acc));
  mret {| total_spent := round (acc_total acc) 2;
          essential_spent := round (acc_essential acc) 2;
          non_essential_spent := round (acc_non_essential acc) 2;
          essential_percent := round ep 1;
          non_essential_percent := round np 1;
          category_breakdown := cb |}.

(** [[categorize_transaction(tx) for tx in transactions]] *)
Fixpoint categorize_all (transactions : list (gmap string value))
  : result (list (gmap string value)) :=
  match transactions with
  | [] => Ok []
  | tx :: rest =>
      c ← categorize_transaction tx; cs ← categorize_all rest; mret (c :: cs)
  end.

(** The two steps of [get_spending]: categorize each transaction, then
    analyze the categorized list. *)
Definition categorize_then_analyze (transactions : list (gmap string value))
  : result analysis :=
  categorized ← categorize_all transactions; analyze_spending categorized.

(** ** Vocabulary of the statements *)

(** A transaction record [{'name': .., 'category': .., 'amount': ..}]. *)
Definition transaction (name category : string) (amount : Q)
  : gmap string value :=
  <["name" := VStr name]> (<["category" := VStr category]>
  (<["amount" := VNum amount]> ∅)).

Definition scenario_transactions : list (gmap string value) :=
  [transaction "Whole Foods Market" "Groceries" 156.32;
   transaction "Netflix" "Subscriptions" 15.99;
   transaction "Rent Payment" "Housing" 1500.00].


(** A total below half a cent. *)
Definition sub_cent_transactions : list (gmap string value) :=
  [transaction "Rounding adjustment" "Fees" 0.004].

(** Books and Music end with equal sums; Books is met first. *)
Definition tied_transactions : list (gmap string value) :=
  [transaction "Paperback" "Books" 10; transaction "Concert" "Music" 15;
   transaction "Rent Payment" "Rent" 20; transaction "Magazine" "Books" 5].

(** The record the classifier builds around flag [b]. *)
Definition tagged (b : bool) (tx : gmap string value) : gmap string value :=
  <["category_type" := VStr (if b then "essential" else "non-essential")]>
    (<["is_essential" := VBool b]> tx).

(** The magnitude a transaction contributes: [abs(tx.get('amount', 0))]. *)
Definition magnitude (tx : gmap string value) : Q :=
  match num_of (get tx "amount" (VNum 0)) with
  | Some q => Qabs q
  | None => 0
  end.

(** The raw category a transaction is filed under. *)
Definition category_of (tx : gmap string value) : value :=
  get tx "category" (VStr "Other").

(** A transaction whose amount, when present, is a number. *)
Definition amount_ok (tx : gmap string value) : Prop :=
  is_Some (num_of (get tx "amount" (VNum 0))).

(** A transaction whose name and category, when present, are text. *)
Definition text_ok (tx : gmap string value) : Prop :=
  (exists s, get tx "name" (VStr "") = VStr s) /\
  (exists s, get tx "category" (VStr "") = VStr s).

(** A transaction as a keyed amount. *)
Definition entry (tx : gmap string value) : value * Q :=
  (category_of tx, magnitude tx).

(** Sum of the magnitudes of the transactions filed under [c]. *)
Definition category_sum (c : value) (txs : list (gmap string value)) : Q :=
  key_sum c (entry <$> txs).

(** Some essential keyword occurs in the lowered name or in the lowered
    category. *)
Definition mentions_essential (name category : string) : Prop :=
  exists keyword,
    In keyword ESSENTIAL_CATEGORIES /\
    (substring_of keyword (lower name) \/ substring_of keyword (lower category)).

(** The flag the classifier computes for a record whose name and category
    are text. *)
Definition essential_flag (tx : gmap string value) : bool :=
  match get tx "name" (VStr ""), get tx "category" (VStr "") with
  | VStr n, VStr c => essential_loop ESSENTIAL_CATEGORIES (lower n) (lower c)
  | _, _ => false
  end.

(** The same transaction with the sign of its amount reversed. *)
Definition flip_sign (tx : gmap string value) : gmap string value :=
  match tx !! "amount" with
  | Some (VNum q) => <["amount" := VNum (- q)]> tx
  | _ => tx
  end.

(** [a] ranks before [b] in the breakdown: a larger sum, or an equal sum
    and an earlier first encounter. *)
Definition ranks_before (txs : list (gmap string value)) (a b : value) : Prop :=
  (category_sum b txs < category_sum a txs)%Q \/
  ((category_sum a txs == category_sum b txs)%Q /\
   met_before (category_of <$> txs) a b).

End Banking.

(* ===================================================================== *)
(** * routes/banking.py: the spending analyzer on Python's numbers *)
(* ===================================================================== *)

(** [analyze_spending] once more, this time with the arithmetic CPython
    performs: amounts are integers or binary64 floats, sums are taken left
    to right and rounded at every step, a quotient is rounded before it is
    multiplied by 100.  Statements that depend on how sums and quotients
    round are made here; [Banking] is the same code over exact rationals. *)
Module Spending.

Import Binary64 Numbers.

(** JSON scalars, with Python's two kinds of number. *)
Inductive scalar : Type :=
| SNone
| SBool (b : bool)
| SNum (n : number)
| SText (s : string).

(** The number a scalar is in arithmetic ([bool] is a subtype of [int]). *)
Definition number_of (v : scalar) : option number :=
  match v with
  | SNum n => Some n
  | SBool b => Some (Int (if b then 1 else 0))
  | _ => None
  end.

(** Truth value of an object used as a condition. *)
Definition truthy (v : scalar) : bool :=
  match v with
  | SNone => false
  | SBool b => b
  | SNum n => nonzero n
  | SText s => negb (String.eqb s "")
  end.

(** Equality of dictionary keys: [a == b], and a NaN is found again as the
    one object the JSON decoder hands out for it. *)
Definition key_eqb (a b : scalar) : bool :=
  match a, b with
  | SNone, SNone => true
  | SText s, SText t => String.eqb s t
  | SNum (Float NaN), SNum (Float NaN) => true
  | SText _, _ | _, SText _ | SNone, _ | _, SNone => false
  | _, _ =>
      match number_of a, number_of b with
      | Some x, Some y => Numbers.eqb x y
      | _, _ => false
      end
  end.

(** [abs(v)] *)
Definition py_abs (v : scalar) : result number :=
  match number_of v with
  | Some n => Ok (Numbers.abs n)
  | None => Raise TypeError
  end.

(** [rec.get(k, dflt)] on a JSON object *)
Definition get (rec : gmap string scalar) (k : string) (dflt : scalar)
  : scalar :=
  default dflt (rec !! k).

(** ** The insertion-ordered dictionary of category sums *)

Definition dict : Type := list (scalar * number).

Fixpoint dict_get (k : scalar) (d : dict) : option number :=
  match d with
  | [] => None
  | (k', a) :: rest => if key_eqb k' k then Some a else dict_get k rest
  end.

(** [d[k] = a]: an existing key keeps its position (and its stored key),
    a new key goes last. *)
Fixpoint dict_set (k : scalar) (a : number) (d : dict) : dict :=
  match d with
  | [] => [(k, a)]
  | (k', a') :: rest =>
      if key_eqb k' k then (k', a) :: rest else (k', a') :: dict_set k a rest
  end.

(** [if k not in d: d[k] = 0] followed by [d[k] += a]. *)
Definition dict_add (k : scalar) (a : number) (d : dict) : result dict :=
  let d' := match dict_get k d with
            | Some _ => d
            | None => dict_set k (Int 0) d
            end in
  s ← add (default (Int 0) (dict_get k d')) a;
  mret (dict_set k s d').

(** [sorted(items, key=lambda x: x[1], reverse=True)]: a stable sort, so
    items whose values do not compare as different keep their order. *)
Fixpoint insert_desc (x : scalar * number) (l : dict) : dict :=
  match l with
  | [] => [x]
  | y :: rest =>
      if gt y.2 x.2 then y :: insert_desc x rest else x :: y :: rest
  end.

Definition sorted_by_value_desc (items : dict) : dict :=
  foldr insert_desc [] items.

(** [{k: round(v, 2) for k, v in items}] *)
Definition rounded (items : dict) : dict :=
  foldl (fun d kv => dict_set kv.1 (round kv.2 2) d) [] items.

(** ** [analyze_spending] *)

Record accumulator : Type := {
  acc_total : number;
  acc_essential : number;
  acc_non_essential : number;
  acc_breakdown : dict
}.

Definition acc_init : accumulator :=
  {| acc_total := Int 0; acc_essential := Int 0;
     acc_non_essential := Int 0; acc_breakdown := [] |}.

(** The body of [for tx in transactions]. *)
Definition analyze_step (acc : accumulator) (tx : gmap string scalar)
  : result accumulator :=
  amount ← py_abs (get tx "amount" (SNum (Int 0)));
  total_spent ← add (acc_total acc) amount;
  parts ←
    (if truthy (get tx "is_essential" (SBool false))
     then e ← add (acc_essential acc) amount;
          mret (e, acc_non_essential acc)
     else n ← add (acc_non_essential acc) amount;
          mret (acc_essential acc, n));
  let cat := get tx "category" (SText "Other") in
  category_breakdown ← dict_add cat amount (acc_breakdown acc);
  mret {| acc_total := total_spent;
          acc_essential := parts.1;
          acc_non_essential := parts.2;
          acc_breakdown := category_breakdown |}.

Fixpoint analyze_loop (txs : list (gmap string scalar)) (acc : accumulator)
  : result accumulator :=
  match txs with
  | [] => Ok acc
  | tx :: rest => acc' ← analyze_step acc tx; analyze_loop rest acc'
  end.

Record analysis : Type := {
  total_spent : number;
  essential_spent : number;
  non_essential_spent : number;
  essential_percent : number;
  non_essential_percent : number;
  category_breakdown : dict
}.

(** [round((part / total * 100) if total > 0 else 0, 1)] *)
Definition percent_of (part total : number) : result number :=
  x ← (if gt total (Int 0)
       then q ← truediv part total; mul q (Int 100)
       else Ok (Int 0));
  mret (round x 1).

Definition analyze_spending (txs : list (gmap string scalar))
  : result analysis :=
  acc ← analyze_loop txs acc_init;
  essential_percent ← percent_of (acc_essential acc) (acc_total acc);
  non_essential_percent ← percent_of (acc_non_essential acc) (acc_total acc);
  mret {| total_spent := round (acc_total acc) 2;
          essential_spent := round (acc_essential acc) 2;
          non_essential_spent := round (acc_non_essential acc) 2;
          essential_percent := essential_percent;
          non_essential_percent := non_essential_percent;
          category_breakdown :=
            rounded (sorted_by_value_desc (acc_breakdown acc)) |}.

(** ** Vocabulary of the statements *)

(** A transaction with a name, a category and an amount written as a
    decimal literal. *)
Definition transaction (name category : string) (amount : Q)
  : gmap string scalar :=
  {[ "name" := SText name; "category" := SText category;
     "amount" := SNum (literal amount) ]}.

(** The same, marked essential or not. *)
Definition tagged_transaction (essential : bool) (category : string)
    (amount : Q) : gmap string scalar :=
  <["is_essential" := SBool essential]> (transaction "" category amount).

(** The category a transaction is filed under. *)
Definition category_of (tx : gmap string scalar) : scalar :=
  get tx "category" (SText "Other").

(** The magnitude of a transaction, for an amount that is a number. *)
Definition magnitude (tx : gmap string scalar) : number :=
  match number_of (get tx "amount" (SNum (Int 0))) with
  | Some n => Numbers.abs n
  | None => Int 0
  end.

(** The transaction counts as essential. *)
Definition essential (tx : gmap string scalar) : bool :=
  truthy (get tx "is_essential" (SBool false)).

(** The sum of numbers taken left to right from [s], as [+=] computes it. *)
Fixpoint sum_from (s : number) (l : list number) : result number :=
  match l with
  | [] => Ok s
  | a :: rest => s' ← add s a; sum_from s' rest
  end.

(** The magnitudes filed under category [k], in encounter order. *)
Definition filed_under (k : scalar) (txs : list (gmap string scalar))
  : list number :=
  magnitude <$> filter (fun tx => key_eqb (category_of tx) k = true) txs.

(** The sum the analyzer computes for category [k]. *)
Definition category_sum (k : scalar) (txs : list (gmap string scalar))
  : result number :=
  sum_from (Int 0) (filed_under k txs).

(** The amount is a number and not a NaN. *)
Definition amount_ok (tx : gmap string scalar) : Prop :=
  exists n, number_of (get tx "amount" (SNum (Int 0))) = Some n /\
            n <> Float NaN.

(** The category is a text, or absent. *)
Definition category_text (tx : gmap string scalar) : Prop :=
  exists s, category_of tx = SText s.

(** The sum of the magnitudes of the integer amounts. *)
Definition int_volume (txs : list (gmap string scalar)) : Z :=
  foldr (fun tx v =>
           match magnitude tx with
           | Int z => z + v
           | Float _ => v
           end) 0 txs.

(** The exact magnitude of a transaction with a finite amount. *)
Definition exact_magnitude (tx : gmap string scalar) : Q :=
  default 0%Q (value_of (magnitude tx)).

(** The exact sum of the magnitudes. *)
Definition volume (txs : list (gmap string scalar)) : Q :=
  Qsum (exact_magnitude <$> txs).

(** The amount is a finite number that is zero or at least [2 ^ -900] in
    magnitude. *)
Definition moderate (tx : gmap string scalar) : Prop :=
  exists n q,
    number_of (get tx "amount" (SNum (Int 0))) = Some n /\
    value_of n = Some q /\
    (q == 0 \/ pow2 (-900) <= Qabs q)%Q.

(** Number [x] is the decimal [z / 10 ^ places]: exactly when it is an
    integer, as the float nearest to the decimal when it is a float. *)
Definition reads (x : number) (places : nat) (z : Z) : Prop :=
  match x with
  | Int i => z = i * 10 ^ Z.of_nat places
  | Float f => f = round_nearest (inject_Z z / pow10 places)
  end.

(** Category [a] was first met before category [b]. *)
Definition met_before (txs : list (gmap string scalar)) (a b : scalar)
  : Prop :=
  exists i j,
    (fst <$> list_find (fun tx => key_eqb (category_of tx) a = true) txs)
      = Some i /\
    (fst <$> list_find (fun tx => key_eqb (category_of tx) b = true) txs)
      = Some j /\
    (i < j)%nat.

(** Category [a] may stand before category [b]: its sum is greater, or
    neither sum is greater and [a] was met first. *)
Definition ranks_before (txs : list (gmap string scalar)) (a b : scalar)
  : Prop :=
  exists x y,
    category_sum a txs = Ok x /\ category_sum b txs = Ok y /\
    (gt x y = true \/ (gt y x = false /\ met_before txs a b)).

End Spending.

(* ===================================================================== *)
(** * trading.py: portfolio totals and allocation *)
(* ===================================================================== *)

Module Trading.

Definition holding (symbol name : string) (quantity avg_cost current_price
    market_value gain_loss gain_loss_percent : Q) (type : string)
  : gmap string value :=
  <["symbol" := VStr symbol]> (<["name" := VStr name]>
  (<["quantity" := VNum quantity]> (<["avg_cost" := VNum avg_cost]>
  (<["current_price" := VNum current_price]>
  (<["market_value" := VNum market_value]> (<["gain_loss" := VNum gain_loss]>
  (<["gain_loss_percent" := VNum gain_loss_percent]>
  (<["type" := VStr type]> ∅)))))))).

(** The mock [holdings] list of [get_portfolio]. *)
Definition mock_holdings : list (gmap string value) :=
  [holding "AAPL" "Apple Inc." 15 178.50 185.92 2788.80 111.30 4.16 "stock";
   holding "MSFT" "Microsoft Corporation" 10 380.00 415.50 4155.00 355.00 9.34
     "stock";
   holding "GOOGL" "Alphabet Inc." 8 140.25 152.30 1218.40 96.40 8.59 "stock";
   holding "SPY" "SPDR S&P 500 ETF" 20 450.00 478.25 9565.00 565.00 6.28 "etf";
   holding "QQQ" "Invesco QQQ Trust" 12 390.00 425.80 5109.60 429.60 9.18 "etf";
   holding "VTI" "Vanguard Total Stock Market ETF" 25 220.00 245.30 6132.50
     632.50 11.50 "etf"].

(** [sum(f(h) for h in holdings)], accumulating from the left. *)
Fixpoint py_sum {A : Type} (f : A -> result Q) (l : list A) (acc : Q) : result Q :=
  match l with
  | [] => Ok acc
  | h :: rest => x ← f h; py_sum f rest (acc + x)%Q
  end.

(** [h['market_value']] as a summand *)
Definition market_value_of (h : gmap string value) : result Q :=
  v ← item h "market_value"; as_num v.

(** [h['quantity'] * h['avg_cost']] as a summand; an operand that is not a
    number ends in [TypeError], in the product or in the sum. *)
Definition cost_of (h : gmap string value) : result Q :=
  q ← item h "quantity"; c ← item h "avg_cost";
  a ← as_num q; b ← as_num c; mret (a * b)%Q.

(** One iteration of the asset-allocation loop. *)
Definition allocation_step (allocation : dict Q) (h : gmap string value)
  : result (dict Q) :=
  asset_type ← item h "type";
  let allocation :=
    if dict_mem asset_type allocation then allocation
    else dict_set asset_type 0%Q allocation in
  v ← dict_item asset_type allocation;
  m ← market_value_of h;
  mret (dict_set asset_type (v + m)%Q allocation).

Fixpoint allocation_loop (holdings : list (gmap string value))
    (allocation : dict Q) : result (dict Q) :=
  match holdings with
  | [] => Ok allocation
  | h :: rest => a ← allocation_step allocation h; allocation_loop rest a
  end.

(** [{k: round(v / total_value * 100, 1) for k, v in allocation.items()}] *)
Definition allocation_percent_of (allocation : dict Q) (total_value : Q)
  : result (dict Q) :=
  dict_comp (fun v => x ← py_div v total_value; mret (round (x * 100) 1))
            allocation.

Record portfolio : Type := {
  total_value : Q;
  total_cost : Q;
  total_gain_loss : Q;
  total_gain_loss_percent : Q;
  day_change : Q;
  day_change_percent : Q;
  cash_balance : Q
}.

Record summary : Type := {
  summary_portfolio : portfolio;
  summary_holdings : list (gmap string value);
  summary_allocation : dict Q
}.

(** The allocation part of [get_portfolio]: totals, grouping, percentages. *)
Definition allocation_percent (holdings : list (gmap string value))
  : result (dict Q) :=
  total_value ← py_sum market_value_of holdings 0;
  _ ← py_sum cost_of holdings 0;
  allocation ← allocation_loop holdings [];
  allocation_percent_of allocation total_value.

(** The body of [get_portfolio] after the token check, with the holdings
    list as a parameter. *)
Definition summarize (holdings : list (gmap string value)) : result summary :=
  total_value ← py_sum market_value_of holdings 0;
  total_cost ← py_sum cost_of holdings 0;
  let total_gain := (total_value - total_cost)%Q in
  allocation ← allocation_loop holdings [];
  allocation_percent ← allocation_percent_of allocation total_value;
  let day_change := 234.50%Q in
  let day_change_percent := 0.52%Q in
  ratio ← py_div total_gain total_cost;
  mret {| summary_portfolio :=
            {| total_value := round total_value 2;
               total_cost := round total_cost 2;
               total_gain_loss := round total_gain 2;
               total_gain_loss_percent := round (ratio * 100) 2;
               day_change := day_change;
               day_change_percent := day_change_percent;
               cash_balance := 1250.00 |};
          summary_holdings := holdings;
          summary_allocation := allocation_percent |}.

Inductive response : Type :=
| BadRequest (error : string)
| Success (body : summary).

(** An exception escaping the view is a [Raise]. *)
Definition get_portfolio (access_token : string) : result response :=
  if String.eqb access_token "" then Ok (BadRequest "access_token is required")
  else body ← summarize mock_holdings; mret (Success body).

(** ** Vocabulary of the statements *)

(** A holding carrying the four fields the view reads, numeric where the
    view computes with them. *)
Definition holding_ok (h : gmap string value) : Prop :=
  (exists v, h !! "market_value" = Some v /\ is_Some (num_of v)) /\
  (exists v, h !! "quantity" = Some v /\ is_Some (num_of v)) /\
  (exists v, h !! "avg_cost" = Some v /\ is_Some (num_of v)) /\
  is_Some (h !! "type").

Definition field_num (h : gmap string value) (k : string) : Q :=
  default 0%Q (h !! k ≫= num_of).

(** The asset type a holding is grouped under. *)
Definition type_of (h : gmap string value) : value :=
  default VNone (h !! "type").

(** A holding as a keyed amount: its type and its market value. *)
Definition slot (h : gmap string value) : value * Q :=
  (type_of h, field_num h "market_value").

(** A position that has been sold out: no shares left, no value, no cost. *)
Definition sold_out : gmap string value :=
  holding "TSLA" "Tesla Inc." 0 250.00 260.00 0 0 0 "stock".

(** Two holdings that agree on the four fields the view reads. *)
Definition same_core (h h' : gmap string value) : Prop :=
  h !! "market_value" = h' !! "market_value" /\
  h !! "quantity" = h' !! "quantity" /\
  h !! "avg_cost" = h' !! "avg_cost" /\
  h !! "type" = h' !! "type".

(** The computed part of an answer: the portfolio figures and the
    allocation, or the exception. *)
Definition figures (x : result summary) : result (portfolio * dict Q) :=
  match x with
  | Ok r => Ok (summary_portfolio r, summary_allocation r)
  | Raise e => Raise e
  end.

(** Sum of the holdings' market values. *)
Definition value_total (holdings : list (gmap string value)) : Q :=
  Qsum ((fun h => field_num h "market_value") <$> holdings).

(** Sum of quantity times average cost. *)
Definition cost_total (holdings : list (gmap string value)) : Q :=
  Qsum
    ((fun h => field_num h "quantity" * field_num h "avg_cost")%Q <$> holdings).

End Trading.

(* ===================================================================== *)
(** * routes/blockchain.py: wallet asset compiler *)
(* ===================================================================== *)

Module Blockchain.

(** ** The explorer API as seen by the code *)

(** The ['result'] member of an explorer reply: a scalar (a balance, an
    error text) or a list of transfer events. *)
Inductive api_result : Type :=
| ResultScalar (v : value)
| ResultList (events : list (gmap string value)).

(** The decoded reply, with the two members the code reads. *)
Record api_doc : Type := {
  doc_status : option value;
  doc_result : option api_result
}.

(** Outcome of [requests.get(...)] followed by [response.json()]. *)
Inductive http_reply : Type :=
| RequestFailed
| Json (data : api_doc).

(** Programs that talk to the network and print. *)
Inductive prog (A : Type) : Type :=
| Ret (a : A)
| HttpGet (url : string) (params : list (string * string))
          (k : http_reply -> prog A)
| Print (msg : string) (e : exn) (k : prog A).
Arguments Ret {A} a.
Arguments HttpGet {A} url params k.
Arguments Print {A} msg e k.

Fixpoint prog_bind {A B : Type} (m : prog A) (f : A -> prog B) : prog B :=
  match m with
  | Ret a => f a
  | HttpGet url params k => HttpGet url params (fun r => prog_bind (k r) f)
  | Print msg e k => Print msg e (prog_bind k f)
  end.

#[export] Instance prog_ret : MRet prog := fun A a => Ret a.
#[export] Instance prog_mbind : MBind prog := fun A B f m => prog_bind m f.

(** What a run leaves behind. *)
Inductive event : Type :=
| Requested (url : string) (params : list (string * string))
| Printed (msg : string) (e : exn).

(** Running a program against a network. *)
Fixpoint run {A : Type} (net : string -> list (string * string) -> http_reply)
    (p : prog A) : A * list event :=
  match p with
  | Ret a => (a, [])
  | HttpGet url params k =>
      let '(a, t) := run net (k (net url params)) in
      (a, Requested url params :: t)
  | Print msg e k =>
      let '(a, t) := run net k in (a, Printed msg e :: t)
  end.

(** ** Native balances *)

Record native_balance : Type := {
  chain : string;
  symbol : string;
  balance : Q;
  balance_raw : Z
}.

(** [data.get('status') == '1'] *)
Definition status_ok (data : api_doc) : bool :=
  py_eqb (default VNone (doc_status data)) (VStr "1").

(** [int(data['result'])] *)
Definition result_int (data : api_doc) : result Z :=
  match doc_result data with
  | None => Raise KeyError
  | Some (ResultScalar v) => py_int v
  | Some (ResultList _) => Raise TypeError
  end.

(** The [try] body of a balance lookup once the reply is decoded. *)
Definition balance_of (chain symbol : string) (data : api_doc)
  : result (option native_balance) :=
  if status_ok data then
    balance_wei ← result_int data;
    let balance_coin := (inject_Z balance_wei / inject_Z (10 ^ 18))%Q in
    mret (Some {| chain := chain; symbol := symbol;
                  balance := balance_coin; balance_raw := balance_wei |})
  else mret None.

Section Keys.

Variables ETHERSCAN_KEY POLYGONSCAN_KEY : string.

Definition balance_params (address apikey : string) : list (string * string) :=
  [("module", "account"); ("action", "balance"); ("address", address);
   ("tag", "latest"); ("apikey", apikey)].

Definition get_eth_balance (address : string) : prog (option native_balance) :=
  HttpGet "https://api.etherscan.io/api" (balance_params address ETHERSCAN_KEY)
    (fun reply =>
       match reply with
       | RequestFailed => Print "Etherscan error" RequestError (Ret None)
       | Json data =>
           match balance_of "Ethereum" "ETH" data with
           | Ok b => Ret b
           | Raise e => Print "Etherscan error" e (Ret None)
           end
       end).

Definition get_polygon_balance (address : string) : prog (option native_balance) :=
  HttpGet "https://api.polygonscan.com/api"
    (balance_params address POLYGONSCAN_KEY)
    (fun reply =>
       match reply with
       | RequestFailed => Print "Polygonscan error" RequestError (Ret None)
       | Json data =>
           match balance_of "Polygon" "MATIC" data with
           | Ok b => Ret b
           | Raise e => Print "Polygonscan error" e (Ret None)
           end
       end).

(** ** Tokens *)

Record token : Type := {
  token_symbol : value;
  token_name : value;
  token_contract : value;
  token_decimals : Z
}.

(** The entry built for an event whose symbol is new. *)
Definition token_of (tx : gmap string value) : result token :=
  let token_symbol := get tx "tokenSymbol" (VStr "UNKNOWN") in
  let token_name := get tx "tokenName" (VStr "Unknown Token") in
  decimals ← py_int (get tx "tokenDecimal" (VNum 18));
  mret {| token_symbol := token_symbol;
          token_name := token_name;
          token_contract := get tx "contractAddress" (VStr "");
          token_decimals := decimals |}.

(** One iteration of [for tx in data['result'][:50]]. *)
Definition token_step (tokens : dict token) (tx : gmap string value)
  : result (dict token) :=
  let token_symbol := get tx "tokenSymbol" (VStr "UNKNOWN") in
  if dict_mem token_symbol tokens then Ok tokens
  else t ← token_of tx; mret (dict_set token_symbol t tokens).

Fixpoint token_loop (events : list (gmap string value)) (tokens : dict token)
  : result (dict token) :=
  match events with
  | [] => Ok tokens
  | tx :: rest => tokens' ← token_step tokens tx; token_loop rest tokens'
  end.

(** Truth value of [data.get('result')]. *)
Definition result_truthy (data : api_doc) : bool :=
  match doc_result data with
  | None => false
  | Some (ResultScalar v) => truthy v
  | Some (ResultList l) => negb (bool_decide (l = []))
  end.

(** [data['result'][:50]] as the sequence the loop iterates over; a text
    slices into characters, which have no [get]. *)
Definition recent_events (data : api_doc) : result (list (gmap string value)) :=
  match doc_result data with
  | None => Raise KeyError
  | Some (ResultList l) => Ok (take 50 l)
  | Some (ResultScalar (VStr _)) => Raise AttributeError
  | Some (ResultScalar _) => Raise TypeError
  end.

(** The [try] body of [get_eth_tokens] once the reply is decoded. *)
Definition compile_tokens (data : api_doc) : result (list token) :=
  tokens ←
    (if status_ok data && result_truthy data then
       events ← recent_events data; token_loop events []
     else mret []);
  mret (tokens.*2).

Definition tokens_params (address : string) : list (string * string) :=
  [("module", "account"); ("action", "tokentx"); ("address", address);
   ("startblock", "0"); ("endblock", "99999999"); ("sort", "desc");
   ("apikey", ETHERSCAN_KEY)].

Definition get_eth_tokens (address : string) : prog (list token) :=
  HttpGet "https://api.etherscan.io/api" (tokens_params address)
    (fun reply =>
       match reply with
       | RequestFailed => Print "Token fetch error" RequestError (Ret [])
       | Json data =>
           match compile_tokens data with
           | Ok l => Ret l
           | Raise e => Print "Token fetch error" e (Ret [])
           end
       end).

(** ** DeFi positions and the wallet view *)

Definition get_defi_positions (address : string) : prog (list (gmap string value)) :=
  let positions := [] in
  Ret positions.

Inductive wallet_response : Type :=
| Failure (status : nat) (error : string)
| Assets (wallet : string) (native_balances : list native_balance)
         (tokens : list token) (defi_positions : list (gmap string value)).

(** The collaborators catch what they raise, so the view's own [try] has
    nothing left to catch. *)
Definition get_wallet_assets (address : string) : prog wallet_response :=
  if (len address =? 0)%nat || negb (len address =? 42)%nat
     || negb (startswith address "0x")
  then Ret (Failure 400
              "Invalid wallet address. Must be 42 characters starting with 0x")
  else
    eth_balance ← get_eth_balance address;
    polygon_balance ← get_polygon_balance address;
    tokens ← get_eth_tokens address;
    defi ← get_defi_positions address;
    let native_balances :=
      option_list eth_balance ++ option_list polygon_balance in
    Ret (Assets address native_balances tokens defi).

End Keys.

(** ** Vocabulary of the statements *)

(** The symbol an event is filed under. *)
Definition symbol_of (tx : gmap string value) : value :=
  get tx "tokenSymbol" (VStr "UNKNOWN").

(** Event number [i] is the first of the scanned events to bear its symbol. *)
Definition introduces (events : list (gmap string value)) (i : nat)
    (tx : gmap string value) : Prop :=
  events !! i = Some tx /\
  forall j tx', (j < i)%nat -> events !! j = Some tx' ->
                py_eqb (symbol_of tx') (symbol_of tx) = false.

(** The events that bear a symbol not in [seen] and not borne by an earlier
    event, in scan order. *)
Fixpoint fresh_events (events : list (gmap string value)) (seen : list value)
  : list (gmap string value) :=
  match events with
  | [] => []
  | tx :: rest =>
      if key_in (symbol_of tx) seen then fresh_events rest seen
      else tx :: fresh_events rest (seen ++ [symbol_of tx])
  end.

(** Token [t] carries the metadata of event [tx]: the symbol, name and
    contract the event has, with the code's defaults for a missing member,
    and the integer [int] makes of its decimals, 18 when they are missing. *)
Definition metadata_of (tx : gmap string value) (t : token) : Prop :=
  token_symbol t = get tx "tokenSymbol" (VStr "UNKNOWN") /\
  token_name t = get tx "tokenName" (VStr "Unknown Token") /\
  token_contract t = get tx "contractAddress" (VStr "") /\
  py_int (get tx "tokenDecimal" (VNum 18)) = Ok (token_decimals t).

(** [int] accepts the decimals of event [tx]. *)
Definition decimals_convert (tx : gmap string value) : Prop :=
  exists d, py_int (get tx "tokenDecimal" (VNum 18)) = Ok d.

(** A transfer event as the explorer reports it, every member a text. *)
Definition transfer (symbol name contract decimals : string)
  : gmap string value :=
  <["tokenSymbol" := VStr symbol]> (<["tokenName" := VStr name]>
  (<["contractAddress" := VStr contract]>
  (<["tokenDecimal" := VStr decimals]> ∅))).

(** Two tokens, the first of them transferred twice under different names. *)
Definition sample_history : list (gmap string value) :=
  [transfer "USDC" "USD Coin" "0xa0b86991c6218b36c1d19d4a2e9eb0ce3606eb48" "6";
   transfer "DAI" "Dai Stablecoin" "0x6b175474e89094c44da98b954eedeac495271d0f"
     "18";
   transfer "USDC" "USDC (old)" "0x0000000000000000000000000000000000000001"
     "8"].

(** A token whose contract reports no decimals. *)
Definition blank_decimals_history : list (gmap string value) :=
  [transfer "USDC" "USD Coin" "0xa0b86991c6218b36c1d19d4a2e9eb0ce3606eb48" ""].

(** A reply carrying the given transfer history. *)
Definition history (events : list (gmap string value)) : api_doc :=
  {| doc_status := Some (VStr "1"); doc_result := Some (ResultList events) |}.

(** ** The DeFi view *)

Inductive defi_response : Type :=
| DefiFailure (status : nat) (error : string)
| DefiPositions (wallet : string) (defi_positions : list (gmap string value)).

Definition get_wallet_defi (address : string) : prog defi_response :=
  if (len address =? 0)%nat || negb (len address =? 42)%nat
  then Ret (DefiFailure 400 "Invalid wallet address")
  else
    positions ← get_defi_positions address;
    Ret (DefiPositions address positions).

(** ** Vocabulary of the statements about runs *)

(** The requests of a trace, in the order they were sent. *)
Definition requests_of (t : list event) : list (string * list (string * string)) :=
  omap (fun e => match e with
                 | Requested url params => Some (url, params)
                 | Printed _ _ => None
                 end) t.

(** The messages of a trace, in the order they were printed. *)
Definition prints_of (t : list event) : list (string * exn) :=
  omap (fun e => match e with
                 | Requested _ _ => None
                 | Printed msg e => Some (msg, e)
                 end) t.

(** An address the wallet view lets through. *)
Definition valid_address (address : string) : Prop :=
  len address = 42%nat /\ exists rest, address = "0x" +:+ rest.

(** Forty-two characters that do not start with 0x. *)
Definition unprefixed_address : string :=
  "zz52908400098527886E0F7030069857D2E4169EE7".

(** A reply of the explorer when it throttles the caller. *)
Definition rate_limited : api_doc :=
  {| doc_status := Some (VStr "0");
     doc_result := Some (ResultScalar (VStr "Max rate limit reached")) |}.

(** What a balance lookup on [chain] makes of the explorer's [reply]: a
    balance exactly for a reply of status '1' with an integer result, with
    that integer as the raw amount and a 10^18-th of it as the amount;
    nothing, silently, for another status; nothing, after one printed
    error, for a failed request or a result that is no integer. *)
Definition reads_balance (chain symbol error : string) (reply : http_reply)
    (out : option native_balance) (printed : list (string * exn)) : Prop :=
  (forall b, out = Some b <->
     exists data,
       reply = Json data /\ status_ok data = true /\
       result_int data = Ok (balance_raw b) /\
       Blockchain.chain b = chain /\ Blockchain.symbol b = symbol /\
       balance b = (inject_Z (balance_raw b) / inject_Z (10 ^ 18))%Q) /\
  (forall b, out = Some b ->
     (balance b * inject_Z (10 ^ 18) == inject_Z (balance_raw b))%Q /\
     printed = []) /\
  (out = None ->
     (printed = [] /\ exists data, reply = Json data /\ status_ok data = false) \/
     (exists e, printed = [(error, e)])).

End Blockchain.

(* ===================================================================== *)
(** * Properties *)
(* ===================================================================== *)

(** Side conditions on concrete records: every field the code reads is
    there and has the expected shape. *)
Ltac well_formed := repeat constructor; vm_compute; eauto.

(** ** Text *)

Section Text.

Lemma startswith_spec (s p : string) :
  startswith s p = true <-> exists rest, s = p +:+ rest.
Proof.
  revert s. induction p as [|a p IH]; intros s; simpl.
  - split; [intros _; by exists s | done].
  - destruct s as [|b s].
    + split; [done | intros [rest H]; discriminate H].
    + destruct (Ascii.eqb a b) eqn:E.
      * apply Ascii.eqb_eq in E as ->. rewrite IH.
        split; intros [rest H]; exists rest; [by rewrite H | by injection H].
      * apply Ascii.eqb_neq in E.
        split; [done | intros [rest H]; injection H; congruence].
Qed.

Lemma contains_spec (needle hay : string) :
  contains needle hay = true <-> substring_of needle hay.
Proof.
  split.
  - induction hay as [|c t IH]; simpl; intros H; apply orb_true_iff in H.
    + destruct H as [H|H]; [|done].
      apply startswith_spec in H as [rest ->]. by exists "", rest.
    + destruct H as [H|H].
      * apply startswith_spec in H as [rest ->]. by exists "", rest.
      * destruct (IH H) as (pre & post & ->). by exists (String c pre), post.
  - intros (pre & post & ->). induction pre as [|c pre IH]; simpl.
    + assert (startswith (needle +:+ post) needle = true) as Hs
        by (apply startswith_spec; by exists post).
      destruct (needle +:+ post); simpl; by rewrite Hs.
    + rewrite IH. apply orb_true_r.
Qed.

Lemma contains_false (needle hay : string) :
  contains needle hay = false <-> ~ substring_of needle hay.
Proof.
  rewrite <- contains_spec. destruct (contains needle hay); split; done.
Qed.

End Text.

(** ** Rounding *)

Section Rounding.
Local Open Scope Q_scope.

Lemma inject_Z_succ (z : Z) : inject_Z (z + 1) == inject_Z z + 1.
Proof. by rewrite inject_Z_plus. Qed.

Lemma Z_between (a b : Z) :
  inject_Z a < inject_Z b + 1 -> inject_Z b < inject_Z a + 1 -> a = b.
Proof.
  rewrite <- !inject_Z_succ, <- !Zlt_Qlt. lia.
Qed.

Lemma round_half_even_spec (q : Q) : nearest_even q (round_half_even q).
Proof.
  unfold nearest_even, round_half_even.
  pose proof (Qfloor_le q) as Hl. pose proof (Qlt_floor q) as Hu.
  rewrite inject_Z_succ in Hu.
  destruct (Qcompare_spec (q - inject_Z (Qfloor q)) (1 # 2)) as [E|E|E].
  - destruct (Z.even (Qfloor q)) eqn:Hev.
    + right. split; [right; lra | done].
    + right. split; [left; rewrite inject_Z_succ; lra |].
      rewrite Z.even_add, Hev. done.
  - left. lra.
  - left. rewrite inject_Z_succ. lra.
Qed.

Lemma nearest_even_unique (q : Q) (a b : Z) :
  nearest_even q a -> nearest_even q b -> a = b.
Proof.
  intros [[Ha1 Ha2]|[Ha Hea]] [[Hb1 Hb2]|[Hb Heb]].
  - apply Z_between; lra.
  - apply Z_between; destruct Hb; lra.
  - apply Z_between; destruct Ha; lra.
  - destruct Ha as [Ha|Ha], Hb as [Hb|Hb].
    + apply Z_between; lra.
    + assert (a = b + 1)%Z as ->.
      { apply Z_between; rewrite ?inject_Z_succ; lra. }
      rewrite Z.even_add, Heb in Hea. done.
    + assert (b = a + 1)%Z as ->.
      { apply Z_between; rewrite ?inject_Z_succ; lra. }
      rewrite Z.even_add, Hea in Heb. done.
    + apply Z_between; lra.
Qed.

Lemma round_half_even_unique (q : Q) (z : Z) :
  nearest_even q z -> round_half_even q = z.
Proof.
  intros H. eapply nearest_even_unique; [apply round_half_even_spec | exact H].
Qed.

#[export] Instance nearest_even_proper : Proper (Qeq ==> eq ==> iff) nearest_even.
Proof.
  intros q q' Hq z ? <-. unfold nearest_even. by rewrite Hq.
Qed.

#[export] Instance round_half_even_proper : Proper (Qeq ==> eq) round_half_even.
Proof.
  intros q q' Hq. apply round_half_even_unique. rewrite Hq.
  apply round_half_even_spec.
Qed.


Lemma round_half_even_error (q : Q) :
  -(1 # 2) <= inject_Z (round_half_even q) - q <= 1 # 2.
Proof.
  destruct (round_half_even_spec q) as [[H1 H2]|[[H|H] _]]; lra.
Qed.

Lemma round_half_even_Z (z : Z) : round_half_even (inject_Z z) = z.
Proof. apply round_half_even_unique. left. lra. Qed.

Lemma pow10_pos (n : nat) : 0 < pow10 n.
Proof.
  unfold pow10. change 0 with (inject_Z 0). rewrite <- Zlt_Qlt. lia.
Qed.

#[export] Instance round_proper : Proper (Qeq ==> eq ==> Qeq) round.
Proof.
  intros q q' Hq n ? <-. unfold round. by rewrite Hq.
Qed.

(** Rounding to [n] digits moves a number by at most half a unit of the
    last digit. *)
Lemma round_error (q : Q) (n : nat) :
  -(1 # 2) / pow10 n <= round q n - q <= (1 # 2) / pow10 n.
Proof.
  unfold round. pose proof (pow10_pos n) as Hp.
  pose proof (round_half_even_error (q * pow10 n)) as [H1 H2].
  set (z := inject_Z (round_half_even (q * pow10 n))) in *.
  assert (z / pow10 n - q == (z - q * pow10 n) / pow10 n) as -> by (field; lra).
  split; apply Qmult_le_compat_r; try lra; apply Qlt_le_weak, Qinv_lt_0_compat, Hp.
Qed.

Lemma round_0 (n : nat) : round 0 n == 0.
Proof.
  unfold round. rewrite Qmult_0_l. change 0 with (inject_Z 0) at 1.
  rewrite round_half_even_Z. pose proof (pow10_pos n). field. lra.
Qed.

Lemma round_pos (q : Q) (n : nat) : 0 < round q n -> 0 < q.
Proof.
  intros H. destruct (Qlt_le_dec 0 q) as [|Hq]; [done|]. exfalso.
  pose proof (pow10_pos n) as Hp.
  pose proof (round_half_even_error (q * pow10 n)) as [_ Hu].
  assert (q * pow10 n <= 0) as Hm.
  { rewrite <- (Qmult_0_l (pow10 n)). apply Qmult_le_compat_r; lra. }
  assert (round_half_even (q * pow10 n) <= 0)%Z as Hz.
  { apply Z.lt_succ_r. rewrite Zlt_Qlt. change (inject_Z (Z.succ 0)) with 1. lra. }
  rewrite Zle_Qle in Hz. change (inject_Z 0) with 0 in Hz.
  unfold round in H. apply Qlt_not_le in H. apply H.
  unfold Qdiv. rewrite <- (Qmult_0_l (/ pow10 n)).
  apply Qmult_le_compat_r; [done|]. apply Qlt_le_weak, Qinv_lt_0_compat, Hp.
Qed.



End Rounding.

(** ** Key equality and dictionaries *)

Section KeyEquality.

Lemma py_eqb_refl (a : value) : py_eqb a a = true.
Proof.
  destruct a as [|b|q|s]; simpl; try done.
  - apply Qeq_bool_iff. reflexivity.
  - apply Qeq_bool_iff. reflexivity.
  - apply String.eqb_refl.
Qed.

Lemma py_eqb_sym (a b : value) : py_eqb a b = py_eqb b a.
Proof.
  assert (forall x y, Qeq_bool x y = Qeq_bool y x) as Hq.
  { intros x y. apply eq_true_iff_eq. rewrite !Qeq_bool_iff.
    split; intros H; by symmetry. }
  destruct a, b; simpl; try done; try apply Hq.
  apply String.eqb_sym.
Qed.

Lemma py_eqb_trans (a b c : value) :
  py_eqb a b = true -> py_eqb b c = true -> py_eqb a c = true.
Proof.
  assert (forall x y z, Qeq_bool x y = true -> Qeq_bool y z = true ->
                        Qeq_bool x z = true) as Hq.
  { intros x y z. rewrite !Qeq_bool_iff. intros -> ->. reflexivity. }
  destruct a, b, c; simpl; try done; try apply Hq.
  rewrite !String.eqb_eq. congruence.
Qed.

Lemma py_eqb_congr (a b c : value) :
  py_eqb a b = true -> py_eqb a c = py_eqb b c.
Proof.
  intros H. destruct (py_eqb b c) eqn:E.
  - by apply py_eqb_trans with b.
  - destruct (py_eqb a c) eqn:E'; [|done].
    rewrite <- E. symmetry. apply py_eqb_trans with a; [|done].
    by rewrite py_eqb_sym.
Qed.

Lemma key_in_app (k : value) (l1 l2 : list value) :
  key_in k (l1 ++ l2) = key_in k l1 || key_in k l2.
Proof. unfold key_in. apply existsb_app. Qed.

Lemma key_in_true (k : value) (ks : list value) :
  key_in k ks = true <-> exists k', k' ∈ ks /\ py_eqb k' k = true.
Proof.
  unfold key_in. rewrite existsb_exists.
  split; intros (k' & H1 & H2); exists k'; split; try done;
    by apply list_elem_of_In.
Qed.

Lemma key_in_false (k : value) (ks : list value) :
  key_in k ks = false <-> forall k', k' ∈ ks -> py_eqb k' k = false.
Proof.
  split.
  - intros H k' Hin. destruct (py_eqb k' k) eqn:E; [|done].
    rewrite <- H. symmetry. apply key_in_true. eauto.
  - intros H. destruct (key_in k ks) eqn:E; [|done].
    apply key_in_true in E as (k' & Hin & Heq). by rewrite (H k' Hin) in Heq.
Qed.

Lemma key_in_congr (a b : value) (ks : list value) :
  py_eqb a b = true -> key_in a ks = key_in b ks.
Proof.
  intros H. unfold key_in. induction ks as [|k ks IH]; simpl; [done|].
  rewrite IH. f_equal. rewrite !(py_eqb_sym k). by apply py_eqb_congr.
Qed.

Context {A : Type}.
Implicit Types (d : dict A) (k : value).

Lemma dict_mem_key_in k d : dict_mem k d = key_in k d.*1.
Proof.
  unfold dict_mem. induction d as [|[k' a] d IH]; csimpl; [done|].
  destruct (py_eqb k' k); [done | exact IH].
Qed.

Lemma dict_get_congr k k' d :
  py_eqb k k' = true -> dict_get k d = dict_get k' d.
Proof.
  intros H. induction d as [|[k0 a] d IH]; simpl; [done|].
  rewrite IH. rewrite !(py_eqb_sym k0). by rewrite (py_eqb_congr k k' k0).
Qed.

Lemma dict_get_set k k' (a : A) d :
  dict_get k' (dict_set k a d) =
    if py_eqb k k' then Some a else dict_get k' d.
Proof.
  induction d as [|[k0 a0] d IH]; simpl.
  - by destruct (py_eqb k k').
  - destruct (py_eqb k0 k) eqn:E; simpl.
    + rewrite (py_eqb_congr k0 k k' E). by destruct (py_eqb k k').
    + rewrite IH. destruct (py_eqb k k') eqn:E'; [|done].
      assert (py_eqb k0 k' = false) as ->; [|done].
      rewrite <- E. rewrite !(py_eqb_sym k0). symmetry.
      by apply py_eqb_congr.
Qed.

Lemma dict_set_keys k (a : A) d :
  (dict_set k a d).*1 = if dict_mem k d then d.*1 else d.*1 ++ [k].
Proof.
  unfold dict_mem. induction d as [|[k0 a0] d IH]; csimpl; [done|].
  destruct (py_eqb k0 k); csimpl; [done|].
  rewrite IH. by destruct (dict_get k d).
Qed.

Lemma dict_set_new k (a : A) d :
  dict_mem k d = false -> dict_set k a d = d ++ [(k, a)].
Proof.
  unfold dict_mem. induction d as [|[k0 a0] d IH]; simpl; [done|].
  destruct (py_eqb k0 k); [done|]. intros H. by rewrite IH.
Qed.

End KeyEquality.

Section KeyLists.

Implicit Types (k c : value) (ks cs seen : list value).

Lemma key_in_perm k ks ks' : Permutation ks ks' -> key_in k ks = key_in k ks'.
Proof.
  intros Hp. apply eq_true_iff_eq. rewrite !key_in_true.
  split; intros (k' & Hin & Hk); exists k'; split; try done.
  - by rewrite <- Hp.
  - by rewrite Hp.
Qed.

Lemma distinct_keys_perm ks ks' :
  Permutation ks ks' -> distinct_keys ks -> distinct_keys ks'.
Proof.
  induction 1 as [|k l l' Hp IH|a b l|l1 l2 l3 _ IH1 _ IH2]; simpl.
  - done.
  - intros [H1 H2]. split; [by rewrite <- (key_in_perm k l l') | by apply IH].
  - intros [H1 [H2 H3]].
    apply orb_false_iff in H1 as [H1 H1'].
    repeat split; try done. apply orb_false_iff.
    split; [by rewrite py_eqb_sym | done].
  - intros H. by apply IH2, IH1.
Qed.

Lemma distinct_keys_snoc ks k :
  distinct_keys ks -> key_in k ks = false -> distinct_keys (ks ++ [k]).
Proof.
  induction ks as [|k0 ks IH]; simpl; [done|].
  intros [H1 H2] H. apply orb_false_iff in H as [H H'].
  split; [| by apply IH].
  rewrite key_in_app, H1. simpl. by rewrite py_eqb_sym, H.
Qed.

Lemma distinct_keys_middle ks1 k ks2 :
  distinct_keys (ks1 ++ k :: ks2) -> key_in k ks1 = false.
Proof.
  induction ks1 as [|k0 ks1 IH]; simpl; [done|].
  intros [H1 H2]. rewrite key_in_app in H1.
  apply orb_false_iff in H1 as [_ H1]. simpl in H1.
  apply orb_false_iff in H1 as [H1 _].
  apply orb_false_iff. split; [by rewrite py_eqb_sym | by apply IH].
Qed.

Lemma new_keys_covers cs seen c :
  c ∈ cs -> key_in c (seen ++ new_keys cs seen) = true.
Proof.
  revert seen. induction cs as [|c0 cs IH]; intros seen Hin.
  - by apply elem_of_nil in Hin.
  - simpl. apply elem_of_cons in Hin as [->|Hin].
    + destruct (key_in c0 seen) eqn:E.
      * rewrite key_in_app, E. done.
      * rewrite key_in_app. simpl. by rewrite py_eqb_refl, orb_true_r.
    + destruct (key_in c0 seen) eqn:E; [by apply IH|].
      rewrite (assoc_L _ seen [c0] _ : seen ++ c0 :: _ = (seen ++ [c0]) ++ _).
      by apply IH.
Qed.

Lemma new_keys_origin cs seen k :
  k ∈ new_keys cs seen -> k ∈ cs /\ key_in k seen = false.
Proof.
  revert seen. induction cs as [|c0 cs IH]; intros seen; simpl.
  - intros H. by apply elem_of_nil in H.
  - destruct (key_in c0 seen) eqn:E.
    + intros H. destruct (IH _ H). split; [by apply list_elem_of_further | done].
    + intros H. apply elem_of_cons in H as [->|H].
      * split; [apply list_elem_of_here | done].
      * destruct (IH _ H) as [H1 H2]. rewrite key_in_app in H2.
        apply orb_false_iff in H2 as [H2 _].
        split; [by apply list_elem_of_further | done].
Qed.

Lemma new_keys_distinct cs seen :
  distinct_keys seen -> distinct_keys (seen ++ new_keys cs seen).
Proof.
  revert seen. induction cs as [|c0 cs IH]; intros seen Hd; simpl.
  - by rewrite app_nil_r.
  - destruct (key_in c0 seen) eqn:E; [by apply IH|].
    rewrite (assoc_L _ seen [c0] _ : seen ++ c0 :: _ = (seen ++ [c0]) ++ _).
    apply IH. by apply distinct_keys_snoc.
Qed.

Lemma first_index_cons k c cs :
  first_index k (c :: cs) =
    if py_eqb c k then Some 0%nat else S <$> first_index k cs.
Proof.
  unfold first_index. simpl. case_decide as H.
  - by rewrite H.
  - apply not_true_is_false in H. rewrite H.
    by destruct (list_find _ cs) as [[i x]|].
Qed.

Lemma first_index_is_Some k cs : k ∈ cs -> is_Some (first_index k cs).
Proof.
  induction cs as [|c cs IH]; intros Hin.
  - by apply elem_of_nil in Hin.
  - rewrite first_index_cons. destruct (py_eqb c k) eqn:E; [eauto|].
    apply elem_of_cons in Hin as [->|Hin]; [by rewrite py_eqb_refl in E|].
    destruct (IH Hin) as [i ->]. eauto.
Qed.

Lemma met_before_cons c cs a b :
  py_eqb c a = false -> py_eqb c b = false ->
  met_before cs a b -> met_before (c :: cs) a b.
Proof.
  intros Ha Hb (i & j & Hi & Hj & Hlt). exists (S i), (S j).
  rewrite !first_index_cons, Ha, Hb, Hi, Hj. repeat split; try done. lia.
Qed.

Lemma StronglySorted_impl_in {A : Type} (R R' : A -> A -> Prop) (l : list A) :
  (forall x y, x ∈ l -> y ∈ l -> R x y -> R' x y) ->
  StronglySorted R l -> StronglySorted R' l.
Proof.
  intros HR Hs. induction Hs as [|x l Hs IH Hall]; constructor.
  - apply IH. intros a b Ha Hb. apply HR; by apply list_elem_of_further.
  - apply Forall_forall. intros y Hy. apply HR.
    + apply list_elem_of_here.
    + by apply list_elem_of_further.
    + rewrite Forall_forall in Hall. by apply Hall.
Qed.

Lemma new_keys_order cs seen : StronglySorted (met_before cs) (new_keys cs seen).
Proof.
  revert seen. induction cs as [|c cs IH]; intros seen; simpl; [constructor|].
  destruct (key_in c seen) eqn:E.
  - eapply StronglySorted_impl_in; [|apply (IH seen)].
    intros a b Ha Hb. apply new_keys_origin in Ha as [_ Ha], Hb as [_ Hb].
    apply met_before_cons.
    + destruct (py_eqb c a) eqn:E'; [|done].
      by rewrite (key_in_congr c a seen E'), Ha in E.
    + destruct (py_eqb c b) eqn:E'; [|done].
      by rewrite (key_in_congr c b seen E'), Hb in E.
  - assert (forall a, a ∈ new_keys cs (seen ++ [c]) -> py_eqb c a = false) as Hc.
    { intros a Ha. apply new_keys_origin in Ha as [_ Ha].
      rewrite key_in_app in Ha. apply orb_false_iff in Ha as [_ Ha].
      simpl in Ha. by apply orb_false_iff in Ha as [Ha _]. }
    constructor.
    + eapply StronglySorted_impl_in; [|apply (IH (seen ++ [c]))].
      intros a b Ha Hb. apply met_before_cons; by apply Hc.
    + apply Forall_forall. intros a Ha.
      destruct (first_index_is_Some a cs) as [j Hj].
      { by apply new_keys_origin in Ha as [Ha _]. }
      exists 0%nat, (S j). rewrite !first_index_cons, py_eqb_refl, (Hc a Ha), Hj.
      repeat split; try done. lia.
Qed.

End KeyLists.

(** ** The stable descending sort *)

Section Sorting.

Context {K : Type}.
Implicit Types (x y : K * Q) (l : list (K * Q)).

Lemma gtb_spec (a b : Q) : gtb a b = true <-> (b < a)%Q.
Proof.
  unfold gtb. rewrite Qlt_alt. destruct (b ?= a)%Q; split; done.
Qed.


Lemma insert_desc_perm x l : Permutation (insert_desc x l) (x :: l).
Proof.
  induction l as [|y l IH]; simpl; [done|].
  destruct (gtb y.2 x.2); [|done].
  rewrite IH. apply perm_swap.
Qed.

Lemma sorted_by_value_desc_perm l : Permutation (sorted_by_value_desc l) l.
Proof.
  induction l as [|x l IH]; simpl; [done|].
  rewrite insert_desc_perm. by constructor.
Qed.

Variable before : K -> K -> Prop.




End Sorting.

(** ** Dictionary comprehensions *)

Section Comprehension.

Context {A B : Type}.

Lemma dict_comp_acc (f : A -> result B) (g : A -> B) (items : list (value * A))
    (acc : dict B) :
  (forall a, f a = Ok (g a)) ->
  distinct_keys (acc.*1 ++ items.*1) ->
  foldl (fun acc kv => d ← acc; b ← f kv.2; mret (dict_set kv.1 b d))
        (Ok acc) items
  = Ok (acc ++ (prod_map id g <$> items)).
Proof.
  intros Hf. revert acc. induction items as [|[k a] items IH]; intros acc Hd.
  - simpl. by rewrite app_nil_r.
  - simpl. rewrite Hf. simpl.
    change (mret (dict_set k (g a) acc)) with (Ok (dict_set k (g a) acc)).
    rewrite dict_set_new.
    + rewrite IH.
      * by rewrite <- app_assoc.
      * rewrite fmap_app. simpl. by rewrite <- app_assoc.
    + rewrite dict_mem_key_in. by eapply distinct_keys_middle.
Qed.

Lemma dict_comp_ok (f : A -> result B) (g : A -> B) (items : list (value * A)) :
  (forall a, f a = Ok (g a)) ->
  distinct_keys items.*1 ->
  dict_comp f items = Ok (prod_map id g <$> items).
Proof.
  intros Hf Hd. exact (dict_comp_acc f g items [] Hf Hd).
Qed.


End Comprehension.


(** ** Grouping amounts by key *)

Section Grouping.
Local Open Scope Q_scope.

Implicit Types (k : value) (a : Q) (d : dict Q) (items : list (value * Q)).

Lemma dict_add_item k d :
  dict_item k (if dict_mem k d then d else dict_set k 0 d)
  = Ok (default 0 (dict_get k d)).
Proof.
  unfold dict_item, dict_mem. destruct (dict_get k d) as [v|] eqn:E.
  - by rewrite E.
  - by rewrite dict_get_set, py_eqb_refl.
Qed.

Lemma dict_add_step k a d :
  dict_set k (default 0 (dict_get k d) + a)
           (if dict_mem k d then d else dict_set k 0 d)
  = dict_add k a d.
Proof.
  unfold dict_add, dict_mem. destruct (dict_get k d) as [v|] eqn:E.
  - by rewrite E.
  - by rewrite dict_get_set, py_eqb_refl.
Qed.

Lemma dict_add_keys k a d :
  (dict_add k a d).*1 = if dict_mem k d then d.*1 else d.*1 ++ [k].
Proof.
  unfold dict_add. rewrite dict_set_keys.
  destruct (dict_mem k d) eqn:E.
  - by rewrite E.
  - assert (dict_mem k (dict_set k 0 d) = true) as ->.
    { unfold dict_mem. by rewrite dict_get_set, py_eqb_refl. }
    by rewrite dict_set_keys, E.
Qed.

Lemma dict_add_get k a d k' :
  dict_get k' (dict_add k a d) =
    if py_eqb k k' then Some (default 0 (dict_get k d) + a) else dict_get k' d.
Proof.
  rewrite <- dict_add_step, dict_get_set.
  destruct (py_eqb k k') eqn:E; [done|].
  destruct (dict_mem k d); [done|]. by rewrite dict_get_set, E.
Qed.

Lemma dict_set_sum k a d :
  Qsum (dict_set k a d).*2 == Qsum d.*2 - default 0 (dict_get k d) + a.
Proof.
  induction d as [|[k0 a0] d IH]; csimpl; [lra|].
  destruct (py_eqb k0 k); csimpl; [lra|]. rewrite IH. lra.
Qed.

Lemma dict_add_sum k a d : Qsum (dict_add k a d).*2 == Qsum d.*2 + a.
Proof.
  unfold dict_add, dict_mem. destruct (dict_get k d) as [v|] eqn:E.
  - rewrite dict_set_sum, E. simpl. lra.
  - rewrite !dict_set_sum, dict_get_set, py_eqb_refl, E. simpl. lra.
Qed.

Lemma group_keys items d :
  (group items d).*1 = d.*1 ++ new_keys items.*1 d.*1.
Proof.
  revert d. induction items as [|[k a] items IH]; intros d.
  - csimpl. by rewrite app_nil_r.
  - change (group ((k, a) :: items) d) with (group items (dict_add k a d)).
    rewrite IH, dict_add_keys. csimpl. rewrite <- dict_mem_key_in.
    destruct (dict_mem k d); [done|]. by rewrite <- app_assoc.
Qed.

Lemma key_sum_cons k k0 a items :
  key_sum k ((k0, a) :: items) ==
    (if py_eqb k0 k then a else 0) + key_sum k items.
Proof.
  unfold key_sum. rewrite filter_cons. csimpl. case_decide as H.
  - rewrite H. csimpl. lra.
  - apply not_true_is_false in H. rewrite H. lra.
Qed.

Lemma group_get items d k :
  default 0 (dict_get k (group items d)) ==
    default 0 (dict_get k d) + key_sum k items.
Proof.
  revert d. induction items as [|[k0 a] items IH]; intros d.
  - unfold key_sum. simpl. lra.
  - change (group ((k0, a) :: items) d) with (group items (dict_add k0 a d)).
    rewrite IH, key_sum_cons, dict_add_get.
    destruct (py_eqb k0 k) eqn:E; simpl; [|lra].
    rewrite (dict_get_congr k0 k d E). lra.
Qed.

Lemma group_total items d :
  Qsum (group items d).*2 == Qsum d.*2 + Qsum items.*2.
Proof.
  revert d. induction items as [|[k a] items IH]; intros d.
  - csimpl. lra.
  - change (group ((k, a) :: items) d) with (group items (dict_add k a d)).
    rewrite IH, dict_add_sum. csimpl. lra.
Qed.

Lemma dict_get_distinct {A : Type} k (v : A) (d : dict A) :
  distinct_keys d.*1 -> (k, v) ∈ d -> dict_get k d = Some v.
Proof.
  induction d as [|[k0 a0] d IH]; csimpl; intros Hd Hin.
  - by apply elem_of_nil in Hin.
  - destruct Hd as [H1 H2]. apply elem_of_cons in Hin as [[= <- <-]|Hin].
    + by rewrite py_eqb_refl.
    + assert (py_eqb k0 k = false) as ->; [| by apply IH].
      rewrite py_eqb_sym. apply (proj1 (key_in_false k0 d.*1) H1).
      apply list_elem_of_fmap. by exists (k, v).
Qed.

(** What grouping from the empty dictionary produces. *)
Lemma group_spec items :
  let d := group items [] in
  d.*1 = new_keys items.*1 [] /\
  distinct_keys d.*1 /\
  (forall k v, (k, v) ∈ d -> v == key_sum k items) /\
  Qsum d.*2 == Qsum items.*2.
Proof.
  simpl. assert ((group items []).*1 = new_keys items.*1 []) as Hk
    by apply (group_keys items []).
  repeat split.
  - exact Hk.
  - rewrite Hk. apply (new_keys_distinct items.*1 []). done.
  - intros k v Hin. pose proof (group_get items [] k) as H.
    rewrite (dict_get_distinct k v) in H; [simpl in H; lra | | done].
    rewrite Hk. apply (new_keys_distinct items.*1 []). done.
  - rewrite group_total. simpl. lra.
Qed.

End Grouping.

(** ** News credibility *)

Section NewsProperties.

Import News.

Lemma tier_loop_spec (tier : list string) (source : string) :
  tier_loop tier (lower source) = true <-> tier_match tier source.
Proof.
  unfold tier_match. induction tier as [|src rest IH]; simpl.
  - split; [done | by intros (? & [] & _)].
  - destruct (contains (lower src) (lower source)) eqn:E.
    + split; [intros _ | done].
      exists src. split; [by left | by apply contains_spec].
    + rewrite IH. apply contains_false in E.
      split; intros (s & Hin & Hs).
      * exists s. split; [by right | done].
      * destruct Hin as [<- | Hin]; [done | by exists s].
Qed.

Lemma tier_loop_miss (tier : list string) (source : string) :
  ~ tier_match tier source -> tier_loop tier (lower source) = false.
Proof.
  intros H. destruct (tier_loop tier (lower source)) eqn:E; [|done].
  by apply tier_loop_spec in E.
Qed.

(** C5: the three tiers are tried in the order top-tier, secondary, crypto,
    and the first tier with a case-insensitive substring match decides; a
    name matching a top-tier outlet is high whatever else it matches,
    "Reuters Crypto Desk" is high, "CoinDesk Markets" is crypto, and a name
    matching no tier is unknown. *)
Theorem get_source_credibility_priority (source : string) :
  (tier_match top_tier source -> get_source_credibility source = "high") /\
  (~ tier_match top_tier source -> tier_match secondary source ->
   get_source_credibility source = "medium") /\
  (~ tier_match top_tier source -> ~ tier_match secondary source ->
   tier_match crypto source -> get_source_credibility source = "crypto") /\
  (~ tier_match top_tier source -> ~ tier_match secondary source ->
   ~ tier_match crypto source -> get_source_credibility source = "unknown") /\
  get_source_credibility "Reuters Crypto Desk" = "high" /\
  get_source_credibility "CoinDesk Markets" = "crypto".
Proof.
  unfold get_source_credibility. repeat split; try reflexivity.
  - intros H. apply tier_loop_spec in H. by rewrite H.
  - intros H1 H2. apply tier_loop_miss in H1. apply tier_loop_spec in H2.
    by rewrite H1, H2.
  - intros H1 H2 H3. apply tier_loop_miss in H1, H2. apply tier_loop_spec in H3.
    by rewrite H1, H2, H3.
  - intros H1 H2 H3. apply tier_loop_miss in H1, H2, H3.
    by rewrite H1, H2, H3.
Qed.

Lemma get_source_credibility_priority_witness :
  tier_match top_tier "Reuters and CoinDesk" /\
  tier_match crypto "Reuters and CoinDesk" /\
  get_source_credibility "Reuters and CoinDesk" = "high".
Proof.
  assert (tier_match top_tier "Reuters and CoinDesk") as H.
  { exists "Reuters". split; [by left |]. by exists "", " and coindesk". }
  split; [exact H |]. split.
  - exists "CoinDesk". split; [by left |]. by exists "reuters and ", "".
  - exact (proj1 (get_source_credibility_priority "Reuters and CoinDesk") H).
Defined.

End NewsProperties.

(** ** Transaction classifier *)

Section ClassifierProperties.

Import Banking.

Lemma get_tagged (b : bool) (tx : gmap string value) (k : string) (d : value) :
  k <> "is_essential" -> k <> "category_type" ->
  get (tagged b tx) k d = get tx k d.
Proof.
  intros H1 H2. unfold get, tagged. by rewrite !lookup_insert_ne.
Qed.

Lemma categorize_transaction_text (tx : gmap string value) (n c : string) :
  get tx "name" (VStr "") = VStr n ->
  get tx "category" (VStr "") = VStr c ->
  categorize_transaction tx =
    Ok (tagged (essential_loop ESSENTIAL_CATEGORIES (lower n) (lower c)) tx).
Proof.
  intros Hn Hc. unfold categorize_transaction. by rewrite Hn, Hc.
Qed.

Lemma categorize_transaction_returns (tx r : gmap string value) :
  categorize_transaction tx = Ok r -> text_ok tx.
Proof.
  unfold categorize_transaction, text_ok. intros H.
  destruct (get tx "name" (VStr "")) as [| | |n]; try discriminate H.
  destruct (get tx "category" (VStr "")) as [| | |c]; try discriminate H.
  split; eauto.
Qed.

(** The classifier returns exactly on the records whose name and category
    are text. *)
Lemma categorize_transaction_defined (tx : gmap string value) :
  (exists r, categorize_transaction tx = Ok r) <-> text_ok tx.
Proof.
  split.
  - intros [r Hr]. by apply (categorize_transaction_returns tx r).
  - intros [[n Hn] [c Hc]]. eexists. by apply categorize_transaction_text.
Qed.

Lemma tagged_tagged (b : bool) (tx : gmap string value) :
  tagged b (tagged b tx) = tagged b tx.
Proof.
  unfold tagged. apply map_eq. intros k.
  destruct (decide (k = "category_type")) as [->|H1];
    [by rewrite !lookup_insert_eq |].
  rewrite !(lookup_insert_ne _ "category_type") by done.
  destruct (decide (k = "is_essential")) as [->|H2];
    [by rewrite !lookup_insert_eq |].
  by rewrite !lookup_insert_ne by done.
Qed.

(** C9: on every record the classifier accepts (its name and category are
    text, [categorize_transaction_defined]), classifying the classified
    record again returns it unchanged; in particular the second pass
    computes the same [is_essential] flag. *)
Theorem categorize_transaction_idempotent (tx : gmap string value) :
  text_ok tx ->
  exists (r : gmap string value) (b : bool),
    categorize_transaction tx = Ok r /\
    r !! "is_essential" = Some (VBool b) /\
    exists r' : gmap string value,
      categorize_transaction r = Ok r' /\
      r' !! "is_essential" = Some (VBool b) /\
      r' = r.
Proof.
  intros [[n Hn] [c Hc]].
  set (b := essential_loop ESSENTIAL_CATEGORIES (lower n) (lower c)).
  assert (tagged b tx !! "is_essential" = Some (VBool b)) as Hb.
  { unfold tagged. rewrite lookup_insert_ne by done. apply lookup_insert_eq. }
  exists (tagged b tx), b. split; [by apply categorize_transaction_text |].
  split; [exact Hb |].
  exists (tagged b tx). split; [| by split].
  rewrite (categorize_transaction_text _ n c).
  - fold b. by rewrite tagged_tagged.
  - by rewrite get_tagged.
  - by rewrite get_tagged.
Qed.

Lemma categorize_transaction_idempotent_witness :
  exists (r : gmap string value) (b : bool),
    categorize_transaction {["name" := VStr "Rent Payment"]} = Ok r /\
    r !! "is_essential" = Some (VBool b) /\
    exists r' : gmap string value,
      categorize_transaction r = Ok r' /\
      r' !! "is_essential" = Some (VBool b) /\
      r' = r.
Proof.
  apply categorize_transaction_idempotent.
  split; [by exists "Rent Payment" | by exists ""].
Defined.

(** C10: on every record the classifier accepts, its output keeps every
    key of the input with the value it had, except that it sets
    [is_essential] and [category_type], and it has no other keys. *)
Theorem categorize_transaction_frame (tx : gmap string value) :
  text_ok tx ->
  exists r : gmap string value,
    categorize_transaction tx = Ok r /\
    (forall k : string, k <> "is_essential" -> k <> "category_type" ->
                        r !! k = tx !! k) /\
    (exists b : bool,
       r !! "is_essential" = Some (VBool b) /\
       r !! "category_type" =
         Some (VStr (if b then "essential" else "non-essential"))) /\
    dom r = dom tx ∪ {["is_essential"; "category_type"]}.
Proof.
  intros [[n Hn] [c Hc]].
  set (b := essential_loop ESSENTIAL_CATEGORIES (lower n) (lower c)).
  exists (tagged b tx). split; [by apply categorize_transaction_text |].
  unfold tagged. repeat split.
  - intros k H1 H2. by rewrite !lookup_insert_ne.
  - exists b. split.
    + rewrite lookup_insert_ne by done. apply lookup_insert_eq.
    + apply lookup_insert_eq.
  - rewrite !dom_insert_L. apply set_eq. intros k.
    rewrite !elem_of_union, !elem_of_singleton. tauto.
Qed.

Lemma categorize_transaction_frame_witness :
  exists r : gmap string value,
    categorize_transaction
      (<["memo" := VNum 7]> {["category" := VStr "Dining"]}) = Ok r /\
    (forall k : string, k <> "is_essential" -> k <> "category_type" ->
       r !! k = (<["memo" := VNum 7]> {["category" := VStr "Dining"]}
                   : gmap string value) !! k) /\
    (exists b : bool,
       r !! "is_essential" = Some (VBool b) /\
       r !! "category_type" =
         Some (VStr (if b then "essential" else "non-essential"))) /\
    dom r = dom (<["memo" := VNum 7]> {["category" := VStr "Dining"]}
                   : gmap string value)
            ∪ {["is_essential"; "category_type"]}.
Proof.
  apply categorize_transaction_frame.
  split; [by exists "" | by exists "Dining"].
Defined.

End ClassifierProperties.

(** ** Wallet address validation *)

Section WalletProperties.

Import Blockchain.

Variables ETHERSCAN_KEY POLYGONSCAN_KEY : string.

(** C4: an address that is not 42 characters long, or that does not start
    with 0x, is answered with the 400 rejection at once: the view is that
    immediate return, so no balance, token or DeFi lookup runs and no
    request leaves the process. *)
Theorem get_wallet_assets_rejects (address : string) :
  len address <> 42%nat \/ ~ (exists rest, address = "0x" +:+ rest) ->
  get_wallet_assets ETHERSCAN_KEY POLYGONSCAN_KEY address =
    Ret (Failure 400
           "Invalid wallet address. Must be 42 characters starting with 0x") /\
  forall net,
    (run net (get_wallet_assets ETHERSCAN_KEY POLYGONSCAN_KEY address)).2 = [].
Proof.
  intros H.
  assert ((len address =? 0)%nat || negb (len address =? 42)%nat
          || negb (startswith address "0x") = true) as Hguard.
  { destruct H as [H|H].
    - apply Nat.eqb_neq in H. rewrite H. simpl. by rewrite orb_true_r.
    - destruct (startswith address "0x") eqn:E.
      + by apply startswith_spec in E.
      + apply orb_true_r. }
  unfold get_wallet_assets. rewrite Hguard. by split.
Qed.

End WalletProperties.

(** A well-formed address does reach the collaborators: with the network
    down, the two balance lookups and the token lookup each send their
    request and print their error, and the view still answers. *)
Example get_wallet_assets_network_down :
  Blockchain.run (fun _ _ => Blockchain.RequestFailed)
    (Blockchain.get_wallet_assets "KEY1" "KEY2"
       "0x52908400098527886E0F7030069857D2E4169EE7")
  = (Blockchain.Assets "0x52908400098527886E0F7030069857D2E4169EE7" [] [] [],
     [ Blockchain.Requested "https://api.etherscan.io/api"
         (Blockchain.balance_params
            "0x52908400098527886E0F7030069857D2E4169EE7" "KEY1");
       Blockchain.Printed "Etherscan error" RequestError;
       Blockchain.Requested "https://api.polygonscan.com/api"
         (Blockchain.balance_params
            "0x52908400098527886E0F7030069857D2E4169EE7" "KEY2");
       Blockchain.Printed "Polygonscan error" RequestError;
       Blockchain.Requested "https://api.etherscan.io/api"
         (Blockchain.tokens_params "KEY1"
            "0x52908400098527886E0F7030069857D2E4169EE7");
       Blockchain.Printed "Token fetch error" RequestError ]).
Proof. vm_compute. reflexivity. Qed.

Lemma get_wallet_assets_rejects_witness :
  Blockchain.get_wallet_assets "KEY1" "KEY2" "0x1234" =
    Blockchain.Ret
      (Blockchain.Failure 400
         "Invalid wallet address. Must be 42 characters starting with 0x") /\
  forall net,
    (Blockchain.run net
       (Blockchain.get_wallet_assets "KEY1" "KEY2" "0x1234")).2 = [].
Proof.
  apply get_wallet_assets_rejects. left. vm_compute. lia.
Defined.

(** ** Spending analyzer *)

Section AnalyzerProperties.

Import Banking.
Local Open Scope Q_scope.

Implicit Types (tx : gmap string value) (txs : list (gmap string value)).


Lemma analyze_step_ok acc tx :
  amount_ok tx ->
  analyze_step acc tx =
    Ok {| acc_total := acc_total acc + magnitude tx;
          acc_essential :=
            if truthy (get tx "is_essential" (VBool false))
            then acc_essential acc + magnitude tx else acc_essential acc;
          acc_non_essential :=
            if truthy (get tx "is_essential" (VBool false))
            then acc_non_essential acc
            else acc_non_essential acc + magnitude tx;
          acc_breakdown :=
            dict_add (category_of tx) (magnitude tx) (acc_breakdown acc) |}.
Proof.
  intros [q Hq]. unfold analyze_step, magnitude, py_abs, as_num, category_of.
  rewrite Hq. simpl. rewrite dict_add_item. simpl. by rewrite dict_add_step.
Qed.

Lemma analyze_loop_ok txs acc :
  Forall amount_ok txs ->
  exists acc',
    analyze_loop txs acc = Ok acc' /\
    acc_breakdown acc' = group (entry <$> txs) (acc_breakdown acc) /\
    acc_total acc' == acc_total acc + Qsum (magnitude <$> txs) /\
    acc_essential acc' + acc_non_essential acc' ==
      acc_essential acc + acc_non_essential acc + Qsum (magnitude <$> txs).
Proof.
  intros Hok. revert acc. induction Hok as [|tx txs Htx _ IH]; intros acc.
  - exists acc. csimpl. repeat split; try done; lra.
  - csimpl. rewrite (analyze_step_ok acc tx Htx). simpl.
    edestruct IH as (acc' & -> & Hb & Ht & He). exists acc'.
    split; [done|]. split; [exact Hb|]. simpl in Ht, He.
    split; [lra|]. rewrite He.
    destruct (truthy (get tx "is_essential" (VBool false))); lra.
Qed.

Lemma analyze_loop_amounts txs acc acc' :
  analyze_loop txs acc = Ok acc' -> Forall amount_ok txs.
Proof.
  revert acc. induction txs as [|tx txs IH]; intros acc; [by constructor|].
  simpl. destruct (analyze_step acc tx) as [acc1|e] eqn:Hs; simpl; [|done].
  intros Hl. constructor; [|by eapply IH].
  unfold analyze_step, py_abs, as_num in Hs. unfold amount_ok.
  destruct (num_of (get tx "amount" (VNum 0))); [eauto | done].
Qed.

Lemma percent_of_ok (part total : Q) :
  percent_of part total =
    Ok (if gtb total 0 then part / total * 100 else 0).
Proof.
  unfold percent_of, py_div. destruct (gtb total 0) eqn:E; [|done].
  apply gtb_spec in E. destruct (Qeq_bool total 0) eqn:E'; [|done].
  apply Qeq_bool_iff in E'. lra.
Qed.

Lemma sorted_keys_perm (d : dict Q) :
  Permutation (sorted_by_value_desc d).*1 d.*1.
Proof. apply fmap_Permutation, sorted_by_value_desc_perm. Qed.

(** The analysis in closed form. *)
Lemma analyze_spending_ok txs :
  Forall amount_ok txs ->
  exists acc,
    analyze_loop txs acc_init = Ok acc /\
    acc_breakdown acc = group (entry <$> txs) [] /\
    acc_total acc == Qsum (magnitude <$> txs) /\
    acc_essential acc + acc_non_essential acc == acc_total acc /\
    analyze_spending txs =
      Ok {| total_spent := round (acc_total acc) 2;
            essential_spent := round (acc_essential acc) 2;
            non_essential_spent := round (acc_non_essential acc) 2;
            essential_percent :=
              round (if gtb (acc_total acc) 0
                     then acc_essential acc / acc_total acc * 100 else 0) 1;
            non_essential_percent :=
              round (if gtb (acc_total acc) 0
                     then acc_non_essential acc / acc_total acc * 100 else 0) 1;
            category_breakdown :=
              prod_map id (fun v => round v 2)
                <$> sorted_by_value_desc (acc_breakdown acc) |}.
Proof.
  intros Hok.
  destruct (analyze_loop_ok txs acc_init Hok) as (acc & Hl & Hb & Ht & He).
  simpl in Hb, Ht, He. exists acc.
  split; [done|]. split; [done|]. split; [lra|]. split; [lra|].
  unfold analyze_spending. rewrite Hl. simpl. rewrite !percent_of_ok. simpl.
  rewrite (dict_comp_ok _ (fun v => round v 2)); [done | done |].
  eapply distinct_keys_perm; [symmetry; apply sorted_keys_perm|].
  rewrite Hb. apply (group_spec (entry <$> txs)).
Qed.

(** The analysis returns exactly on the sequences whose amounts are
    numbers. *)
Lemma analyze_spending_defined txs :
  (exists r, analyze_spending txs = Ok r) <-> Forall amount_ok txs.
Proof.
  split.
  - intros [r Hr]. unfold analyze_spending in Hr.
    destruct (analyze_loop txs acc_init) as [acc|e] eqn:Hl; [|done].
    by apply (analyze_loop_amounts txs acc_init acc).
  - intros Hok. destruct (analyze_spending_ok txs Hok) as (acc & _ & _ & _ & _ & Hr).
    eauto.
Qed.

End AnalyzerProperties.

Section AnalyzerClaims.

Import Banking.
Local Open Scope Q_scope.

Implicit Types (tx : gmap string value) (txs : list (gmap string value)).



(** The zero case is decided on the accumulated total: a positive total
    below half a cent is reported as 0.00 while the percentages still add
    up to 100. *)
Remark sub_cent_total :
  exists acc r,
    analyze_loop sub_cent_transactions acc_init = Ok acc /\
    analyze_spending sub_cent_transactions = Ok r /\
    0 < acc_total acc /\
    total_spent r == 0 /\
    essential_percent r == 0 /\
    non_essential_percent r == 100.
Proof. do 2 eexists. repeat apply conj; vm_compute; reflexivity. Qed.




(** Equal sums keep the order of first encounter. *)
Example tied_breakdown :
  exists r,
    analyze_spending tied_transactions = Ok r /\
    category_breakdown r =
      [(VStr "Rent", 20.00); (VStr "Books", 15.00); (VStr "Music", 15.00)].
Proof. eexists. split; vm_compute; reflexivity. Qed.

(** C8: the three-transaction scenario, categorized and then analyzed. *)
Theorem scenario_analysis :
  exists r,
    categorize_then_analyze scenario_transactions = Ok r /\
    total_spent r == 1672.31 /\
    essential_spent r == 1656.32 /\
    non_essential_spent r == 15.99 /\
    essential_percent r == 99.0 /\
    non_essential_percent r == 1.0.
Proof.
  eexists. split; [vm_compute; reflexivity|]. by vm_compute.
Qed.

End AnalyzerClaims.

(** ** Portfolio aggregator *)

Section PortfolioProperties.

Import Trading.
Local Open Scope Q_scope.

Implicit Types (h : gmap string value) (hs : list (gmap string value)).

Lemma py_sum_ok {A : Type} (f : A -> result Q) (g : A -> Q) (l : list A)
    (acc : Q) :
  Forall (fun x => f x = Ok (g x)) l ->
  exists t, py_sum f l acc = Ok t /\ t == acc + Qsum (g <$> l).
Proof.
  intros Hl. revert acc. induction Hl as [|x l Hx _ IH]; intros acc; csimpl.
  - exists acc. split; [done | lra].
  - rewrite Hx. simpl. destruct (IH (acc + g x)) as (t & -> & Ht).
    exists t. split; [done | lra].
Qed.

Lemma market_value_of_ok h :
  holding_ok h -> market_value_of h = Ok (field_num h "market_value").
Proof.
  intros ((v & Hv & q & Hq) & _). unfold market_value_of, item, field_num, as_num.
  rewrite Hv. simpl. by rewrite Hq.
Qed.

Lemma cost_of_ok h :
  holding_ok h ->
  cost_of h = Ok (field_num h "quantity" * field_num h "avg_cost").
Proof.
  intros (_ & (v & Hv & q & Hq) & (w & Hw & c & Hc) & _).
  unfold cost_of, item, field_num, as_num. rewrite Hv, Hw. simpl.
  by rewrite Hq, Hc.
Qed.

Lemma allocation_step_ok h (allocation : dict Q) :
  holding_ok h ->
  allocation_step allocation h = Ok (dict_add (slot h).1 (slot h).2 allocation).
Proof.
  intros Hok. pose proof (market_value_of_ok h Hok) as Hm.
  destruct Hok as (_ & _ & _ & (t & Ht)).
  unfold allocation_step, item, slot, type_of. rewrite Ht. simpl.
  rewrite dict_add_item. simpl. rewrite Hm. simpl. by rewrite dict_add_step.
Qed.

Lemma allocation_loop_ok hs (allocation : dict Q) :
  Forall holding_ok hs ->
  allocation_loop hs allocation = Ok (group (slot <$> hs) allocation).
Proof.
  intros Hok. revert allocation.
  induction Hok as [|h hs Hh _ IH]; intros allocation; csimpl; [done|].
  rewrite (allocation_step_ok h allocation Hh). simpl. by rewrite IH.
Qed.

Lemma py_div_ok (a b : Q) : ~ b == 0 -> py_div a b = Ok (a / b).
Proof.
  intros Hb. unfold py_div. destruct (Qeq_bool b 0) eqn:E; [|done].
  by apply Qeq_bool_iff in E.
Qed.


Lemma allocation_percent_of_ok (allocation : dict Q) (total : Q) :
  ~ total == 0 -> distinct_keys allocation.*1 ->
  allocation_percent_of allocation total =
    Ok (prod_map id (fun v => round (v / total * 100) 1) <$> allocation).
Proof.
  intros Ht Hd. unfold allocation_percent_of.
  apply (dict_comp_ok _ (fun v => round (v / total * 100) 1)); [|done].
  intros v. by rewrite py_div_ok.
Qed.



(** Rounding each share to one decimal moves their sum by at most a
    twentieth per share. *)
Lemma rounded_shares (total : Q) (l : list Q) :
  ~ total == 0 ->
  let shares := (fun v => round (v / total * 100) 1) <$> l in
  -(inject_Z (Z.of_nat (length l)) * (1 # 20))
    <= Qsum shares - Qsum l / total * 100
    <= inject_Z (Z.of_nat (length l)) * (1 # 20).
Proof.
  intros Ht. induction l as [|v l IH]; csimpl.
  - unfold Qdiv. rewrite Qmult_0_l. change (inject_Z (Z.of_nat 0)) with 0. lra.
  - simpl in IH. rewrite Nat2Z.inj_succ, <- Z.add_1_r, inject_Z_plus.
    change (inject_Z 1) with 1.
    pose proof (round_error (v / total * 100) 1) as Hv.
    change (pow10 1) with 10 in Hv.
    change ((1 # 2) / 10) with (1 # 20) in Hv.
    change (- (1 # 2) / 10) with (-(1 # 20)) in Hv.
    assert ((v + Qsum l) / total * 100 ==
            v / total * 100 + Qsum l / total * 100) as -> by (field; done).
    lra.
Qed.

(** The view's computations in closed form, up to the two divisions. *)
Lemma summarize_prefix hs :
  Forall holding_ok hs ->
  exists tv tc,
    py_sum market_value_of hs 0 = Ok tv /\ tv == value_total hs /\
    py_sum cost_of hs 0 = Ok tc /\ tc == cost_total hs /\
    allocation_loop hs [] = Ok (group (slot <$> hs) []).
Proof.
  intros Hok.
  destruct (py_sum_ok market_value_of (fun h => field_num h "market_value") hs 0)
    as (tv & Htv & Hv).
  { eapply Forall_impl; [exact Hok | apply market_value_of_ok]. }
  destruct (py_sum_ok cost_of
              (fun h => field_num h "quantity" * field_num h "avg_cost") hs 0)
    as (tc & Htc & Hc).
  { eapply Forall_impl; [exact Hok | apply cost_of_ok]. }
  exists tv, tc. unfold value_total, cost_total.
  repeat apply conj; try done; try lra. by apply allocation_loop_ok.
Qed.

Lemma py_sum_returns {A : Type} (f : A -> result Q) (l : list A) (acc t : Q) :
  py_sum f l acc = Ok t -> Forall (fun x => exists y, f x = Ok y) l.
Proof.
  revert acc. induction l as [|x l IH]; intros acc; [by constructor|].
  simpl. destruct (f x) as [y|e] eqn:Hx; simpl; [|done].
  intros Hl. constructor; [eauto | by eapply IH].
Qed.

Lemma allocation_loop_returns hs (a a' : dict Q) :
  allocation_loop hs a = Ok a' -> Forall (fun h => is_Some (h !! "type")) hs.
Proof.
  revert a. induction hs as [|h hs IH]; intros a; [by constructor|].
  simpl. destruct (allocation_step a h) as [a1|e] eqn:Hs; simpl; [|done].
  intros Hl. constructor; [|by eapply IH].
  unfold allocation_step, item in Hs. destruct (h !! "type"); [eauto | done].
Qed.

(** The view's body returns only on holdings that carry the fields it
    reads. *)
Lemma summarize_returns hs r : summarize hs = Ok r -> Forall holding_ok hs.
Proof.
  unfold summarize. intros Hr.
  destruct (py_sum market_value_of hs 0) as [tv|] eqn:Htv; [|done].
  simpl in Hr. destruct (py_sum cost_of hs 0) as [tc|] eqn:Htc; [|done].
  simpl in Hr. destruct (allocation_loop hs []) as [a|] eqn:Ha; [|done].
  apply py_sum_returns in Htv, Htc. apply allocation_loop_returns in Ha.
  clear Hr. rewrite Forall_forall in Htv, Htc, Ha. apply Forall_forall.
  intros h Hin. specialize (Htv h Hin) as [y Hy].
  specialize (Htc h Hin) as [z Hz]. specialize (Ha h Hin).
  unfold market_value_of, cost_of, item, as_num in Hy, Hz.
  unfold holding_ok. repeat apply conj; try done.
  - destruct (h !! "market_value") as [v|]; [|done]. simpl in Hy.
    exists v. split; [done|]. destruct (num_of v); [eauto | done].
  - destruct (h !! "quantity") as [v|]; [|done]. simpl in Hz.
    exists v. split; [done|].
    destruct (h !! "avg_cost") as [w|]; [|done]. simpl in Hz.
    destruct (num_of v); [eauto | done].
  - destruct (h !! "quantity") as [v|]; [|done]. simpl in Hz.
    destruct (h !! "avg_cost") as [w|]; [|done]. simpl in Hz.
    exists w. split; [done|].
    destruct (num_of v); [|done]. simpl in Hz.
    destruct (num_of w); [eauto | done].
Qed.

(** A summary reporting a positive total value comes from holdings whose
    market values add up to a positive amount. *)
Lemma total_value_positive hs r :
  summarize hs = Ok r -> 0 < total_value (summary_portfolio r) ->
  0 < value_total hs.
Proof.
  intros Hr Hpos. pose proof (summarize_returns hs r Hr) as Hok.
  destruct (summarize_prefix hs Hok) as (tv & tc & Htv & Hv & Htc & _ & Hloop).
  unfold summarize in Hr. rewrite Htv in Hr. simpl in Hr.
  rewrite Htc in Hr. simpl in Hr. rewrite Hloop in Hr. simpl in Hr.
  destruct (allocation_percent_of _ tv); [|done]. simpl in Hr.
  destruct (py_div (tv - tc) tc); [|done]. simpl in Hr.
  injection Hr as <-. simpl in Hpos. apply round_pos in Hpos. lra.
Qed.

End PortfolioProperties.

Section PortfolioClaims.

Import Trading.
Local Open Scope Q_scope.

Implicit Types (h : gmap string value) (hs : list (gmap string value)).

(** C7: when the total market value is positive the allocation is computed,
    has one entry per asset type, and its percentages add up to 100 to
    within a twentieth of a point per entry, the most that rounding each
    entry to one decimal can move the sum; a summary the view returns
    carries exactly this allocation. *)
Theorem allocation_percent_total hs :
  Forall holding_ok hs ->
  0 < value_total hs ->
  exists alloc,
    allocation_percent hs = Ok alloc /\
    -(inject_Z (Z.of_nat (length alloc)) * (1 # 20))
      <= Qsum alloc.*2 - 100
      <= inject_Z (Z.of_nat (length alloc)) * (1 # 20) /\
    alloc.*1 = new_keys (type_of <$> hs) [] /\
    distinct_keys alloc.*1 /\
    (forall r, summarize hs = Ok r -> summary_allocation r = alloc).
Proof.
  intros Hok Hpos.
  destruct (summarize_prefix hs Hok) as (tv & tc & Htv & Hv & Htc & Hc & Hloop).
  set (d := group (slot <$> hs) []) in *.
  destruct (group_spec (slot <$> hs)) as (Hk & Hd & _ & Hsum). fold d in Hk, Hd, Hsum.
  assert (~ tv == 0) as Hne by lra.
  pose proof (allocation_percent_of_ok d tv Hne Hd) as Hap.
  eexists. split; [|split; [|split; [|split]]].
  - unfold allocation_percent. rewrite Htv. simpl. rewrite Htc. simpl.
    rewrite Hloop. simpl. exact Hap.
  - rewrite length_fmap.
    assert ((prod_map id (fun v => round (v / tv * 100) 1) <$> d).*2
            = (fun v => round (v / tv * 100) 1) <$> d.*2) as ->.
    { rewrite <- !list_fmap_compose. by apply list_fmap_ext; intros ? []. }
    pose proof (rounded_shares tv d.*2 Hne) as Hr. simpl in Hr.
    rewrite length_fmap in Hr.
    assert (Qsum d.*2 / tv * 100 == 100) as Hall; [|lra].
    assert ((slot <$> hs).*2 = (fun h => field_num h "market_value") <$> hs) as Hs.
    { rewrite <- list_fmap_compose. done. }
    rewrite Hsum, Hs. fold (value_total hs). rewrite <- Hv. field. done.
  - assert ((prod_map id (fun v => round (v / tv * 100) 1) <$> d).*1 = d.*1)
      as ->.
    { rewrite <- list_fmap_compose. by apply list_fmap_ext; intros ? []. }
    rewrite Hk. f_equal. by rewrite <- list_fmap_compose.
  - assert ((prod_map id (fun v => round (v / tv * 100) 1) <$> d).*1 = d.*1)
      as ->; [|done].
    rewrite <- list_fmap_compose. by apply list_fmap_ext; intros ? [].
  - intros r. unfold summarize. rewrite Htv. simpl. rewrite Htc. simpl.
    rewrite Hloop. simpl. fold d. rewrite Hap. simpl.
    destruct (py_div (tv - tc) tc); simpl; [|done]. by intros [= <-].
Qed.

Lemma allocation_percent_total_witness :
  exists alloc,
    allocation_percent mock_holdings = Ok alloc /\
    -(inject_Z (Z.of_nat (length alloc)) * (1 # 20))
      <= Qsum alloc.*2 - 100
      <= inject_Z (Z.of_nat (length alloc)) * (1 # 20) /\
    alloc.*1 = new_keys (type_of <$> mock_holdings) [] /\
    distinct_keys alloc.*1 /\
    (forall r, summarize mock_holdings = Ok r -> summary_allocation r = alloc).
Proof.
  apply allocation_percent_total.
  - well_formed.
  - by vm_compute.
Defined.




(** On the holdings the view is shipped with, both totals are positive and
    the view answers. *)
Lemma get_portfolio_mock :
  exists r,
    get_portfolio "mock_robinhood_token_123" = Ok (Success r) /\
    total_value (summary_portfolio r) == 28969.30 /\
    total_cost (summary_portfolio r) == 26779.50 /\
    total_gain_loss (summary_portfolio r) == 2189.80 /\
    total_gain_loss_percent (summary_portfolio r) == 8.18 /\
    summary_allocation r = [(VStr "stock", 28.2); (VStr "etf", 71.8)].
Proof.
  eexists. split; [vm_compute; reflexivity|]. by vm_compute.
Qed.

End PortfolioClaims.

(** ** Token compilation *)

Section TokenProperties.

Import Blockchain.

Implicit Types (tx : gmap string value) (events : list (gmap string value))
  (tokens : dict token) (seen : list value).

Lemma token_of_symbol tx t : token_of tx = Ok t -> token_symbol t = symbol_of tx.
Proof.
  unfold token_of. destruct (py_int _); simpl; [|done]. by intros [= <-].
Qed.

Lemma token_step_seen tokens tx :
  key_in (symbol_of tx) tokens.*1 = true -> token_step tokens tx = Ok tokens.
Proof.
  intros H. unfold token_step. fold (symbol_of tx).
  by rewrite dict_mem_key_in, H.
Qed.

Lemma token_step_fresh tokens tx :
  key_in (symbol_of tx) tokens.*1 = false ->
  token_step tokens tx =
    match token_of tx with
    | Ok t => Ok (tokens ++ [(symbol_of tx, t)])
    | Raise e => Raise e
    end.
Proof.
  intros H. unfold token_step. fold (symbol_of tx).
  rewrite dict_mem_key_in, H. destruct (token_of tx); simpl; [|done].
  by rewrite dict_set_new by (by rewrite dict_mem_key_in).
Qed.

(** When every event that introduces a symbol converts, the loop appends
    one entry per such event, in scan order. *)
Lemma token_loop_ok events tokens :
  Forall (fun tx => exists t, token_of tx = Ok t) (fresh_events events tokens.*1) ->
  exists new,
    token_loop events tokens = Ok (tokens ++ new) /\
    Forall2 (fun tx kv => kv.1 = symbol_of tx /\ token_of tx = Ok kv.2)
            (fresh_events events tokens.*1) new.
Proof.
  revert tokens. induction events as [|tx events IH]; intros tokens Hall; simpl.
  - exists []. by rewrite app_nil_r.
  - simpl in Hall. destruct (key_in (symbol_of tx) tokens.*1) eqn:E.
    + rewrite token_step_seen by done. simpl. by apply IH.
    + apply Forall_cons in Hall as [[t Ht] Hall].
      rewrite token_step_fresh, Ht by done. simpl.
      destruct (IH (tokens ++ [(symbol_of tx, t)])) as (new & Hl & Hn).
      { by rewrite fmap_app. }
      rewrite fmap_app in Hn. exists ((symbol_of tx, t) :: new).
      split; [by rewrite Hl, <- app_assoc |]. by constructor.
Qed.

(** When some event that introduces a symbol fails to convert, so does
    the loop. *)
Lemma token_loop_raise events tokens :
  Exists (fun tx => exists e, token_of tx = Raise e) (fresh_events events tokens.*1) ->
  exists e, token_loop events tokens = Raise e.
Proof.
  revert tokens. induction events as [|tx events IH]; intros tokens Hex; simpl.
  - by apply Exists_nil in Hex.
  - simpl in Hex. destruct (key_in (symbol_of tx) tokens.*1) eqn:E.
    + rewrite token_step_seen by done. simpl. by apply IH.
    + rewrite token_step_fresh by done.
      destruct (token_of tx) as [t|e] eqn:Ht; simpl; [|eauto].
      apply Exists_cons in Hex as [[e He]|Hex]; [congruence|].
      apply IH. by rewrite fmap_app.
Qed.

(** The fresh events are exactly the events that introduce their symbol. *)
Lemma fresh_events_spec events seen tx :
  tx ∈ fresh_events events seen <->
  exists i, introduces events i tx /\ key_in (symbol_of tx) seen = false.
Proof.
  revert seen. induction events as [|tx0 events IH]; intros seen; simpl.
  - split; [intros H; by apply elem_of_nil in H | by intros (i & [H _] & _)].
  - destruct (key_in (symbol_of tx0) seen) eqn:E.
    + rewrite IH. split.
      * intros (i & [Hi Hj] & Hs). exists (S i). split; [|done].
        split; [done|]. intros [|j] tx' Hlt Hj'.
        -- injection Hj' as <-. destruct (py_eqb _ _) eqn:E'; [|done].
           by rewrite (key_in_congr _ _ seen E'), Hs in E.
        -- apply (Hj j); [lia | done].
      * intros ([|i] & [Hi Hj] & Hs).
        -- injection Hi as <-. by rewrite Hs in E.
        -- exists i. split; [|done]. split; [done|].
           intros j tx' Hlt Hj'. apply (Hj (S j)); [lia | done].
    + rewrite elem_of_cons, IH. split.
      * intros [->|(i & [Hi Hj] & Hs)].
        -- exists 0%nat. split; [|done]. split; [done|]. intros j tx' Hlt. lia.
        -- rewrite key_in_app in Hs. apply orb_false_iff in Hs as [Hs Hs0].
           simpl in Hs0. apply orb_false_iff in Hs0 as [Hs0 _].
           exists (S i). split; [|done]. split; [done|].
           intros [|j] tx' Hlt Hj'; [by injection Hj' as <- |].
           apply (Hj j); [lia | done].
      * intros ([|i] & [Hi Hj] & Hs).
        -- injection Hi as <-. by left.
        -- right. exists i. split.
           ++ split; [done|]. intros j tx' Hlt Hj'. apply (Hj (S j)); [lia | done].
           ++ rewrite key_in_app, Hs. simpl.
              by rewrite (Hj 0%nat tx0) by (done || lia).
Qed.

Lemma fresh_events_symbols events seen :
  symbol_of <$> fresh_events events seen = new_keys (symbol_of <$> events) seen.
Proof.
  revert seen. induction events as [|tx events IH]; intros seen; csimpl; [done|].
  destruct (key_in (symbol_of tx) seen); csimpl; by rewrite IH.
Qed.

(** The decoded history goes through the loop over its first 50 events. *)
Lemma compile_tokens_history events :
  compile_tokens (history events) =
    (tokens ← token_loop (take 50 events) []; mret (tokens.*2)).
Proof.
  unfold compile_tokens, history, status_ok, result_truthy, recent_events.
  simpl. destruct events; done.
Qed.

End TokenProperties.

Section TokenClaims.

Import Blockchain.

Implicit Types (tx : gmap string value) (events : list (gmap string value)).

Lemma Forall2_elem_of {A B : Type} (P : A -> B -> Prop) (l : list A)
    (k : list B) :
  Forall2 P l k ->
  (forall y, y ∈ k -> exists x, x ∈ l /\ P x y) /\
  (forall x, x ∈ l -> exists y, y ∈ k /\ P x y).
Proof.
  induction 1 as [|x y l k Hxy _ [IH1 IH2]].
  - split; intros ? H; by apply elem_of_nil in H.
  - split.
    + intros y' [->|Hy]%elem_of_cons.
      * exists x. split; [apply list_elem_of_here | done].
      * destruct (IH1 y' Hy) as (x' & Hx' & HP). exists x'.
        split; [by apply list_elem_of_further | done].
    + intros x' [->|Hx]%elem_of_cons.
      * exists y. split; [apply list_elem_of_here | done].
      * destruct (IH2 x' Hx) as (y' & Hy' & HP). exists y'.
        split; [by apply list_elem_of_further | done].
Qed.

Lemma token_symbols_fresh (fresh : list (gmap string value)) (new : dict token) :
  Forall2 (fun tx kv => kv.1 = symbol_of tx /\ token_of tx = Ok kv.2) fresh new ->
  token_symbol <$> new.*2 = symbol_of <$> fresh.
Proof.
  induction 1 as [|tx kv fresh new [_ Ht] _ IH]; csimpl; [done|].
  by rewrite IH, (token_of_symbol tx kv.2 Ht).
Qed.

Variable ETHERSCAN_KEY : string.

Lemma token_of_metadata tx t : token_of tx = Ok t <-> metadata_of tx t.
Proof.
  unfold token_of, metadata_of.
  destruct (py_int (get tx "tokenDecimal" (VNum 18))) as [d|e]; simpl.
  - split.
    + by intros [= <-].
    + destruct t as [sy na co de]. simpl. by intros (-> & -> & -> & [= ->]).
  - split; [done | by intros (_ & _ & _ & ?)].
Qed.

Lemma token_of_converts tx : (exists t, token_of tx = Ok t) <-> decimals_convert tx.
Proof.
  unfold token_of, decimals_convert.
  destruct (py_int (get tx "tokenDecimal" (VNum 18))) as [d|e]; simpl.
  - split; eauto.
  - split; [by intros [? ?] | by intros [? ?]].
Qed.

(** C6, as the code has it: the compilation looks at the first 50 events
    only.  If [int] accepts the decimals of every event that introduces a
    symbol, the result holds exactly one token per distinct symbol, and
    the token of a symbol has the symbol, name and contract of the first
    scanned event bearing it and the integer its decimals convert to.  If
    the decimals of one such event are refused, the result is the empty
    list. *)
Theorem get_eth_tokens_dedup (address : string) events
    (net : string -> list (string * string) -> http_reply) :
  net "https://api.etherscan.io/api" (tokens_params ETHERSCAN_KEY address)
    = Json (history events) ->
  let scanned := take 50 events in
  let tokens := (run net (get_eth_tokens ETHERSCAN_KEY address)).1 in
  ((forall i tx, introduces scanned i tx -> decimals_convert tx) ->
   (forall t, t ∈ tokens <->
              exists i tx, introduces scanned i tx /\ metadata_of tx t) /\
   (forall tx, tx ∈ scanned ->
               key_in (symbol_of tx) (token_symbol <$> tokens) = true) /\
   distinct_keys (token_symbol <$> tokens)) /\
  ((exists i tx, introduces scanned i tx /\ ~ decimals_convert tx) ->
   tokens = []).
Proof.
  intros Hnet scanned tokens.
  assert (tokens =
          match token_loop scanned [] with
          | Ok d => d.*2
          | Raise _ => []
          end) as Htokens.
  { unfold tokens, get_eth_tokens. simpl. rewrite Hnet.
    rewrite compile_tokens_history. fold scanned.
    destruct (token_loop scanned []); done. }
  clearbody tokens. subst tokens. split.
  - intros Hconv.
    destruct (token_loop_ok scanned []) as (new & -> & Hnew).
    { apply Forall_forall. intros tx Hin.
      apply fresh_events_spec in Hin as (i & Hi & _).
      apply token_of_converts. by apply (Hconv i). }
    simpl in *. pose proof (Forall2_elem_of _ _ _ Hnew) as [Hback Hforth].
    pose proof (token_symbols_fresh _ _ Hnew) as Hsym.
    rewrite fresh_events_symbols in Hsym. rewrite Hsym.
    repeat apply conj.
    + intros t. split.
      * intros Hin. apply list_elem_of_fmap in Hin as (kv & -> & Hin).
        destruct (Hback kv Hin) as (tx & Htx & _ & Ht).
        apply fresh_events_spec in Htx as (i & Hi & _).
        apply token_of_metadata in Ht. eauto.
      * intros (i & tx & Hi & Ht). apply token_of_metadata in Ht.
        destruct (Hforth tx) as (kv & Hkv & _ & Ht').
        { apply fresh_events_spec. eauto. }
        rewrite Ht in Ht'. injection Ht' as ->.
        apply list_elem_of_fmap. eauto.
    + intros tx Hin. apply (new_keys_covers _ []).
      by apply list_elem_of_fmap_2.
    + by apply (new_keys_distinct _ []).
  - intros (i & tx & Hi & He).
    destruct (token_loop_raise scanned []) as (e' & ->); [|done].
    apply Exists_exists. exists tx. split; [apply fresh_events_spec; eauto|].
    destruct (token_of tx) as [t|e] eqn:Ht; [|eauto].
    destruct He. apply token_of_converts. eauto.
Qed.

End TokenClaims.

Lemma get_eth_tokens_dedup_witness :
  let net := fun (_ : string) (_ : list (string * string)) =>
               Blockchain.Json (Blockchain.history Blockchain.sample_history) in
  let scanned := take 50 Blockchain.sample_history in
  let tokens :=
    (Blockchain.run net
       (Blockchain.get_eth_tokens "KEY"
          "0x52908400098527886E0F7030069857D2E4169EE7")).1 in
  ((forall i tx, Blockchain.introduces scanned i tx ->
                 Blockchain.decimals_convert tx) ->
   (forall t, t ∈ tokens <->
              exists i tx, Blockchain.introduces scanned i tx /\
                           Blockchain.metadata_of tx t) /\
   (forall tx, tx ∈ scanned ->
               key_in (Blockchain.symbol_of tx)
                      (Blockchain.token_symbol <$> tokens) = true) /\
   distinct_keys (Blockchain.token_symbol <$> tokens)) /\
  ((exists i tx, Blockchain.introduces scanned i tx /\
                 ~ Blockchain.decimals_convert tx) ->
   tokens = []).
Proof.
  intros net.
  apply (get_eth_tokens_dedup "KEY"
           "0x52908400098527886E0F7030069857D2E4169EE7"
           Blockchain.sample_history net).
  reflexivity.
Defined.

(** On the sample history the second USDC event is ignored: the token keeps
    the name, contract and decimals of the first. *)
Lemma sample_history_tokens :
  (Blockchain.run
     (fun _ _ => Blockchain.Json (Blockchain.history Blockchain.sample_history))
     (Blockchain.get_eth_tokens "KEY"
        "0x52908400098527886E0F7030069857D2E4169EE7")).1
  = [ {| Blockchain.token_symbol := VStr "USDC";
         Blockchain.token_name := VStr "USD Coin";
         Blockchain.token_contract :=
           VStr "0xa0b86991c6218b36c1d19d4a2e9eb0ce3606eb48";
         Blockchain.token_decimals := 6 |};
      {| Blockchain.token_symbol := VStr "DAI";
         Blockchain.token_name := VStr "Dai Stablecoin";
         Blockchain.token_contract :=
           VStr "0x6b175474e89094c44da98b954eedeac495271d0f";
         Blockchain.token_decimals := 18 |} ].
Proof. vm_compute. reflexivity. Qed.

(** Counterexample to C6 as stated: a history whose only event bears the
    symbol USDC with blank decimals yields no token at all. *)
Lemma get_eth_tokens_blank_decimals_counterexample :
  let tokens :=
    (Blockchain.run
       (fun _ _ =>
          Blockchain.Json (Blockchain.history Blockchain.blank_decimals_history))
       (Blockchain.get_eth_tokens "KEY"
          "0x52908400098527886E0F7030069857D2E4169EE7")).1 in
  Blockchain.symbol_of <$> take 50 Blockchain.blank_decimals_history
    = [VStr "USDC"] /\
  tokens = [] /\
  ~ (exists t, t ∈ tokens /\ Blockchain.token_symbol t = VStr "USDC").
Proof.
  simpl. repeat apply conj; try (vm_compute; reflexivity).
  intros (t & Hin & _). vm_compute in Hin. by apply elem_of_nil in Hin.
Qed.

(* ===================================================================== *)
(** * Further properties of the wallet module *)
(* ===================================================================== *)

Section RunProperties.

Import Blockchain.

Lemma run_bind {A B : Type} net (m : prog A) (f : A -> prog B) :
  run net (prog_bind m f) =
    ((run net (f (run net m).1)).1,
     (run net m).2 ++ (run net (f (run net m).1)).2).
Proof.
  induction m as [a|url params k IH|msg e k IH]; simpl.
  - by destruct (run net (f a)).
  - rewrite IH. by destruct (run net (k (net url params))).
  - rewrite IH. by destruct (run net k).
Qed.

Lemma requests_of_app (t1 t2 : list event) :
  requests_of (t1 ++ t2) = requests_of t1 ++ requests_of t2.
Proof. unfold requests_of. apply omap_app. Qed.

Lemma address_guard (address : string) :
  (len address =? 0)%nat || negb (len address =? 42)%nat
  || negb (startswith address "0x") = false <-> valid_address address.
Proof.
  unfold valid_address. rewrite !orb_false_iff, !negb_false_iff.
  rewrite Nat.eqb_eq, Nat.eqb_neq, startswith_spec. split.
  - by intros [[_ H1] H2].
  - intros [H1 H2]. repeat split; try done. rewrite H1. lia.
Qed.

End RunProperties.

Section BalanceProperties.

Import Blockchain.

Variables ETHERSCAN_KEY POLYGONSCAN_KEY : string.

Lemma balance_of_reading (chain symbol error : string) (data : api_doc) :
  reads_balance chain symbol error (Json data)
    match balance_of chain symbol data with Ok b => b | Raise _ => None end
    match balance_of chain symbol data with
    | Ok _ => []
    | Raise e => [(error, e)]
    end.
Proof.
  unfold reads_balance, balance_of.
  destruct (status_ok data) eqn:Hs; simpl.
  - destruct (result_int data) as [z|e] eqn:Hz; simpl.
    + repeat apply conj.
      * intros b. split.
        -- intros [= <-]. exists data. by simpl.
        -- intros (d & [= <-] & _ & Hr & Hc & Hy & Hb).
           rewrite Hz in Hr. injection Hr as ->.
           destruct b; simpl in *. by subst.
      * intros b [= <-]. simpl. split; [|done].
        field. by vm_compute.
      * done.
    + repeat apply conj.
      * intros b. split; [done|].
        intros (d & [= <-] & _ & Hr & _). by rewrite Hz in Hr.
      * done.
      * intros _. right. eauto.
  - repeat apply conj.
    + intros b. split; [done|].
      intros (d & [= <-] & Hs' & _). by rewrite Hs in Hs'.
    + done.
    + intros _. left. split; [done|]. eauto.
Qed.

Lemma failed_reading (chain symbol error : string) :
  reads_balance chain symbol error RequestFailed None [(error, RequestError)].
Proof.
  unfold reads_balance. repeat apply conj.
  - intros b. split; [done|]. by intros (d & ? & _).
  - done.
  - intros _. right. eauto.
Qed.

Lemma get_eth_balance_reading (address : string) net :
  requests_of (run net (get_eth_balance ETHERSCAN_KEY address)).2 =
    [("https://api.etherscan.io/api", balance_params address ETHERSCAN_KEY)] /\
  reads_balance "Ethereum" "ETH" "Etherscan error"
    (net "https://api.etherscan.io/api" (balance_params address ETHERSCAN_KEY))
    (run net (get_eth_balance ETHERSCAN_KEY address)).1
    (prints_of (run net (get_eth_balance ETHERSCAN_KEY address)).2).
Proof.
  unfold get_eth_balance. simpl.
  destruct (net "https://api.etherscan.io/api" _) as [|data]; simpl.
  - split; [done | apply failed_reading].
  - pose proof (balance_of_reading "Ethereum" "ETH" "Etherscan error" data) as H.
    by destruct (balance_of "Ethereum" "ETH" data).
Qed.

Lemma get_polygon_balance_reading (address : string) net :
  requests_of (run net (get_polygon_balance POLYGONSCAN_KEY address)).2 =
    [("https://api.polygonscan.com/api",
      balance_params address POLYGONSCAN_KEY)] /\
  reads_balance "Polygon" "MATIC" "Polygonscan error"
    (net "https://api.polygonscan.com/api"
       (balance_params address POLYGONSCAN_KEY))
    (run net (get_polygon_balance POLYGONSCAN_KEY address)).1
    (prints_of (run net (get_polygon_balance POLYGONSCAN_KEY address)).2).
Proof.
  unfold get_polygon_balance. simpl.
  destruct (net "https://api.polygonscan.com/api" _) as [|data]; simpl.
  - split; [done | apply failed_reading].
  - pose proof (balance_of_reading "Polygon" "MATIC" "Polygonscan error" data)
      as H.
    by destruct (balance_of "Polygon" "MATIC" data).
Qed.


End BalanceProperties.

Section WalletViewProperties.

Import Blockchain.

Variables ETHERSCAN_KEY POLYGONSCAN_KEY : string.

Lemma get_eth_tokens_requests (address : string) net :
  requests_of (run net (get_eth_tokens ETHERSCAN_KEY address)).2 =
    [("https://api.etherscan.io/api", tokens_params ETHERSCAN_KEY address)].
Proof.
  unfold get_eth_tokens. simpl.
  destruct (net "https://api.etherscan.io/api" _) as [|data]; simpl; [done|].
  by destruct (compile_tokens data).
Qed.

(** For a well-formed address the wallet view always answers with the
    assets, never with a failure: it sends the three lookups in a fixed
    order and puts together whatever each of them yields, the Ethereum
    balance before the Polygon one, a missing balance left out. *)
Theorem get_wallet_assets_partial_results (address : string)
    (net : string -> list (string * string) -> http_reply) :
  valid_address address ->
  (run net (get_wallet_assets ETHERSCAN_KEY POLYGONSCAN_KEY address)).1 =
    Assets address
      (option_list (run net (get_eth_balance ETHERSCAN_KEY address)).1 ++
       option_list (run net (get_polygon_balance POLYGONSCAN_KEY address)).1)
      (run net (get_eth_tokens ETHERSCAN_KEY address)).1
      [] /\
  requests_of
    (run net (get_wallet_assets ETHERSCAN_KEY POLYGONSCAN_KEY address)).2 =
    [("https://api.etherscan.io/api", balance_params address ETHERSCAN_KEY);
     ("https://api.polygonscan.com/api",
      balance_params address POLYGONSCAN_KEY);
     ("https://api.etherscan.io/api", tokens_params ETHERSCAN_KEY address)].
Proof.
  intros Hv. apply address_guard in Hv.
  pose proof (proj1 (get_eth_balance_reading ETHERSCAN_KEY address net)) as H1.
  pose proof (proj1 (get_polygon_balance_reading POLYGONSCAN_KEY address net))
    as H2.
  pose proof (get_eth_tokens_requests address net) as H3.
  unfold get_wallet_assets. rewrite Hv.
  set (p1 := get_eth_balance ETHERSCAN_KEY address) in *.
  set (p2 := get_polygon_balance POLYGONSCAN_KEY address) in *.
  set (p3 := get_eth_tokens ETHERSCAN_KEY address) in *.
  clearbody p1 p2 p3.
  unfold mbind, prog_mbind. rewrite !run_bind. simpl.
  split; [done|].
  by rewrite !requests_of_app, app_nil_r, H1, H2, H3.
Qed.

(** The DeFi view checks the length of the address only.  It turns away
    exactly the addresses that are not 42 characters long and answers
    every other one with an empty list of positions, without any request;
    so it lets through every address the wallet view lets through, and
    also some the wallet view rejects. *)
Theorem get_wallet_defi_validation (address : string)
    (net : string -> list (string * string) -> http_reply) :
  (len address <> 42%nat ->
   run net (get_wallet_defi address) =
     (DefiFailure 400 "Invalid wallet address", [])) /\
  (len address = 42%nat ->
   run net (get_wallet_defi address) = (DefiPositions address [], [])) /\
  (valid_address address ->
   run net (get_wallet_defi address) = (DefiPositions address [], [])) /\
  (run net (get_wallet_defi unprefixed_address)).1 =
    DefiPositions unprefixed_address [] /\
  (run net
     (get_wallet_assets ETHERSCAN_KEY POLYGONSCAN_KEY unprefixed_address)).1 =
    Failure 400
      "Invalid wallet address. Must be 42 characters starting with 0x".
Proof.
  assert (len address = 42%nat ->
          run net (get_wallet_defi address) = (DefiPositions address [], []))
    as Hok.
  { intros H. unfold get_wallet_defi. rewrite H. done. }
  repeat apply conj; try done.
  - intros H. unfold get_wallet_defi. apply Nat.eqb_neq in H. rewrite H.
    simpl. by rewrite orb_true_r.
  - intros [H _]. by apply Hok.
Qed.

End WalletViewProperties.

Lemma get_wallet_assets_partial_results_witness :
  let net := fun (_ : string) (_ : list (string * string)) =>
               Blockchain.RequestFailed in
  (Blockchain.run net
     (Blockchain.get_wallet_assets "KEY1" "KEY2"
        "0x52908400098527886E0F7030069857D2E4169EE7")).1 =
    Blockchain.Assets "0x52908400098527886E0F7030069857D2E4169EE7"
      (option_list
         (Blockchain.run net
            (Blockchain.get_eth_balance "KEY1"
               "0x52908400098527886E0F7030069857D2E4169EE7")).1 ++
       option_list
         (Blockchain.run net
            (Blockchain.get_polygon_balance "KEY2"
               "0x52908400098527886E0F7030069857D2E4169EE7")).1)
      (Blockchain.run net
         (Blockchain.get_eth_tokens "KEY1"
            "0x52908400098527886E0F7030069857D2E4169EE7")).1
      [] /\
  Blockchain.requests_of
    (Blockchain.run net
       (Blockchain.get_wallet_assets "KEY1" "KEY2"
          "0x52908400098527886E0F7030069857D2E4169EE7")).2 =
    [("https://api.etherscan.io/api",
      Blockchain.balance_params "0x52908400098527886E0F7030069857D2E4169EE7"
        "KEY1");
     ("https://api.polygonscan.com/api",
      Blockchain.balance_params "0x52908400098527886E0F7030069857D2E4169EE7"
        "KEY2");
     ("https://api.etherscan.io/api",
      Blockchain.tokens_params "KEY1"
        "0x52908400098527886E0F7030069857D2E4169EE7")].
Proof.
  intros net. apply get_wallet_assets_partial_results.
  split; [reflexivity | by exists "52908400098527886E0F7030069857D2E4169EE7"].
Defined.

Section TokenListProperties.

Import Blockchain.

Implicit Types (tx : gmap string value) (events : list (gmap string value))
  (tokens : dict token).

Variable ETHERSCAN_KEY : string.

(** What the loop returns, when it returns. *)
Lemma token_loop_returns events tokens tokens' :
  token_loop events tokens = Ok tokens' ->
  exists new,
    tokens' = tokens ++ new /\
    Forall2 (fun tx kv => kv.1 = symbol_of tx /\ token_of tx = Ok kv.2)
            (fresh_events events tokens.*1) new.
Proof.
  revert tokens. induction events as [|tx events IH]; intros tokens; simpl.
  - intros [= <-]. exists []. by rewrite app_nil_r.
  - destruct (key_in (symbol_of tx) tokens.*1) eqn:E.
    + rewrite token_step_seen by done. simpl. apply IH.
    + rewrite token_step_fresh by done.
      destruct (token_of tx) as [t|e] eqn:Ht; simpl; [|done].
      intros Hl. destruct (IH _ Hl) as (new & -> & Hn).
      rewrite fmap_app in Hn. exists ((symbol_of tx, t) :: new).
      split; [by rewrite <- app_assoc |]. by constructor.
Qed.

Lemma fresh_events_length events seen :
  (length (fresh_events events seen) <= length events)%nat.
Proof.
  revert seen. induction events as [|tx events IH]; intros seen; simpl; [lia|].
  destruct (key_in (symbol_of tx) seen); simpl.
  - specialize (IH seen). lia.
  - specialize (IH (seen ++ [symbol_of tx])). lia.
Qed.

(** The tokens of a decoded reply: their number and their symbols. *)
Lemma compile_tokens_returns (data : api_doc) (l : list token) :
  compile_tokens data = Ok l ->
  exists scanned,
    (length scanned <= 50)%nat /\
    (forall events, doc_result data = Some (ResultList events) ->
                    status_ok data = true -> scanned = take 50 events) /\
    (length l <= length scanned)%nat /\
    token_symbol <$> l = new_keys (symbol_of <$> scanned) [].
Proof.
  unfold compile_tokens.
  destruct (status_ok data && result_truthy data) eqn:Hg; simpl.
  - apply andb_true_iff in Hg as [Hs Ht].
    unfold recent_events, result_truthy in *.
    destruct (doc_result data) as [[v|events]|]; simpl; try done.
    { by destruct v. }
    destruct (token_loop (take 50 events) []) as [d|e] eqn:Hl; simpl; [|done].
    intros [= <-]. exists (take 50 events).
    destruct (token_loop_returns _ _ _ Hl) as (new & -> & Hn). simpl in *.
    pose proof (fresh_events_length (take 50 events) []) as Hlen.
    pose proof (Forall2_length _ _ _ Hn) as Hlen'.
    repeat apply conj.
    + rewrite length_take. lia.
    + by intros ? [= <-] _.
    + rewrite length_fmap. lia.
    + rewrite (token_symbols_fresh _ _ Hn). apply fresh_events_symbols.
  - intros [= <-]. exists []. simpl. repeat apply conj; try done; try lia.
    intros events Hr Hs. rewrite Hs in Hg. simpl in Hg.
    unfold result_truthy in Hg. rewrite Hr in Hg.
    apply negb_false_iff, bool_decide_eq_true in Hg. by subst.
Qed.

(** Whatever the explorer replies, the token lookup sends one request and
    answers with at most 50 tokens, no two with the same symbol; for a
    reply that carries a transfer history they are listed in the order in
    which its first 50 events first bear their symbols. *)
Theorem get_eth_tokens_bounded (address : string)
    (net : string -> list (string * string) -> http_reply) :
  let out := run net (get_eth_tokens ETHERSCAN_KEY address) in
  requests_of out.2 =
    [("https://api.etherscan.io/api", tokens_params ETHERSCAN_KEY address)] /\
  (length out.1 <= 50)%nat /\
  distinct_keys (token_symbol <$> out.1) /\
  (forall events,
     net "https://api.etherscan.io/api" (tokens_params ETHERSCAN_KEY address)
       = Json (history events) ->
     StronglySorted (met_before (symbol_of <$> take 50 events))
                    (token_symbol <$> out.1)).
Proof.
  intros out. split; [apply get_eth_tokens_requests|].
  unfold out, get_eth_tokens. simpl.
  destruct (net "https://api.etherscan.io/api" _) as [|data] eqn:Hnet; simpl.
  - repeat apply conj; try done; try lia.
  - destruct (compile_tokens data) as [l|e] eqn:Hc; simpl.
    + destruct (compile_tokens_returns data l Hc) as (scanned & H50 & Hsc & Hl & Hs).
      repeat apply conj; try lia.
      * rewrite Hs. apply (new_keys_distinct _ []). done.
      * intros events [= ->]. rewrite Hs, (Hsc events) by done.
        apply new_keys_order.
    + repeat apply conj; try done; try lia. intros. constructor.
Qed.

(** The events after the fiftieth never matter: two histories with the
    same first 50 events compile to the same tokens. *)
Theorem compile_tokens_recent_only events events' :
  take 50 events = take 50 events' ->
  compile_tokens (history events) = compile_tokens (history events').
Proof.
  intros H. by rewrite !compile_tokens_history, H.
Qed.

(** A reply whose status is not '1', or whose result is empty, gives the
    empty token list without a printed error. *)
Theorem get_eth_tokens_quiet (address : string) (data : api_doc)
    (net : string -> list (string * string) -> http_reply) :
  net "https://api.etherscan.io/api" (tokens_params ETHERSCAN_KEY address)
    = Json data ->
  status_ok data = false \/ result_truthy data = false ->
  run net (get_eth_tokens ETHERSCAN_KEY address) =
    ([], [Requested "https://api.etherscan.io/api"
            (tokens_params ETHERSCAN_KEY address)]).
Proof.
  intros Hnet Hq. unfold get_eth_tokens. simpl. rewrite Hnet.
  unfold compile_tokens.
  assert (status_ok data && result_truthy data = false) as ->; [|done].
  apply andb_false_iff. exact Hq.
Qed.

End TokenListProperties.

Lemma compile_tokens_recent_only_witness :
  Blockchain.compile_tokens
    (Blockchain.history
       (replicate 50 (Blockchain.transfer "DAI" "Dai Stablecoin" "0x6b17" "18")
        ++ Blockchain.sample_history)) =
  Blockchain.compile_tokens
    (Blockchain.history
       (replicate 50 (Blockchain.transfer "DAI" "Dai Stablecoin" "0x6b17" "18")
        ++ Blockchain.blank_decimals_history)).
Proof.
  apply compile_tokens_recent_only. reflexivity.
Defined.

Lemma get_eth_tokens_quiet_witness :
  Blockchain.run (fun _ _ => Blockchain.Json Blockchain.rate_limited)
    (Blockchain.get_eth_tokens "KEY"
       "0x52908400098527886E0F7030069857D2E4169EE7") =
    ([], [Blockchain.Requested "https://api.etherscan.io/api"
            (Blockchain.tokens_params "KEY"
               "0x52908400098527886E0F7030069857D2E4169EE7")]).
Proof.
  apply (get_eth_tokens_quiet "KEY" "0x52908400098527886E0F7030069857D2E4169EE7"
           Blockchain.rate_limited).
  - reflexivity.
  - left. reflexivity.
Defined.

(* ===================================================================== *)
(** * Further properties of the banking module *)
(* ===================================================================== *)

Section MoreRounding.
Local Open Scope Q_scope.

Lemma round_half_even_mono (x y : Q) :
  x <= y -> (round_half_even x <= round_half_even y)%Z.
Proof.
  intros Hxy. destruct (Z.le_gt_cases (round_half_even x) (round_half_even y))
    as [|Hgt]; [done|]. exfalso.
  pose proof (round_half_even_spec x) as Hx.
  pose proof (round_half_even_spec y) as Hy.
  set (a := round_half_even x) in *. set (b := round_half_even y) in *.
  assert (inject_Z b + 1 <= inject_Z a) as Hab.
  { rewrite <- inject_Z_succ, <- Zle_Qle. lia. }
  destruct Hx as [[_ Hx]|[Hx Hea]]; destruct Hy as [[Hy _]|[Hy Heb]];
    try lra; try (destruct Hx; lra); try (destruct Hy; lra).
  assert (a = b + 1)%Z as Heq.
  { apply Z_between; rewrite ?inject_Z_succ; destruct Hx, Hy; lra. }
  rewrite Heq, Z.even_add, Heb in Hea. done.
Qed.

Lemma round_mono (x y : Q) (n : nat) : x <= y -> round x n <= round y n.
Proof.
  intros Hxy. unfold round. pose proof (pow10_pos n) as Hp.
  apply Qmult_le_compat_r; [|apply Qlt_le_weak, Qinv_lt_0_compat, Hp].
  rewrite <- Zle_Qle. apply round_half_even_mono.
  apply Qmult_le_compat_r; lra.
Qed.

Lemma round_Z (z : Z) (n : nat) : round (inject_Z z) n == inject_Z z.
Proof.
  unfold round, pow10. rewrite <- inject_Z_mult, round_half_even_Z.
  rewrite inject_Z_mult. pose proof (pow10_pos n) as Hp. unfold pow10 in Hp.
  field. lra.
Qed.

Lemma round_between (lo hi : Z) (x : Q) (n : nat) :
  inject_Z lo <= x <= inject_Z hi ->
  inject_Z lo <= round x n <= inject_Z hi.
Proof.
  intros [H1 H2]. split.
  - rewrite <- (round_Z lo n). by apply round_mono.
  - rewrite <- (round_Z hi n). by apply round_mono.
Qed.



End MoreRounding.

Section ClassifierMore.

Import Banking.

Implicit Types (tx : gmap string value).

Lemma essential_loop_spec (keywords : list string) (name category : string) :
  essential_loop keywords name category = true <->
  exists keyword,
    In keyword keywords /\
    (substring_of keyword name \/ substring_of keyword category).
Proof.
  induction keywords as [|kw rest IH]; simpl.
  - split; [done | by intros (? & [] & _)].
  - destruct (contains kw name || contains kw category) eqn:E.
    + split; [intros _ | done]. exists kw. split; [by left|].
      apply orb_true_iff in E as [E|E]; apply contains_spec in E; eauto.
    + rewrite IH. apply orb_false_iff in E as [E1 E2].
      apply contains_false in E1, E2.
      split; intros (k & Hin & Hk).
      * exists k. split; [by right | done].
      * destruct Hin as [<-|Hin]; [tauto | eauto].
Qed.

(** A transaction is tagged essential exactly when one of the essential
    keywords occurs, in any letter case and at any position, in its name
    or in its category; the category type says the same in words. *)
Theorem categorize_transaction_keywords tx (n c : string) :
  get tx "name" (VStr "") = VStr n ->
  get tx "category" (VStr "") = VStr c ->
  exists r : gmap string value,
    categorize_transaction tx = Ok r /\
    (r !! "is_essential" = Some (VBool true) <-> mentions_essential n c) /\
    (r !! "is_essential" = Some (VBool false) <-> ~ mentions_essential n c) /\
    (r !! "category_type" = Some (VStr "essential") <-> mentions_essential n c) /\
    (r !! "category_type" = Some (VStr "non-essential") <->
     ~ mentions_essential n c).
Proof.
  intros Hn Hc. eexists. split; [by apply categorize_transaction_text|].
  unfold tagged. rewrite lookup_insert_eq.
  rewrite lookup_insert_ne by done. rewrite lookup_insert_eq.
  pose proof (essential_loop_spec ESSENTIAL_CATEGORIES (lower n) (lower c)) as H.
  fold (mentions_essential n c) in H.
  destruct (essential_loop ESSENTIAL_CATEGORIES (lower n) (lower c)).
  - assert (mentions_essential n c) by by apply H.
    repeat split; try done; by intros [].
  - assert (~ mentions_essential n c) by (intros Hm; by apply H in Hm).
    repeat split; try done; by intros [].
Qed.

Lemma categorize_transaction_keywords_witness :
  exists r : gmap string value,
    categorize_transaction (transaction "Las Vegas Hotel" "Travel" 320) = Ok r /\
    (r !! "is_essential" = Some (VBool true) <->
     mentions_essential "Las Vegas Hotel" "Travel") /\
    (r !! "is_essential" = Some (VBool false) <->
     ~ mentions_essential "Las Vegas Hotel" "Travel") /\
    (r !! "category_type" = Some (VStr "essential") <->
     mentions_essential "Las Vegas Hotel" "Travel") /\
    (r !! "category_type" = Some (VStr "non-essential") <->
     ~ mentions_essential "Las Vegas Hotel" "Travel").
Proof.
  apply categorize_transaction_keywords; reflexivity.
Defined.

(** Keywords match inside longer words: the "gas" of "Las Vegas" makes a
    hotel bill essential. *)
Example vegas_is_essential :
  categorize_transaction (transaction "Las Vegas Hotel" "Travel" 320) =
    Ok (tagged true (transaction "Las Vegas Hotel" "Travel" 320)).
Proof. vm_compute. reflexivity. Qed.

(** The classifier does not look at tags a record already carries: setting
    [is_essential] or [category_type] to anything beforehand changes
    neither whether it returns nor what it returns. *)
Theorem categorize_transaction_ignores_tags tx (v : value) :
  categorize_transaction (<["is_essential" := v]> tx) =
    categorize_transaction tx /\
  categorize_transaction (<["category_type" := v]> tx) =
    categorize_transaction tx.
Proof.
  assert (forall (k kk : string) (w d : value),
            kk <> k -> get (<[kk := w]> tx) k d = get tx k d) as Hget.
  { intros k kk w d Hne. unfold get. by rewrite lookup_insert_ne. }
  assert (forall tx', get tx' "name" (VStr "") = get tx "name" (VStr "") ->
                      get tx' "category" (VStr "") = get tx "category" (VStr "") ->
                      (forall b, tagged b tx' = tagged b tx) ->
                      categorize_transaction tx' = categorize_transaction tx)
    as Hsame.
  { intros tx' Hn Hc Ht.
    destruct (get tx "name" (VStr "")) as [| | |n] eqn:En;
      try (unfold categorize_transaction; by rewrite Hn, En).
    destruct (get tx "category" (VStr "")) as [| | |c] eqn:Ec;
      try (unfold categorize_transaction; by rewrite Hn, Hc, En, Ec).
    rewrite (categorize_transaction_text tx' n c),
            (categorize_transaction_text tx n c); try done.
    by rewrite Ht. }
  split; apply Hsame; try (by apply Hget); intros b; unfold tagged.
  - by rewrite insert_insert_eq.
  - rewrite (insert_insert_ne tx "is_essential" "category_type") by done.
    by rewrite insert_insert_eq.
Qed.

(** A record whose name and category are missing or empty is tagged
    non-essential, whatever else it holds. *)
Theorem categorize_transaction_blank tx :
  get tx "name" (VStr "") = VStr "" ->
  get tx "category" (VStr "") = VStr "" ->
  categorize_transaction tx = Ok (tagged false tx).
Proof.
  intros Hn Hc. by rewrite (categorize_transaction_text tx "" "").
Qed.

Lemma categorize_transaction_blank_witness :
  categorize_transaction {["amount" := VNum 12.5]} =
    Ok (tagged false {["amount" := VNum 12.5]}).
Proof.
  apply categorize_transaction_blank; reflexivity.
Defined.

End ClassifierMore.

Section AnalyzerMore.

Import Banking.
Local Open Scope Q_scope.

Implicit Types (tx : gmap string value) (txs : list (gmap string value)).

Lemma magnitude_nonneg tx : 0 <= magnitude tx.
Proof.
  unfold magnitude. destruct (num_of _); [apply Qabs_nonneg | lra].
Qed.

Lemma key_sum_bounds (k : value) (items : list (value * Q)) :
  Forall (fun kv => 0 <= kv.2) items ->
  0 <= key_sum k items <= Qsum items.*2.
Proof.
  induction 1 as [|[k0 a] items Ha _ IH]; csimpl.
  - unfold key_sum. simpl. lra.
  - rewrite key_sum_cons. simpl in Ha. destruct (py_eqb k0 k); lra.
Qed.

Lemma entries_nonneg txs : Forall (fun kv : value * Q => 0 <= kv.2) (entry <$> txs).
Proof.
  apply Forall_fmap, Forall_forall. intros tx _. apply magnitude_nonneg.
Qed.

Lemma entries_total txs : Qsum (entry <$> txs).*2 == Qsum (magnitude <$> txs).
Proof. by rewrite <- list_fmap_compose. Qed.

(** The two running parts never go below zero. *)
Lemma analyze_loop_nonneg txs acc acc' :
  analyze_loop txs acc = Ok acc' ->
  0 <= acc_essential acc -> 0 <= acc_non_essential acc ->
  0 <= acc_essential acc' /\ 0 <= acc_non_essential acc'.
Proof.
  revert acc. induction txs as [|tx txs IH]; intros acc; simpl.
  - by intros [= <-].
  - destruct (analyze_step acc tx) as [acc1|] eqn:Hs; simpl; [|done].
    intros Hl He Hn.
    assert (amount_ok tx) as Hok.
    { eapply Forall_inv. eapply (analyze_loop_amounts [tx] acc).
      simpl. by rewrite Hs. }
    rewrite (analyze_step_ok acc tx Hok) in Hs. injection Hs as <-.
    pose proof (magnitude_nonneg tx).
    apply (IH _ Hl); simpl; destruct (truthy _); lra.
Qed.

Lemma percent_bounds (part total : Q) :
  0 <= part <= total ->
  0 <= (if gtb total 0 then part / total * 100 else 0) <= 100.
Proof.
  intros [H1 H2]. destruct (gtb total 0) eqn:E; [|lra].
  apply gtb_spec in E.
  assert (0 <= part / total) as Ha.
  { apply Qle_shift_div_l; lra. }
  assert (part / total <= 1) as Hb.
  { apply Qle_shift_div_r; lra. }
  lra.
Qed.

(** Every figure of an analysis lies in its natural range: the two parts
    between 0 and the total, the two percentages between 0 and 100, every
    category amount between 0 and the total. *)
Theorem analyze_spending_ranges txs :
  Forall amount_ok txs ->
  exists r,
    analyze_spending txs = Ok r /\
    0 <= essential_spent r <= total_spent r /\
    0 <= non_essential_spent r <= total_spent r /\
    0 <= essential_percent r <= 100 /\
    0 <= non_essential_percent r <= 100 /\
    forall k v, (k, v) ∈ category_breakdown r -> 0 <= v <= total_spent r.
Proof.
  intros Hok.
  destruct (analyze_spending_ok txs Hok) as (acc & Hl & Hb & Ht & He & Hr).
  destruct (analyze_loop_nonneg txs acc_init acc Hl) as [Hne Hnn];
    [simpl; lra | simpl; lra |].
  eexists. split; [exact Hr|]. simpl.
  assert (forall x, 0 <= x -> 0 <= round x 2) as Hpos.
  { intros x Hx. rewrite <- (round_0 2). by apply round_mono. }
  repeat apply conj.
  - by apply Hpos.
  - apply round_mono. lra.
  - by apply Hpos.
  - apply round_mono. lra.
  - apply (round_between 0 100). apply percent_bounds. lra.
  - apply (round_between 0 100). apply percent_bounds. lra.
  - apply (round_between 0 100). apply percent_bounds. lra.
  - apply (round_between 0 100). apply percent_bounds. lra.
  - intros k v Hin.
    apply list_elem_of_fmap in Hin as ([k' v'] & [= -> ->] & Hin). simpl.
    rewrite sorted_by_value_desc_perm, Hb in Hin.
    destruct (group_spec (entry <$> txs)) as (_ & _ & Hv & _).
    rewrite (Hv k' v' Hin).
    pose proof (key_sum_bounds k' (entry <$> txs) (entries_nonneg txs)) as [H1 H2].
    rewrite entries_total in H2.
    split; [by apply Hpos | apply round_mono; lra].
Qed.

Lemma analyze_spending_ranges_witness :
  exists r,
    analyze_spending scenario_transactions = Ok r /\
    0 <= essential_spent r <= total_spent r /\
    0 <= non_essential_spent r <= total_spent r /\
    0 <= essential_percent r <= 100 /\
    0 <= non_essential_percent r <= 100 /\
    forall k v, (k, v) ∈ category_breakdown r -> 0 <= v <= total_spent r.
Proof.
  apply analyze_spending_ranges. well_formed.
Defined.

Lemma Qabs_opp_eq (q : Q) : Qabs (- q) = Qabs q.
Proof. destruct q as [n d]. unfold Qabs, Qopp. simpl. by rewrite Z.abs_opp. Qed.

Lemma analyze_step_flip_sign acc tx :
  analyze_step acc (flip_sign tx) = analyze_step acc tx.
Proof.
  unfold flip_sign. destruct (tx !! "amount") as [[| |q|]|] eqn:Ha; try done.
  unfold analyze_step, get. rewrite lookup_insert_eq.
  rewrite !lookup_insert_ne by done. rewrite Ha.
  unfold py_abs, as_num, num_of. cbn -[Qabs Qopp]. by rewrite Qabs_opp_eq.
Qed.

(** The sign of an amount does not matter: reversing the signs of all
    amounts leaves the whole analysis as it was. *)
Theorem analyze_spending_sign txs :
  analyze_spending (flip_sign <$> txs) = analyze_spending txs.
Proof.
  unfold analyze_spending.
  assert (forall acc, analyze_loop (flip_sign <$> txs) acc = analyze_loop txs acc)
    as ->; [|done].
  induction txs as [|tx txs IH]; intros acc; csimpl; [done|].
  rewrite analyze_step_flip_sign. destruct (analyze_step acc tx); simpl; [|done].
  apply IH.
Qed.

(** What the loop makes of records that carry no [is_essential] key. *)
Lemma analyze_loop_untagged txs acc acc' :
  Forall (fun tx => tx !! "is_essential" = None) txs ->
  analyze_loop txs acc = Ok acc' ->
  acc_essential acc' = acc_essential acc.
Proof.
  intros Hun. revert acc. induction Hun as [|tx txs Htx _ IH]; intros acc; simpl.
  - by intros [= <-].
  - destruct (analyze_step acc tx) as [acc1|] eqn:Hs; simpl; [|done].
    intros Hl. rewrite (IH acc1 Hl).
    assert (amount_ok tx) as Hok.
    { eapply Forall_inv. eapply (analyze_loop_amounts [tx] acc).
      simpl. by rewrite Hs. }
    rewrite (analyze_step_ok acc tx Hok) in Hs. injection Hs as <-. simpl.
    unfold get. by rewrite Htx.
Qed.

(** Transactions that were never classified all count as non-essential:
    the essential amount and percentage are 0 and the non-essential amount
    is the total. *)
Theorem analyze_spending_unclassified txs :
  Forall amount_ok txs ->
  Forall (fun tx => tx !! "is_essential" = None) txs ->
  exists r,
    analyze_spending txs = Ok r /\
    essential_spent r == 0 /\
    essential_percent r == 0 /\
    non_essential_spent r == total_spent r.
Proof.
  intros Hok Hun.
  destruct (analyze_spending_ok txs Hok) as (acc & Hl & _ & _ & He & Hr).
  pose proof (analyze_loop_untagged txs acc_init acc Hun Hl) as Hz.
  simpl in Hz. eexists. split; [exact Hr|]. simpl. rewrite Hz in *.
  repeat apply conj.
  - apply round_0.
  - assert ((if gtb (acc_total acc) 0 then 0 / acc_total acc * 100 else 0) == 0)
      as ->; [|apply round_0].
    destruct (gtb (acc_total acc) 0) eqn:E; [|reflexivity].
    apply gtb_spec in E. field. lra.
  - apply round_proper; [lra | done].
Qed.

Lemma analyze_spending_unclassified_witness :
  exists r,
    analyze_spending scenario_transactions = Ok r /\
    essential_spent r == 0 /\
    essential_percent r == 0 /\
    non_essential_spent r == total_spent r.
Proof.
  apply analyze_spending_unclassified; well_formed.
Defined.



End AnalyzerMore.

Section PipelineProperties.

Import Banking.
Local Open Scope Q_scope.

Implicit Types (tx : gmap string value) (txs : list (gmap string value)).

Lemma categorize_transaction_flag tx :
  text_ok tx -> categorize_transaction tx = Ok (tagged (essential_flag tx) tx).
Proof.
  intros [[n Hn] [c Hc]]. unfold essential_flag. rewrite Hn, Hc.
  by apply categorize_transaction_text.
Qed.

Lemma categorize_all_ok txs :
  Forall text_ok txs ->
  categorize_all txs = Ok ((fun tx => tagged (essential_flag tx) tx) <$> txs).
Proof.
  induction 1 as [|tx txs Htx _ IH]; csimpl; [done|].
  by rewrite (categorize_transaction_flag tx Htx), IH.
Qed.

Lemma categorize_all_raises txs :
  ~ Forall text_ok txs -> categorize_all txs = Raise AttributeError.
Proof.
  induction txs as [|tx txs IH]; intros Hn.
  - destruct Hn. constructor.
  - simpl. destruct (categorize_transaction tx) as [r|e] eqn:Hc; simpl.
    + rewrite IH; [done|]. intros Hall. apply Hn. constructor; [|done].
      by apply (categorize_transaction_returns tx r).
    + unfold categorize_transaction in Hc.
      destruct (get tx "name" (VStr "")); simpl in Hc; try by injection Hc as <-.
      destruct (get tx "category" (VStr "")); simpl in Hc;
        try by injection Hc as <-.
      done.
Qed.







(** The pipeline fails on the first kind of defect it meets: a name or
    category that is not text stops it with [AttributeError] before any
    amount is looked at; with all texts in order, an amount that is not a
    number stops it with [TypeError]. *)
Theorem categorize_then_analyze_errors txs :
  (~ Forall text_ok txs ->
   categorize_then_analyze txs = Raise AttributeError) /\
  (Forall text_ok txs -> ~ Forall amount_ok txs ->
   categorize_then_analyze txs = Raise TypeError).
Proof.
  split.
  - intros Hn. unfold categorize_then_analyze.
    by rewrite (categorize_all_raises txs Hn).
  - intros Htext Hn. unfold categorize_then_analyze.
    rewrite (categorize_all_ok txs Htext). simpl.
    set (cs := (fun tx => tagged (essential_flag tx) tx) <$> txs).
    assert (~ Forall amount_ok cs) as Hn'.
    { intros Hall. apply Hn. unfold cs in Hall. rewrite Forall_fmap in Hall.
      eapply Forall_impl; [exact Hall|]. intros tx. simpl.
      unfold amount_ok. by rewrite get_tagged. }
    unfold analyze_spending.
    assert (forall acc, analyze_loop cs acc = Raise TypeError) as ->; [|done].
    clearbody cs. induction cs as [|tx cs IH]; intros acc.
    + destruct Hn'. constructor.
    + simpl. destruct (analyze_step acc tx) as [acc1|e] eqn:Hs; simpl.
      * apply IH. intros Hall. apply Hn'. constructor; [|done].
        eapply Forall_inv. eapply (analyze_loop_amounts [tx] acc).
        simpl. by rewrite Hs.
      * unfold analyze_step, py_abs, as_num in Hs.
        destruct (num_of (get tx "amount" (VNum 0))); simpl in Hs.
        -- rewrite dict_add_item in Hs. done.
        -- by injection Hs as <-.
Qed.

End PipelineProperties.

Lemma categorize_then_analyze_errors_witness :
  Banking.categorize_then_analyze [ {["name" := VNum 5]} ] =
    Raise AttributeError.
Proof.
  apply (proj1 (categorize_then_analyze_errors [ {["name" := VNum 5]} ])).
  intros H. apply Forall_inv in H as [[n Hn] _]. discriminate Hn.
Defined.

(* ===================================================================== *)
(** * Further properties of the trading module *)
(* ===================================================================== *)

Section SummaryProperties.

Import Trading.
Local Open Scope Q_scope.

Implicit Types (h : gmap string value) (hs : list (gmap string value)).







Lemma py_sum_ext {A : Type} (f g : A -> result Q) (l l' : list A) (acc : Q) :
  Forall2 (fun x y => f x = g y) l l' -> py_sum f l acc = py_sum g l' acc.
Proof.
  intros H. revert acc. induction H as [|x y l l' Hxy _ IH]; intros acc;
    simpl; [done|].
  rewrite Hxy. destruct (g y); simpl; [apply IH | done].
Qed.

Lemma allocation_loop_ext hs hs' (a : dict Q) :
  Forall2 same_core hs hs' -> allocation_loop hs a = allocation_loop hs' a.
Proof.
  intros H. revert a. induction H as [|h h' hs hs' Hh _ IH]; intros a;
    simpl; [done|].
  assert (allocation_step a h = allocation_step a h') as ->.
  { destruct Hh as (Hm & _ & _ & Ht).
    unfold allocation_step, market_value_of, item. by rewrite Hm, Ht. }
  destruct (allocation_step a h'); simpl; [apply IH | done].
Qed.

(** The view computes from the market value, quantity, average cost and
    type of each holding and from nothing else: holdings that agree on
    these four fields give the same figures, or the same exception,
    whatever their price, gain or other fields say. *)
Theorem summarize_core_fields hs hs' :
  Forall2 same_core hs hs' ->
  figures (summarize hs) = figures (summarize hs').
Proof.
  intros H. unfold summarize.
  rewrite (py_sum_ext market_value_of market_value_of hs hs').
  2: { eapply Forall2_impl; [exact H|]. intros h h' (Hm & _).
       unfold market_value_of, item. by rewrite Hm. }
  rewrite (py_sum_ext cost_of cost_of hs hs').
  2: { eapply Forall2_impl; [exact H|]. intros h h' (_ & Hq & Hc & _).
       unfold cost_of, item. by rewrite Hq, Hc. }
  rewrite (allocation_loop_ext hs hs' [] H).
  destruct (py_sum market_value_of hs' 0) as [tv|]; simpl; [|done].
  destruct (py_sum cost_of hs' 0) as [tc|]; simpl; [|done].
  destruct (allocation_loop hs' []) as [a|]; simpl; [|done].
  destruct (allocation_percent_of a tv); simpl; [|done].
  by destruct (py_div (tv - tc) tc).
Qed.

Lemma summarize_core_fields_witness :
  figures (summarize [sold_out]) =
  figures (summarize [ <["current_price" := VStr "n/a"]> sold_out ]).
Proof.
  apply summarize_core_fields. by repeat constructor.
Defined.

End SummaryProperties.

(* ===================================================================== *)
(** * Properties of the news timestamps and feed *)
(* ===================================================================== *)

Section TimestampProperties.

Import NewsFeed.

Variable fromtimestamp : value -> result datetime.

Lemma datetime_sub_day (now dt : datetime) :
  0 <= now - dt < day_us ->
  td_days (datetime_sub now dt) = 0 /\
  td_seconds (datetime_sub now dt) = (now - dt) / 1000000.
Proof.
  unfold datetime_sub, day_us. simpl. intros H.
  rewrite Z.div_small, Z.mod_small by lia. done.
Qed.

(** The age shown for a timestamp that is not in the future depends on the
    elapsed time only, with strict thresholds: up to 60 full seconds is
    "Just now", then whole minutes up to "60m ago" (reached at one hour),
    then whole hours up to "23h ago", then whole days; a timestamp the
    clock cannot convert reads "Unknown". *)
Theorem format_timestamp_elapsed (now : datetime) (unix_ts : value) :
  let out := format_timestamp fromtimestamp now unix_ts in
  match fromtimestamp unix_ts with
  | Raise _ => out = "Unknown"
  | Ok dt =>
      let e := now - dt in
      (0 <= e < 61000000 -> out = "Just now") /\
      (61000000 <= e < 3601000000 ->
       out = str_int (e / 60000000) +:+ "m ago" /\ 1 <= e / 60000000 <= 60) /\
      (3601000000 <= e < day_us ->
       out = str_int (e / 3600000000) +:+ "h ago" /\
       1 <= e / 3600000000 <= 23) /\
      (day_us <= e ->
       out = str_int (e / day_us) +:+ "d ago" /\ 1 <= e / day_us)
  end.
Proof.
  unfold format_timestamp.
  destruct (fromtimestamp unix_ts) as [dt|err]; [|done].
  cbv zeta. repeat apply conj.
  - intros H. destruct (datetime_sub_day now dt) as [-> ->];
      [unfold day_us; lia|].
    assert ((now - dt) / 1000000 <= 60)
      by (apply Z.lt_succ_r, Z.div_lt_upper_bound; lia).
    rewrite (proj2 (Z.ltb_ge 0 0)) by lia.
    rewrite (proj2 (Z.ltb_ge 3600 _)) by lia.
    by rewrite (proj2 (Z.ltb_ge 60 _)) by lia.
  - intros H. destruct (datetime_sub_day now dt) as [-> ->];
      [unfold day_us; lia|].
    assert (61 <= (now - dt) / 1000000) by (apply Z.div_le_lower_bound; lia).
    assert ((now - dt) / 1000000 <= 3600)
      by (apply Z.lt_succ_r, Z.div_lt_upper_bound; lia).
    rewrite (proj2 (Z.ltb_ge 0 0)) by lia.
    rewrite (proj2 (Z.ltb_ge 3600 _)) by lia.
    rewrite (proj2 (Z.ltb_lt 60 _)) by lia.
    rewrite Z.div_div by lia. change (1000000 * 60) with 60000000.
    split; [done|]. split.
    + apply Z.div_le_lower_bound; lia.
    + apply Z.lt_succ_r, Z.div_lt_upper_bound; lia.
  - intros H. destruct (datetime_sub_day now dt) as [-> ->]; [lia|].
    unfold day_us in H.
    assert (3601 <= (now - dt) / 1000000) by (apply Z.div_le_lower_bound; lia).
    rewrite (proj2 (Z.ltb_ge 0 0)) by lia.
    rewrite (proj2 (Z.ltb_lt 3600 _)) by lia.
    rewrite Z.div_div by lia. change (1000000 * 3600) with 3600000000.
    split; [done|]. split.
    + apply Z.div_le_lower_bound; lia.
    + apply Z.lt_succ_r, Z.div_lt_upper_bound; lia.
  - intros H. unfold datetime_sub. cbn [td_days].
    assert (1 <= (now - dt) / day_us)
      by (apply Z.div_le_lower_bound; unfold day_us in *; lia).
    by rewrite (proj2 (Z.ltb_lt 0 _)) by lia.
Qed.

(** A timestamp in the future is never shown in days and never refused:
    it reads exactly as the clock would show it one day later, so a
    timestamp up to 22 h 59 min 59 s ahead reads as between 1 and 23
    hours ago. *)
Theorem format_timestamp_future (now dt : datetime) (unix_ts : value) :
  fromtimestamp unix_ts = Ok dt ->
  now < dt ->
  format_timestamp fromtimestamp now unix_ts =
    format_timestamp fromtimestamp (now + day_us) unix_ts /\
  (dt - now <= 82799000000 ->
   format_timestamp fromtimestamp now unix_ts =
     str_int ((day_us - (dt - now)) / 3600000000) +:+ "h ago" /\
   1 <= (day_us - (dt - now)) / 3600000000 <= 23).
Proof.
  intros Hdt Hlt. unfold format_timestamp. rewrite Hdt.
  assert (td_days (datetime_sub now dt) < 0) as Hd.
  { unfold datetime_sub. cbn [td_days].
    apply Z.div_lt_upper_bound; unfold day_us; lia. }
  assert (datetime_sub (now + day_us) dt =
          {| td_days := td_days (datetime_sub now dt) + 1;
             td_seconds := td_seconds (datetime_sub now dt);
             td_microseconds := td_microseconds (datetime_sub now dt) |})
    as Hshift.
  { unfold datetime_sub. cbn [td_days td_seconds td_microseconds].
    replace (now + day_us - dt) with (now - dt + 1 * day_us) by lia.
    rewrite Z.div_add, Z.mod_add by (unfold day_us; lia).
    f_equal. unfold day_us.
    replace (now - dt + 1 * 86400000000)
      with (now - dt + 86400 * 1000000) by lia.
    by rewrite Z.mod_add by lia. }
  split.
  - rewrite Hshift. cbn [td_days td_seconds].
    rewrite (proj2 (Z.ltb_ge 0 (td_days (datetime_sub now dt)))) by lia.
    by rewrite (proj2 (Z.ltb_ge 0 (td_days (datetime_sub now dt) + 1))) by lia.
  - intros Hnear.
    rewrite (proj2 (Z.ltb_ge 0 (td_days (datetime_sub now dt)))) by lia.
    assert (td_seconds (datetime_sub now dt) =
            (day_us - (dt - now)) / 1000000) as ->.
    { unfold datetime_sub. cbn [td_seconds]. f_equal.
      replace (now - dt) with (day_us - (dt - now) + (-1) * day_us) by lia.
      rewrite Z.mod_add by (unfold day_us; lia).
      apply Z.mod_small. unfold day_us. lia. }
    unfold day_us in *.
    assert (3601 <= (86400000000 - (dt - now)) / 1000000)
      by (apply Z.div_le_lower_bound; lia).
    rewrite (proj2 (Z.ltb_lt 3600 _)) by lia.
    rewrite Z.div_div by lia. change (1000000 * 3600) with 3600000000.
    split; [done|]. split.
    + apply Z.div_le_lower_bound; lia.
    + apply Z.lt_succ_r, Z.div_lt_upper_bound; lia.
Qed.

End TimestampProperties.

Lemma format_timestamp_future_witness :
  NewsFeed.format_timestamp NewsFeed.utc_fromtimestamp 1700000000000000
    (VNum 1700000001) =
  NewsFeed.format_timestamp NewsFeed.utc_fromtimestamp
    (1700000000000000 + NewsFeed.day_us) (VNum 1700000001) /\
  (1700000001000000 - 1700000000000000 <= 82799000000 ->
   NewsFeed.format_timestamp NewsFeed.utc_fromtimestamp 1700000000000000
     (VNum 1700000001) =
   str_int ((NewsFeed.day_us - (1700000001000000 - 1700000000000000))
            / 3600000000) +:+ "h ago" /\
   1 <= (NewsFeed.day_us - (1700000001000000 - 1700000000000000))
        / 3600000000 <= 23).
Proof.
  apply (format_timestamp_future NewsFeed.utc_fromtimestamp
           1700000000000000 1700000001000000 (VNum 1700000001));
    [by vm_compute | lia].
Defined.

(** One second ahead of the clock reads as 23 hours old; one hour old
    reads as sixty minutes. *)
Example format_timestamp_samples :
  NewsFeed.format_timestamp NewsFeed.utc_fromtimestamp 1700000000000000
    (VNum 1700000001) = "23h ago" /\
  NewsFeed.format_timestamp NewsFeed.utc_fromtimestamp 1700003600000000
    (VNum 1700000000) = "60m ago" /\
  NewsFeed.format_timestamp NewsFeed.utc_fromtimestamp 1700000060999999
    (VNum 1700000000) = "Just now" /\
  NewsFeed.format_timestamp NewsFeed.utc_fromtimestamp 1700000000000000
    (VStr "yesterday") = "Unknown".
Proof. by vm_compute. Qed.

Section FeedProperties.

Import News NewsFeed.

Variable fromtimestamp : value -> result datetime.
Variable clock : nat -> datetime.

Implicit Types (a : gmap string value) (data : list (gmap string value)).

Lemma string_length_app (s t : string) :
  String.length (s +:+ t) = (String.length s + String.length t)%nat.
Proof. induction s as [|c s IH]; simpl; [done | by rewrite IH]. Qed.

Lemma str_take_length (n : nat) (s : string) :
  (String.length (str_take n s) <= n)%nat.
Proof.
  unfold str_take. revert s. induction n as [|n IH]; intros [|c s]; simpl;
    try lia.
  specialize (IH s). lia.
Qed.

Lemma str_take_short (n : nat) (s : string) :
  (String.length s <= n)%nat -> str_take n s = s.
Proof.
  unfold str_take. revert s. induction n as [|n IH]; intros [|c s]; simpl;
    try done; try lia.
  intros H. f_equal. apply IH. lia.
Qed.

Lemma slice_to_sublist {A : Type} (n : Z) (l : list A) :
  slice_to n l `sublist_of` l.
Proof. unfold slice_to. destruct (0 <=? n); apply sublist_take. Qed.

Lemma slice_to_length {A : Type} (n : Z) (l : list A) :
  0 <= n -> (length (slice_to n l) <= Z.to_nat n)%nat.
Proof.
  intros H. unfold slice_to. rewrite (proj2 (Z.leb_le 0 n) H).
  rewrite length_take. lia.
Qed.

Lemma summary_of_spec a s :
  summary_of a = Ok s ->
  (s = "" \/ exists t, t <> "" /\ s = str_take 200 t +:+ "...") /\
  (String.length s <= 203)%nat.
Proof.
  unfold summary_of, get.
  destruct (a !! "summary") as [[| b | q | t]|]; simpl;
    try (intros [= <-]; split; [by left | simpl; lia]).
  - destruct b; [done|]. intros [= <-]. split; [by left | simpl; lia].
  - destruct (Qeq_bool q 0); simpl; [|done].
    intros [= <-]. split; [by left | simpl; lia].
  - destruct (String.eqb_spec t "") as [->|Hne]; simpl.
    + intros [= <-]. split; [by left | simpl; lia].
    + intros [= <-]. split; [right; by exists t|].
      rewrite string_length_app. pose proof (str_take_length 200 t).
      simpl. lia.
Qed.

Lemma summary_of_ok a :
  article_ok a = true -> exists s, summary_of a = Ok s.
Proof.
  unfold article_ok, summary_of, get. intros [_ H]%andb_prop. revert H.
  destruct (a !! "summary") as [[| b | q | t]|]; simpl; eauto.
  - destruct b; simpl; [done | eauto].
  - destruct (Qeq_bool q 0); simpl; [eauto | done].
  - destruct (negb (String.eqb t "")); eauto.
Qed.

(** What the loop adds to the articles it starts from. *)
Lemma articles_loop_sound category limit credible_only data :
  forall acc r,
    articles_loop fromtimestamp clock category limit credible_only data acc
      = Ok r ->
    exists r',
      r = acc ++ r' /\
      Forall (well_tagged category credible_only) r' /\
      (forall i x, r' !! i = Some x ->
         article_published x =
           format_timestamp fromtimestamp (clock (length acc + i)%nat)
                            (article_timestamp x)) /\
      (Z.of_nat (length r') <= Z.max 1 (limit - Z.of_nat (length acc))) /\
      exists sel, sel `sublist_of` data /\ Forall2 renders sel r'.
Proof.
  induction data as [|a rest IH]; intros acc r; simpl.
  - intros [= <-]. exists []. rewrite app_nil_r.
    repeat apply conj; [done | done | done | simpl; lia |].
    exists []. by split.
  - destruct (get a "source" (VStr "Unknown")) as [| | |source] eqn:Hsrc;
      try done.
    destruct (credible_only &&
              String.eqb (get_source_credibility source) "unknown") eqn:Hskip.
    { intros H. destruct (IH acc r H) as (r' & ? & ? & ? & ? & sel & ? & ?).
      exists r'. repeat apply conj; try done.
      exists sel. split; [by apply sublist_cons | done]. }
    destruct (summary_of a) as [sm|e] eqn:Hsm; [|done].
    set (x := {| article_id := get a "id" VNone;
                 article_title := _ |}).
    assert (well_tagged category credible_only x) as Hx.
    { destruct (summary_of_spec a sm Hsm) as [Hs Hl].
      repeat apply conj; try done.
      intros ->. simpl in *.
      by destruct (String.eqb_spec (get_source_credibility source) "unknown"). }
    assert (renders a x) as Hr by (unfold renders; by rewrite Hsrc).
    rewrite length_app. simpl.
    destruct (limit <=? Z.of_nat (length acc + 1)) eqn:Hlim.
    + intros [= <-]. exists [x]. repeat apply conj; try done.
      * by constructor.
      * intros [|i] y; [|done]. intros [= <-]. simpl.
        by rewrite Nat.add_0_r.
      * simpl. lia.
      * exists [a]. split; [|by constructor].
        apply sublist_skip, sublist_nil_l.
    + intros H. apply Z.leb_gt in Hlim.
      destruct (IH _ r H) as (r' & -> & Hall & Hpub & Hlen & sel & Hsub & Hren).
      rewrite length_app in Hpub, Hlen. simpl in Hpub, Hlen.
      exists (x :: r'). repeat apply conj.
      * by rewrite <- app_assoc.
      * by constructor.
      * intros [|i] y; simpl.
        -- intros [= <-]. by rewrite Nat.add_0_r.
        -- intros Hy. rewrite (Hpub i y Hy). do 2 f_equal. lia.
      * simpl length. lia.
      * exists (a :: sel). split; [by apply sublist_skip | by constructor].
Qed.

(** Over articles that can be rendered the loop never raises, and what it
    adds renders the first kept articles, as many as the limit still
    allows and one at least. *)
Lemma articles_loop_selection category limit credible_only data :
  Forall (fun a => article_ok a = true) data ->
  forall acc,
    exists r',
      articles_loop fromtimestamp clock category limit credible_only data acc
        = Ok (acc ++ r') /\
      Forall2 renders
        (take (Z.to_nat (Z.max 1 (limit - Z.of_nat (length acc))))
              (filter (fun a => kept credible_only a = true) data))
        r'.
Proof.
  induction 1 as [|a rest Ha _ IH]; intros acc; simpl.
  - exists []. rewrite app_nil_r. split; [done|].
    rewrite filter_nil, take_nil. constructor.
  - pose proof Ha as Ha'. unfold article_ok in Ha'.
    apply andb_prop in Ha' as [Hs _].
    destruct (get a "source" (VStr "Unknown")) as [| | |source] eqn:Hsrc;
      try done.
    assert (kept credible_only a =
            negb (credible_only &&
                  String.eqb (get_source_credibility source) "unknown"))
      as Hk by (unfold kept; by rewrite Hsrc).
    destruct (credible_only &&
              String.eqb (get_source_credibility source) "unknown") eqn:Hskip.
    { destruct (IH acc) as (r' & Hl & Hr). exists r'. split; [done|].
      rewrite filter_cons_False; [done|]. by rewrite Hk. }
    destruct (summary_of_ok a Ha) as (sm & ->).
    set (x := {| article_id := get a "id" VNone;
                 article_title := _ |}).
    assert (renders a x) as Hren by (unfold renders; by rewrite Hsrc).
    rewrite filter_cons_True by (by rewrite Hk).
    rewrite length_app. simpl.
    destruct (limit <=? Z.of_nat (length acc + 1)) eqn:Hlim.
    + apply Z.leb_le in Hlim. exists [x]. split; [done|].
      replace (Z.to_nat (Z.max 1 (limit - Z.of_nat (length acc))))
        with 1%nat by lia.
      simpl. rewrite take_0. by repeat constructor.
    + apply Z.leb_gt in Hlim.
      destruct (IH (acc ++ [x])) as (r' & Hl & Hr).
      rewrite length_app in Hr. simpl in Hr.
      exists (x :: r'). split; [by rewrite Hl, <- app_assoc|].
      replace (Z.to_nat (Z.max 1 (limit - Z.of_nat (length acc))))
        with (S (Z.to_nat
                   (Z.max 1 (limit - Z.of_nat (length acc + 1))))) by lia.
      simpl. by constructor.
Qed.

Lemma articles_loop_raises category limit credible_only data acc e :
  articles_loop fromtimestamp clock category limit credible_only data acc
    = Raise e ->
  Exists (fun a => article_ok a = false) data.
Proof.
  intros H.
  destruct (decide (Forall (fun a => article_ok a = true) data)) as [Hok|Hno].
  - destruct (articles_loop_selection category limit credible_only data Hok acc)
      as (r' & Hr & _).
    congruence.
  - apply not_Forall_Exists in Hno; [|apply _].
    eapply Exists_impl; [exact Hno|]. intros a Ha. simpl in Ha.
    by destruct (article_ok a).
Qed.

Lemma limit_of_le args : limit_of args <= 50.
Proof. unfold limit_of. lia. Qed.

(** With a key configured, [get_news] never falls back to the built-in
    feed.  Its answer holds at most as many articles as the limit, which
    never exceeds 50 whatever the caller asks; a zero limit gives none and
    a negative limit one at most.  The articles render some of the scanned
    articles, in feed order.  The request is answered with an error only
    when the lookup fails or a scanned article cannot be rendered. *)
Theorem get_news_bounded (key : string) (args : gmap string string)
    (reply : result (list (gmap string value))) :
  key <> "" ->
  match get_news fromtimestamp clock key args reply with
  | MockNews _ => False
  | LiveNews _ _ arts =>
      (length arts <= 50)%nat /\
      (1 <= limit_of args -> Z.of_nat (length arts) <= limit_of args) /\
      (limit_of args = 0 -> arts = []) /\
      (limit_of args < 0 -> (length arts <= 1)%nat) /\
      exists data sel,
        reply = Ok data /\
        sel `sublist_of` slice_to (limit_of args * 2) data /\
        Forall2 renders sel arts
  | NewsError e =>
      reply = Raise e \/
      exists data,
        reply = Ok data /\
        Exists (fun a => article_ok a = false)
               (slice_to (limit_of args * 2) data)
  end.
Proof.
  intros Hkey. unfold get_news. fold (limit_of args).
  rewrite (proj2 (String.eqb_neq key "")) by done.
  destruct reply as [data|e]; simpl; [|by left].
  destruct (articles_loop _ _ _ _ _ _ _) as [arts|e] eqn:Hloop.
  - destruct (articles_loop_sound _ _ _ _ _ _ Hloop)
      as (r' & -> & _ & _ & Hlen & sel & Hsub & Hren).
    simpl in *. pose proof (limit_of_le args).
    repeat apply conj; try lia.
    + intros H0. rewrite H0 in Hloop. simpl in Hloop. congruence.
    + by exists data, sel.
  - right. exists data. split; [done|].
    by eapply articles_loop_raises.
Qed.

(** Every article of an answer carries the requested category and the
    credibility its source classifies to, which is never "unknown" when
    only credible sources were asked for.  Its summary is empty or the
    first 200 characters of a non-empty summary followed by an ellipsis,
    appended even when nothing was cut, so at most 203 characters.  Its
    age is formatted from its own timestamp. *)
Theorem get_news_articles (key : string) (args : gmap string string)
    (reply : result (list (gmap string value)))
    (c : string) (n : nat) (arts : list article) :
  get_news fromtimestamp clock key args reply = LiveNews c n arts ->
  c = default "general" (args !! "category") /\
  n = length arts /\
  Forall (well_tagged c (credible_only_of args)) arts /\
  forall i x, arts !! i = Some x ->
    article_published x =
      format_timestamp fromtimestamp (clock i) (article_timestamp x).
Proof.
  unfold get_news. fold (limit_of args) (credible_only_of args).
  destruct (String.eqb key ""); [done|].
  destruct reply as [data|e]; simpl; [|done].
  destruct (articles_loop _ _ _ _ _ _ _) as [r|e] eqn:Hloop; [|done].
  intros [= <- <- <-].
  destruct (articles_loop_sound _ _ _ _ _ _ Hloop)
    as (r' & -> & Hall & Hpub & _).
  by repeat apply conj.
Qed.

(** When every scanned article can be rendered and the limit is positive,
    the answer is exactly the first [limit] articles that pass the
    credibility filter among the first [2 * limit] of the feed, in feed
    order: credible articles further down the feed are not reached. *)
Theorem get_news_selection (key : string) (args : gmap string string)
    (data : list (gmap string value)) :
  key <> "" ->
  1 <= limit_of args ->
  Forall (fun a => article_ok a = true)
         (take (Z.to_nat (limit_of args * 2)) data) ->
  exists arts,
    get_news fromtimestamp clock key args (Ok data) =
      LiveNews (default "general" (args !! "category")) (length arts) arts /\
    Forall2 renders
      (take (Z.to_nat (limit_of args))
            (filter (fun a => kept (credible_only_of args) a = true)
                    (take (Z.to_nat (limit_of args * 2)) data)))
      arts.
Proof.
  intros Hkey Hlim Hok. unfold get_news.
  fold (limit_of args) (credible_only_of args).
  rewrite (proj2 (String.eqb_neq key "")) by done. simpl.
  unfold slice_to. rewrite (proj2 (Z.leb_le 0 (limit_of args * 2))) by lia.
  destruct (articles_loop_selection
              (default "general" (args !! "category")) (limit_of args)
              (credible_only_of args) _ Hok []) as (r' & Hl & Hr).
  simpl in Hl, Hr. rewrite Hl. exists r'. split; [done|].
  by replace (Z.to_nat (Z.max 1 (limit_of args - Z.of_nat 0)))
    with (Z.to_nat (limit_of args)) in Hr by lia.
Qed.

(** Without a key the answer is the built-in feed, whatever the lookup
    would give and whether or not only credible sources were asked for.
    It is a part of the five built-in articles in their order, each tagged
    as its source classifies; a category other than "general" keeps the
    articles of that category only, and a limit that is not negative
    bounds their number. *)
Theorem get_news_mock (args : gmap string string)
    (reply : result (list (gmap string value))) :
  let category := default "general" (args !! "category") in
  let m := get_mock_news category (limit_of args) in
  get_news fromtimestamp clock "" args reply = MockNews m /\
  m `sublist_of` mock_articles /\
  Forall (fun x =>
            mock_credibility x = get_source_credibility (mock_source x) /\
            mock_credibility x <> "unknown" /\
            (category <> "general" -> mock_category x = category)) m /\
  (0 <= limit_of args -> Z.of_nat (length m) <= limit_of args).
Proof.
  intros category m. split; [done|].
  assert (m `sublist_of` mock_articles) as Hsub.
  { unfold m, get_mock_news.
    etrans; [apply slice_to_sublist|].
    destruct (negb (String.eqb category "general")); [|done].
    apply sublist_filter. }
  split; [done|]. split.
  - apply Forall_forall. intros a Ha. repeat apply conj.
    + eapply elem_of_sublist in Ha; [|exact Hsub].
      unfold mock_articles in Ha.
      repeat (apply elem_of_cons in Ha as [->|Ha]; [by vm_compute|]).
      by apply elem_of_nil in Ha.
    + eapply elem_of_sublist in Ha; [|exact Hsub].
      unfold mock_articles in Ha.
      repeat (apply elem_of_cons in Ha as [->|Ha]; [by vm_compute|]).
      by apply elem_of_nil in Ha.
    + intros Hc. unfold m, get_mock_news in Ha.
      rewrite (proj2 (String.eqb_neq category "general")) in Ha by done.
      simpl negb in Ha. cbv iota in Ha.
      eapply elem_of_sublist in Ha; [|apply slice_to_sublist].
      by apply list_elem_of_filter in Ha as [? _].
  - intros H. pose proof (slice_to_length (limit_of args)
      (if negb (String.eqb category "general")
       then filter (fun x => mock_category x = category) mock_articles
       else mock_articles) H) as Hlen.
    unfold m, get_mock_news. lia.
Qed.



End FeedProperties.

Lemma get_news_bounded_witness :
  match NewsFeed.get_news NewsFeed.utc_fromtimestamp
          (fun _ => 1700010000000000) "k"
          {[ "limit" := "2" ]} (Ok NewsFeed.sample_feed) with
  | NewsFeed.MockNews _ => False
  | NewsFeed.LiveNews _ _ arts =>
      (length arts <= 50)%nat /\
      (1 <= NewsFeed.limit_of {[ "limit" := "2" ]} ->
       Z.of_nat (length arts) <= NewsFeed.limit_of {[ "limit" := "2" ]}) /\
      (NewsFeed.limit_of {[ "limit" := "2" ]} = 0 -> arts = []) /\
      (NewsFeed.limit_of {[ "limit" := "2" ]} < 0 -> (length arts <= 1)%nat) /\
      exists data sel,
        Ok NewsFeed.sample_feed = Ok data /\
        sel `sublist_of`
          slice_to (NewsFeed.limit_of {[ "limit" := "2" ]} * 2) data /\
        Forall2 NewsFeed.renders sel arts
  | NewsFeed.NewsError e =>
      Ok NewsFeed.sample_feed = Raise e \/
      exists data,
        Ok NewsFeed.sample_feed = Ok data /\
        Exists (fun a => NewsFeed.article_ok a = false)
               (slice_to (NewsFeed.limit_of {[ "limit" := "2" ]} * 2) data)
  end.
Proof.
  apply (get_news_bounded NewsFeed.utc_fromtimestamp
           (fun _ => 1700010000000000) "k" {[ "limit" := "2" ]}
           (Ok NewsFeed.sample_feed)).
  done.
Defined.

Lemma get_news_articles_witness :
  exists c n arts,
    NewsFeed.get_news NewsFeed.utc_fromtimestamp (fun _ => 1700010000000000)
      "k" {[ "credible_only" := "TRUE" ]} (Ok NewsFeed.sample_feed)
      = NewsFeed.LiveNews c n arts /\
    c = default "general"
          (({[ "credible_only" := "TRUE" ]} : gmap string string)
             !! "category") /\
    n = length arts /\
    Forall (NewsFeed.well_tagged c
              (NewsFeed.credible_only_of {[ "credible_only" := "TRUE" ]}))
           arts /\
    forall i x, arts !! i = Some x ->
      NewsFeed.article_published x =
        NewsFeed.format_timestamp NewsFeed.utc_fromtimestamp
          1700010000000000 (NewsFeed.article_timestamp x).
Proof.
  pose proof (get_news_articles NewsFeed.utc_fromtimestamp
                (fun _ => 1700010000000000) "k"
                {[ "credible_only" := "TRUE" ]} (Ok NewsFeed.sample_feed))
    as T.
  eexists _, _, _. split; [|apply T]; vm_compute; reflexivity.
Defined.

Lemma get_news_selection_witness :
  exists arts,
    NewsFeed.get_news NewsFeed.utc_fromtimestamp (fun _ => 1700010000000000)
      "k" {[ "limit" := "1"; "credible_only" := "true" ]}
      (Ok NewsFeed.sample_feed) =
      NewsFeed.LiveNews
        (default "general"
           (({[ "limit" := "1"; "credible_only" := "true" ]}
               : gmap string string) !! "category"))
        (length arts) arts /\
    Forall2 NewsFeed.renders
      (take (Z.to_nat (NewsFeed.limit_of
                         {[ "limit" := "1"; "credible_only" := "true" ]}))
            (filter (fun a =>
                       NewsFeed.kept
                         (NewsFeed.credible_only_of
                            {[ "limit" := "1"; "credible_only" := "true" ]})
                         a = true)
                    (take (Z.to_nat
                             (NewsFeed.limit_of
                                {[ "limit" := "1"; "credible_only" := "true" ]}
                              * 2))
                          NewsFeed.sample_feed)))
      arts.
Proof.
  apply (get_news_selection NewsFeed.utc_fromtimestamp
           (fun _ => 1700010000000000) "k"
           {[ "limit" := "1"; "credible_only" := "true" ]}
           NewsFeed.sample_feed).
  - done.
  - by vm_compute.
  - vm_compute. by repeat constructor.
Defined.

(** Asked for one credible article, the feed scans two, both from unknown
    sources, and answers none although the third is from Reuters; asked
    for one article of any source it answers the first. *)
Example sample_feed_window :
  NewsFeed.get_news NewsFeed.utc_fromtimestamp (fun _ => 1700010000000000)
    "k" {[ "limit" := "1"; "credible_only" := "true" ]}
    (Ok NewsFeed.sample_feed) = NewsFeed.LiveNews "general" 0 [] /\
  exists x,
    NewsFeed.get_news NewsFeed.utc_fromtimestamp (fun _ => 1700010000000000)
      "k" {[ "limit" := "1" ]} (Ok NewsFeed.sample_feed)
      = NewsFeed.LiveNews "general" 1 [x] /\
    NewsFeed.article_source x = "Some Blog" /\
    NewsFeed.article_credibility x = "unknown" /\
    NewsFeed.article_summary x = "aaa..." /\
    NewsFeed.article_published x = "2h ago".
Proof.
  split; [by vm_compute|]. eexists. split; [by vm_compute|]. by vm_compute.
Qed.

